(** * The spreadsheet extraction pipeline of [app/api/process-xlsx/route.ts]

    A shallow embedding of the request handler that turns a specification
    workbook into a production order and a quotation, and the properties
    of it that the design document states.

    Part I holds the embedding, function by function, under the names
    of the TypeScript source.  Part II holds the properties. *)

From Stdlib Require Import ZArith NArith String Ascii DecimalString Sorted.
From stdpp Require Import gmap list.

Local Open Scope N_scope.

(* ===================================================================== *)
(** * Part I.  The embedding                                              *)
(* ===================================================================== *)

(** ** JavaScript strings

    A JavaScript string is a sequence of UTF-16 code units, and the
    regular expressions of the source carry no [u] flag: they work on
    code units.  [jsstring] is that sequence. *)

Abbreviation jsstring := (list N).

Module Js.

(** [utf16 bs] decodes the UTF-8 bytes [bs] of a literal of this file into
    code units, so that the literals of the source can be written as they
    stand there. *)
Fixpoint utf16 (bs : list N) : jsstring :=
  match bs with
  | [] => []
  | b0 :: t0 =>
    if b0 <? 128 then b0 :: utf16 t0
    else match t0 with
    | [] => [b0]
    | b1 :: t1 =>
      if b0 <? 224 then ((b0 mod 32) * 64 + b1 mod 64) :: utf16 t1
      else match t1 with
      | [] => [b0; b1]
      | b2 :: t2 =>
        if b0 <? 240
        then ((b0 mod 16) * 4096 + (b1 mod 64) * 64 + b2 mod 64) :: utf16 t2
        else match t2 with
        | [] => [b0; b1; b2]
        | b3 :: t3 =>
          let cp := (b0 mod 8) * 262144 + (b1 mod 64) * 4096
                    + (b2 mod 64) * 64 + b3 mod 64 in
          let v := cp - 65536 in
          (55296 + v / 1024) :: (56320 + v mod 1024) :: utf16 t3
        end
      end
    end
  end.

Definition u (s : string) : jsstring :=
  utf16 (List.map N_of_ascii (list_ascii_of_string s)).

(** [String.prototype.startsWith]: [s.startsWith(p)]. *)
Fixpoint startsWith (s p : jsstring) : bool :=
  match p, s with
  | [], _ => true
  | _ :: _, [] => false
  | c :: p', d :: s' => (c =? d) && startsWith s' p'
  end.

(** [toLowerCase] on the code units of ASCII; other code units are
    left as they are.  The properties of Part II that speak of
    [toLowerCase] are proved for an arbitrary lower-casing function, and
    this one serves where a concrete string is evaluated. *)
Definition lower_unit (c : N) : N :=
  if (65 <=? c) && (c <=? 90) then c + 32 else c.

Definition asciiLowerCase (s : jsstring) : jsstring := List.map lower_unit s.

(** [\s] of a regular expression, and the set [String.prototype.trim]
    strips: WhiteSpace and LineTerminator of ECMA-262. *)
Definition is_space (c : N) : bool :=
  ((9 <=? c) && (c <=? 13)) || (c =? 32) || (c =? 160) || (c =? 5760)
  || ((8192 <=? c) && (c <=? 8202)) || (c =? 8232) || (c =? 8233)
  || (c =? 8239) || (c =? 8287) || (c =? 12288) || (c =? 65279).

(** The code units [.] does not match: LF, CR, LS, PS. *)
Definition is_line_terminator (c : N) : bool :=
  (c =? 10) || (c =? 13) || (c =? 8232) || (c =? 8233).

Fixpoint trimStart (s : jsstring) : jsstring :=
  match s with
  | c :: s' => if is_space c then trimStart s' else s
  | [] => []
  end.

Definition trim (s : jsstring) : jsstring :=
  rev (trimStart (rev (trimStart s))).

(** [Array.prototype.join]. *)
Fixpoint join (sep : jsstring) (l : list jsstring) : jsstring :=
  match l with
  | [] => []
  | [s] => s
  | s :: l' => s ++ sep ++ join sep l'
  end.

(** Decimal rendering of an integer, [String(n)]. *)
Definition decimal (n : Z) : jsstring :=
  u (NilZero.string_of_int (Z.to_int n)).

(** *** Errors and completions

    [JsError msg] is [new Error(msg)]; the messages of the engine's own
    [TypeError] and [SyntaxError] are not fixed by the language, and
    [JsLibraryError] is an error that ExcelJS throws.
    A statement completes normally, throws, or leaves what this embedding
    represents ([Unmodelled]: a named property stored on an array, a
    [length] that is no number). *)
Inductive js_error :=
| JsError (msg : jsstring)
| JsTypeError
| JsSyntaxError
| JsLibraryError.

Inductive completion (A : Type) :=
| Normal (a : A)
| Throw (e : js_error)
| Unmodelled.
Arguments Normal {A} a.
Arguments Throw {A} e.
Arguments Unmodelled {A}.

Definition bind {A B} (c : completion A) (k : A -> completion B) : completion B :=
  match c with
  | Normal a => k a
  | Throw e => Throw e
  | Unmodelled => Unmodelled
  end.

(** [for (const x of xs) { body }] over a list whose elements the body
    may replace. *)
Fixpoint forEachM {A} (body : A -> completion A) (xs : list A) : completion (list A) :=
  match xs with
  | [] => Normal []
  | x :: xs' =>
    bind (body x) (fun x' => bind (forEachM body xs') (fun r => Normal (x' :: r)))
  end.

(** *** Values

    What [JSON.parse] returns.  Numbers are the integers; a fraction or an
    exponent is outside this embedding.  An object keeps its members in
    order; a key occurs once. *)
#[warnings="-register-all"]
Inductive json :=
| JNull
| JBool (b : bool)
| JNum (n : Z)
| JStr (s : jsstring)
| JArr (l : list json)
| JObj (members : list (jsstring * json)).

Definition str_eqb (a b : jsstring) : bool := bool_decide (a = b).

Fixpoint assoc {V} (k : jsstring) (ms : list (jsstring * V)) : option V :=
  match ms with
  | [] => None
  | (k', v) :: ms' => if str_eqb k k' then Some v else assoc k ms'
  end.

Fixpoint assoc_set {V} (k : jsstring) (v : V) (ms : list (jsstring * V))
  : list (jsstring * V) :=
  match ms with
  | [] => [(k, v)]
  | (k', v') :: ms' =>
    if str_eqb k k' then (k, v) :: ms' else (k', v') :: assoc_set k v ms'
  end.

(** A value read from a property is [None] when the property is absent
    ([undefined]). *)
Abbreviation jsval := (option json).

(** ToBoolean. *)
Definition truthy (v : jsval) : bool :=
  match v with
  | None | Some JNull => false
  | Some (JBool b) => b
  | Some (JNum n) => negb (n =? 0)%Z
  | Some (JStr s) => match s with [] => false | _ => true end
  | Some (JArr _) | Some (JObj _) => true
  end.

(** [a || b]. *)
Definition or_else (a b : jsval) : jsval := if truthy a then a else b.

(** [String(v)], and the conversion a template literal and a property key
    make: ToString.  An integer is written in decimal digits up to 2^53.
    An array is joined with commas, [null] giving the empty string.  An
    object is converted by the method [toString] it has and then by
    [valueOf]: a parsed object that holds a member [toString] holds a value
    that cannot be called, and the [valueOf] it has returns the object or
    cannot be called either, so that the conversion throws a [TypeError];
    every other parsed object inherits [Object.prototype.toString]. *)
Fixpoint toString (v : json) : completion jsstring :=
  match v with
  | JNull => Normal (u "null")
  | JBool true => Normal (u "true")
  | JBool false => Normal (u "false")
  | JNum n => if (Z.abs n <=? 9007199254740992)%Z then Normal (decimal n) else Unmodelled
  | JStr s => Normal s
  | JArr l =>
    bind ((fix each (l : list json) : completion (list jsstring) :=
             match l with
             | [] => Normal []
             | e :: l' =>
               bind (match e with JNull => Normal [] | _ => toString e end)
                    (fun s => bind (each l') (fun r => Normal (s :: r)))
             end) l)
         (fun parts => Normal (join (u ",") parts))
  | JObj ms =>
    match assoc (u "toString") ms with
    | Some _ => Throw JsTypeError
    | None => Normal (u "[object Object]")
    end
  end.

Definition toStringV (v : jsval) : completion jsstring :=
  match v with
  | None => Normal (u "undefined")
  | Some j => toString j
  end.

(** [v.k] for a key [k] that names no member of a prototype: every key the
    source reads is such a key.  [null.k] throws. *)
Definition get (v : json) (k : jsstring) : completion jsval :=
  match v with
  | JNull => Throw JsTypeError
  | JObj ms => Normal (assoc k ms)
  | JArr l =>
    if str_eqb k (u "length") then Normal (Some (JNum (Z.of_nat (length l))))
    else Normal None
  | JStr s =>
    if str_eqb k (u "length") then Normal (Some (JNum (Z.of_nat (length s))))
    else Normal None
  | JBool _ | JNum _ => Normal None
  end.

(** [v.k = x] in strict mode (the route is an ES module). *)
Definition set (v : json) (k : jsstring) (x : json) : completion json :=
  match v with
  | JObj ms => Normal (JObj (assoc_set k x ms))
  | JArr _ => Unmodelled
  | JNull | JBool _ | JNum _ | JStr _ => Throw JsTypeError
  end.

(** [v[i]] for an array index [i]. *)
Definition index (v : json) (i : nat) : completion jsval :=
  match v with
  | JNull => Throw JsTypeError
  | JArr l => Normal (l !! i)
  | JStr s => Normal ((fun c => JStr [c]) <$> s !! i)
  | JObj ms => Normal (assoc (decimal (Z.of_nat i)) ms)
  | JBool _ | JNum _ => Normal None
  end.

(** [v[i] = x] in strict mode.  Writing past the end of an array leaves
    holes, which [json] does not have. *)
Definition set_index (v : json) (i : nat) (x : json) : completion json :=
  match v with
  | JArr l =>
    if bool_decide (i < length l)%nat then Normal (JArr (<[i:=x]> l))
    else if bool_decide (i = length l) then Normal (JArr (l ++ [x]))
    else Unmodelled
  | JObj ms => Normal (JObj (assoc_set (decimal (Z.of_nat i)) x ms))
  | JNull | JBool _ | JNum _ | JStr _ => Throw JsTypeError
  end.

(** [v > n] for a number [n]: [undefined] is NaN, [null] is 0, a boolean
    is 0 or 1, an object is NaN unless it holds a member [toString], with
    which ToPrimitive throws; a string or an array would be converted by
    StringToNumber. *)
Definition gt_num (v : jsval) (n : Z) : completion bool :=
  match v with
  | None => Normal false
  | Some JNull => Normal (0 >? n)%Z
  | Some (JBool b) => Normal ((if b then 1 else 0) >? n)%Z
  | Some (JNum m) => Normal (m >? n)%Z
  | Some (JObj ms) =>
    match assoc (u "toString") ms with
    | Some _ => Throw JsTypeError
    | None => Normal false
    end
  | Some (JStr _) | Some (JArr _) => Unmodelled
  end.

(** [a === b] against a string literal [b]. *)
Definition strict_eq_str (a : jsval) (b : jsstring) : bool :=
  match a with
  | Some (JStr s) => str_eqb s b
  | _ => false
  end.

End Js.

Export Js.

(** The completions form a monad; [x ← c; k] is stdpp's notation for [bind]. *)
#[export] Instance completion_bind : MBind completion :=
  fun A B k c => bind c k.
#[export] Instance completion_ret : MRet completion := @Normal.

(* --------------------------------------------------------------------- *)
(** ** The part-image reconciler (the two loops of [POST])               *)
(* --------------------------------------------------------------------- *)

(** An uploaded CAD file as [POST] keeps it in [stpInfo]. *)
Record stp_file := StpFile { path : jsstring; name : jsstring }.

Module Reconciler.
Section WithLowerCase.

(** [String.prototype.toLowerCase], which follows the Unicode case
    mappings; the reconciler is embedded over any such function. *)
Variable toLowerCase : jsstring -> jsstring.

(** [const stpNames = stpInfo.map(f => f.name.toLowerCase());] *)
Definition stpNames (stpInfo : list stp_file) : list jsstring :=
  List.map (fun f => toLowerCase (name f)) stpInfo.

(** [stpNames.find(n => n.startsWith(partNum))] *)
Definition findMatch (names : list jsstring) (partNum : jsstring) : option jsstring :=
  List.find (fun n => startsWith n partNum) names.

(** [String(v || "").toLowerCase()] *)
Definition partKey (v : jsval) : completion jsstring :=
  s ← toStringV (or_else v (Some (JStr [])));
  Normal (toLowerCase s).

(** The body of [for (const item of layout)]:
    [if (item.type === "main_table_data_row" && item.data && item.data.length > 2)
       { ...; if (match) item.data[1] = match; }].
    [if (match)] is false for [undefined] and for the empty string. *)
Definition attachLayoutItem (names : list jsstring) (item : json) : completion json :=
  ty ← get item (u "type");
  if strict_eq_str ty (u "main_table_data_row") then
    data ← get item (u "data");
    match data with
    | Some d =>
      if truthy data then
        len ← get d (u "length");
        long ← gt_num len 2;
        if (long : bool) then
          v ← index d 2;
          partNum ← partKey v;
          match findMatch names partNum with
          | Some (c :: m) =>
            d' ← set_index d 1 (JStr (c :: m));
            set item (u "data") d'
          | _ => Normal item
          end
        else Normal item
      else Normal item
    | None => Normal item
    end
  else Normal item.

Definition attachLayout (names : list jsstring) (layout : list json)
  : completion (list json) :=
  forEachM (attachLayoutItem names) layout.

(** The body of [for (const p of quotation.products)]. *)
Definition attachProduct (names : list jsstring) (p : json) : completion json :=
  v ← get p (u "零件名");
  partNum ← partKey v;
  match findMatch names partNum with
  | Some (c :: m) => set p (u "零件图片") (JStr (c :: m))
  | _ => Normal p
  end.

(** [if (Array.isArray(quotation.products)) { for (const p of ...) ... }] *)
Definition attachQuotation (names : list jsstring) (quotation : json)
  : completion json :=
  ps ← get quotation (u "products");
  match ps with
  | Some (JArr l) =>
    l' ← forEachM (attachProduct names) l;
    set quotation (u "products") (JArr l')
  | _ => Normal quotation
  end.

End WithLowerCase.
End Reconciler.

(* --------------------------------------------------------------------- *)
(** ** The structure extractor ([extractStructures])                      *)
(* --------------------------------------------------------------------- *)

Module Extractor.

(** *** [txt.replace(/```(?:javascript|js|python)?|```/g, '')]

    At three back-ticks the first alternative matches, with the language
    tag when one follows; the alternatives of the tag are tried in the
    order they are written. *)
Definition fenceLength (s : jsstring) : nat :=
  if startsWith s [96; 96; 96] then
    let r := drop 3 s in
    if startsWith r (u "javascript") then 13%nat
    else if startsWith r (u "js") then 5%nat
    else if startsWith r (u "python") then 9%nat
    else 3%nat
  else 0%nat.

(** [skip] counts the code units of the current match still to drop. *)
Fixpoint stripFencesFrom (skip : nat) (s : jsstring) : jsstring :=
  match s with
  | [] => []
  | c :: s' =>
    match skip with
    | S k => stripFencesFrom k s'
    | O =>
      match fenceLength s with
      | O => c :: stripFencesFrom 0 s'
      | S k => stripFencesFrom k s'
      end
    end
  end.

Definition stripFences (txt : jsstring) : jsstring := stripFencesFrom 0 txt.

(** *** [txt.match(/const\s+NAME\s*=\s*(OPEN[\s\S]*?CLOSE);/)]

    [dropPrefix p s] is the rest of [s] behind the literal [p]. *)
Fixpoint dropPrefix (p s : jsstring) : option jsstring :=
  match p, s with
  | [], _ => Some s
  | _ :: _, [] => None
  | c :: p', d :: s' => if c =? d then dropPrefix p' s' else None
  end.

(** The lazy [[\s\S]*?] followed by [CLOSE;]: the code units up to the
    first place where [CLOSE;] stands. *)
Fixpoint lazyUntil (close : N) (s : jsstring) : option jsstring :=
  match s with
  | [] => None
  | c :: s' =>
    if (c =? close) && startsWith s' [59] then Some []
    else cons c <$> lazyUntil close s'
  end.

(** A match that starts at the head of [s]; the result is group 1. *)
Definition matchHere (nm : jsstring) (open close : N) (s : jsstring)
  : option jsstring :=
  r1 ← dropPrefix (u "const") s;
  match r1 with
  | c :: _ =>
    if is_space c then
      r2 ← dropPrefix nm (trimStart r1);
      r3 ← dropPrefix [61] (trimStart r2);
      match trimStart r3 with
      | o :: r4 =>
        if o =? open then
          body ← lazyUntil close r4;
          Some (open :: body ++ [close])
        else None
      | [] => None
      end
    else None
  | [] => None
  end.

(** [String.prototype.match] without the [g] flag: the leftmost match. *)
Fixpoint matchFirst (nm : jsstring) (open close : N) (s : jsstring)
  : option jsstring :=
  match matchHere nm open close s with
  | Some g => Some g
  | None =>
    match s with
    | [] => None
    | _ :: s' => matchFirst nm open close s'
    end
  end.

Definition arrMatch (txt : jsstring) : option jsstring :=
  matchFirst (u "excelLayoutData") 91 93 txt.

Definition objMatch (txt : jsstring) : option jsstring :=
  matchFirst (u "quotationData") 123 125 txt.

(** *** [clean]

    [.replace(/\/\/.*$/gm, '')]: from two slashes up to the line
    terminator, or to the end. *)
Fixpoint stripComments (inComment : bool) (s : jsstring) : jsstring :=
  match s with
  | [] => []
  | c :: s' =>
    if inComment then
      if is_line_terminator c then c :: stripComments false s'
      else stripComments true s'
    else if (c =? 47) && startsWith s' [47] then stripComments true s'
    else c :: stripComments false s'
  end.

(** The second [replace] of [clean]: every single quote (39) becomes a
    double quote (34). *)
Definition doubleQuotes (s : jsstring) : jsstring :=
  List.map (fun c => if c =? 39 then 34 else c) s.

(** [.replace(/,\s*([\]}])/g, '$1')]: a comma goes, with the white space
    behind it, when a closing bracket or brace follows that. *)
Definition isCloser (c : N) : bool := (c =? 93) || (c =? 125).

Definition trailingComma (s' : jsstring) : option nat :=
  match trimStart s' with
  | c :: _ => if isCloser c then Some (length s' - length (trimStart s'))%nat else None
  | [] => None
  end.

Fixpoint dropTrailingCommas (skip : nat) (s : jsstring) : jsstring :=
  match s with
  | [] => []
  | c :: s' =>
    match skip with
    | S k => dropTrailingCommas k s'
    | O =>
      if c =? 44 then
        match trailingComma s' with
        | Some k => dropTrailingCommas k s'
        | None => c :: dropTrailingCommas 0 s'
        end
      else c :: dropTrailingCommas 0 s'
    end
  end.

(** [.replace(/[;`]/g, '')] *)
Definition dropTerminators (s : jsstring) : jsstring :=
  List.filter (fun c => negb ((c =? 59) || (c =? 96))) s.

Definition clean (jsStr : jsstring) : jsstring :=
  trim (dropTerminators (dropTrailingCommas 0 (doubleQuotes (stripComments false jsStr)))).

Definition notFoundMessage : jsstring :=
  u "Failed to extract required data structures from Gemini output.".

Definition extractStructures (txt : jsstring) : completion (jsstring * jsstring) :=
  let txt := stripFences txt in
  match arrMatch txt, objMatch txt with
  | Some a, Some o => Normal (clean a, clean o)
  | _, _ => Throw (JsError notFoundMessage)
  end.

End Extractor.

(* --------------------------------------------------------------------- *)
(** ** [JSON.parse]                                                       *)
(* --------------------------------------------------------------------- *)

(** The grammar of ECMA-404 over code units.  [Throw JsSyntaxError] is the
    engine's [SyntaxError]; a number with a fraction or an exponent, or an
    integer beyond 2^53, is [Unmodelled]. *)
Module JSON.

Definition isJsonSpace (c : N) : bool :=
  (c =? 9) || (c =? 10) || (c =? 13) || (c =? 32).

Fixpoint skipWs (s : jsstring) : jsstring :=
  match s with
  | c :: s' => if isJsonSpace c then skipWs s' else s
  | [] => []
  end.

Definition isDigit (c : N) : bool := (48 <=? c) && (c <=? 57).

Definition hexValue (c : N) : option N :=
  if isDigit c then Some (c - 48)
  else if (97 <=? c) && (c <=? 102) then Some (c - 87)
  else if (65 <=? c) && (c <=? 70) then Some (c - 55)
  else None.

Definition syntaxError {A} : completion A := Throw JsSyntaxError.

(** The code unit an escape [\e] stands for; [\u] is read apart. *)
Definition escapeOf (e : N) : option N :=
  if e =? 34 then Some 34
  else if e =? 92 then Some 92
  else if e =? 47 then Some 47
  else if e =? 98 then Some 8
  else if e =? 102 then Some 12
  else if e =? 110 then Some 10
  else if e =? 114 then Some 13
  else if e =? 116 then Some 9
  else None.

Definition hex4 (s : jsstring) : option N :=
  match s with
  | a :: b :: c :: d :: _ =>
    a ← hexValue a; b ← hexValue b; c ← hexValue c; d ← hexValue d;
    Some (a * 4096 + b * 256 + c * 16 + d)
  | _ => None
  end.

(** The characters of a string behind its opening quote.  [skip] counts
    the code units of an escape still to pass over. *)
Fixpoint parseChars (skip : nat) (s : jsstring) : completion (jsstring * jsstring) :=
  match s with
  | [] => syntaxError
  | c :: r =>
    match skip with
    | S k =>
      match k with
      | O => parseChars 0 r
      | S _ => match r with [] => syntaxError | _ => parseChars k r end
      end
    | O =>
      if c =? 34 then Normal ([], r)
      else if c =? 92 then
        match r with
        | [] => syntaxError
        | e :: r' =>
          if e =? 117 then
            match hex4 r' with
            | Some x => '(cs, rest) ← parseChars 5 r; Normal (x :: cs, rest)
            | None => syntaxError
            end
          else
            match escapeOf e with
            | Some x => '(cs, rest) ← parseChars 1 r; Normal (x :: cs, rest)
            | None => syntaxError
            end
        end
      else if c <? 32 then syntaxError
      else '(cs, rest) ← parseChars 0 r; Normal (c :: cs, rest)
    end
  end.

Fixpoint digits (acc : Z) (s : jsstring) : Z * jsstring :=
  match s with
  | c :: s' =>
    if isDigit c then digits (acc * 10 + Z.of_N (c - 48)) s' else (acc, s)
  | [] => (acc, [])
  end.

(** A number behind its sign. *)
Definition parseNumber (neg : bool) (s : jsstring) : completion (json * jsstring) :=
  match s with
  | c :: s' =>
    if isDigit c then
      let '(n, r) := if c =? 48 then (0%Z, s') else digits 0 s in
      if startsWith r [46] || startsWith r [101] || startsWith r [69] then Unmodelled
      else if (n >? 9007199254740992)%Z then Unmodelled
      else Normal (JNum (if neg then - n else n)%Z, r)
    else syntaxError
  | [] => syntaxError
  end.

Definition literal (word : string) (v : json) (s : jsstring) : completion (json * jsstring) :=
  match Extractor.dropPrefix (u word) s with
  | Some r => Normal (v, r)
  | None => syntaxError
  end.

Fixpoint parseValue (fuel : nat) (s : jsstring) : completion (json * jsstring) :=
  match fuel with
  | O => Unmodelled
  | S fuel =>
    match skipWs s with
    | [] => syntaxError
    | c :: r =>
      if c =? 110 then literal "null" JNull (c :: r)
      else if c =? 116 then literal "true" (JBool true) (c :: r)
      else if c =? 102 then literal "false" (JBool false) (c :: r)
      else if c =? 34 then '(cs, r') ← parseChars 0 r; Normal (JStr cs, r')
      else if c =? 45 then parseNumber true r
      else if c =? 91 then
        if startsWith (skipWs r) [93] then Normal (JArr [], drop 1 (skipWs r))
        else '(l, r') ← parseElements fuel r; Normal (JArr l, r')
      else if c =? 123 then
        if startsWith (skipWs r) [125] then Normal (JObj [], drop 1 (skipWs r))
        else '(ms, r') ← parseMembers fuel [] r; Normal (JObj ms, r')
      else parseNumber false (c :: r)
    end
  end
with parseElements (fuel : nat) (s : jsstring) : completion (list json * jsstring) :=
  match fuel with
  | O => Unmodelled
  | S fuel =>
    '(v, r) ← parseValue fuel s;
    match skipWs r with
    | [] => syntaxError
    | c :: r' =>
      if c =? 44 then '(l, r'') ← parseElements fuel r'; Normal (v :: l, r'')
      else if c =? 93 then Normal ([v], r')
      else syntaxError
    end
  end
with parseMembers (fuel : nat) (acc : list (jsstring * json)) (s : jsstring)
  : completion (list (jsstring * json) * jsstring) :=
  match fuel with
  | O => Unmodelled
  | S fuel =>
    match skipWs s with
    | [] => syntaxError
    | q :: r =>
      if q =? 34 then
        '(k, r1) ← parseChars 0 r;
        match skipWs r1 with
        | [] => syntaxError
        | c :: r2 =>
          if c =? 58 then
            '(v, r3) ← parseValue fuel r2;
            let acc := assoc_set k v acc in
            match skipWs r3 with
            | [] => syntaxError
            | d :: r4 =>
              if d =? 44 then parseMembers fuel acc r4
              else if d =? 125 then Normal (acc, r4)
              else syntaxError
            end
          else syntaxError
        end
      else syntaxError
    end
  end.

(** Every call of the three functions above that is not the first one
    stands behind a code unit that was consumed, so twice the length of
    the text is fuel enough. *)
Definition parse (text : jsstring) : completion json :=
  '(v, r) ← parseValue (2 * length text + 2) text;
  match skipWs r with
  | [] => Normal v
  | _ => syntaxError
  end.

End JSON.

(* --------------------------------------------------------------------- *)
(** ** The workbook under construction                                    *)
(* --------------------------------------------------------------------- *)

(** ExcelJS is not part of the repository.  A workbook is embedded as the
    sequence of calls the emitter makes on it, in the order it makes them;
    [writeBuffer] serialises what these calls built.  What a call reads
    back ([row.height], [row.number], [ws.lastRow]) is computed from the
    calls made so far. *)
Module Excel.

Abbreviation Buffer := (list N).

(** A value stored in [row.height]: a value of the document, or the NaN
    that [Math.max] can return. *)
Inductive hvalue :=
| HVal (v : jsval)
| HNaN.

Definition hnum (z : Z) : hvalue := HVal (Some (JNum z)).

(** The height an image makes room for, [Math.max(..., 80)]. *)
Definition imageRowHeight : Z := 80.

(** What [images[key]] gives for an image: the bytes the map holds under
    the key, or, for a key the map does not hold, the member of that name
    that the map inherits from [Object.prototype]. *)
Inductive member :=
| Bytes (b : Buffer)
| Inherited (key : jsstring).

Inductive op :=
| AddWorksheet (name : jsstring)
| SetColumns (cols : list (jsval * Z))
| MergeCells (range : jsval)
| SetCellValue (address : jsval) (v : jsval)
| SetCellAlignment (address : jsstring) (horizontal vertical : jsstring)
| SetCellFont (address : jsstring) (size : Z) (bold : bool)
| SetRowCell (row : nat) (col : jsval) (v : jsval)
| SetRowValues (row : nat) (vs : jsval)
| AddRow (row : nat) (vs : list jsval)
| WbAddImage (buffer : member) (extension : jsstring)
| WsAddImage (id : nat) (range : jsstring)
| SetRowHeight (row : nat) (h : hvalue)
| SetRowAlignment (row : nat) (horizontal : jsstring).

Abbreviation workbook := (list op).

(** The heights assigned to row [r], in the order of assignment. *)
Definition heightsOf (r : nat) (calls : workbook) : list hvalue :=
  omap (fun o => match o with
                 | SetRowHeight r' h => if bool_decide (r' = r) then Some h else None
                 | _ => None
                 end) calls.

(** The height row [r] ends with; [None] when none was ever assigned. *)
Definition finalHeight (r : nat) (calls : workbook) : option hvalue :=
  last (heightsOf r calls).

(** [row.height] of row [r]: [undefined] on a row that never had a height
    assigned. *)
Definition rowHeight (r : nat) (calls : workbook) : hvalue :=
  default (HVal None) (finalHeight r calls).

(** The id [wb.addImage] returns: the number of images added before. *)
Definition nextImageId (calls : workbook) : nat :=
  length (List.filter (fun o => match o with WbAddImage _ _ => true | _ => false end) calls).

(** What [wb.addImage] was given, in the order of the ids. *)
Definition media (calls : workbook) : list member :=
  omap (fun o => match o with WbAddImage b _ => Some b | _ => None end) calls.

(** What is anchored on the sheet, and where. *)
Definition anchored (calls : workbook) : list (member * jsstring) :=
  omap (fun o => match o with
                 | WsAddImage id range => (fun b => (b, range)) <$> media calls !! id
                 | _ => None
                 end) calls.

(** The images anchored on the sheet: buffer and range. *)
Definition anchoredImages (calls : workbook) : list (Buffer * jsstring) :=
  omap (fun a => match a with
                 | (Bytes b, range) => Some (b, range)
                 | (Inherited _, _) => None
                 end) (anchored calls).

Definition htruthy (h : hvalue) : bool :=
  match h with HVal v => truthy v | HNaN => false end.

(** [Math.max(h, n)] for a number [n]; an object is NaN unless it holds a
    member [toString], with which ToNumber throws. *)
Definition mathMax (h : hvalue) (n : Z) : completion hvalue :=
  match h with
  | HNaN | HVal None => Normal HNaN
  | HVal (Some (JObj ms)) =>
    match assoc (u "toString") ms with
    | Some _ => Throw JsTypeError
    | None => Normal HNaN
    end
  | HVal (Some JNull) => Normal (hnum (Z.max 0 n))
  | HVal (Some (JBool b)) => Normal (hnum (Z.max (if b then 1 else 0) n))
  | HVal (Some (JNum m)) => Normal (hnum (Z.max m n))
  | HVal (Some (JStr _)) | HVal (Some (JArr _)) => Unmodelled
  end.

(** The range [`B${n}:B${n}`]. *)
Definition cellB (n : nat) : jsstring :=
  u "B" ++ decimal (Z.of_nat n) ++ u ":B" ++ decimal (Z.of_nat n).

Definition rangeOnRow (c1 c2 : string) (n : nat) : jsstring :=
  u c1 ++ decimal (Z.of_nat n) ++ u ":" ++ u c2 ++ decimal (Z.of_nat n).

(** [v.k] where [v] may be [undefined]. *)
Definition getV (v : jsval) (k : jsstring) : completion jsval :=
  match v with
  | None => Throw JsTypeError
  | Some j => get j k
  end.

Definition indexV (v : jsval) (i : nat) : completion jsval :=
  match v with
  | None => Throw JsTypeError
  | Some j => index j i
  end.

(** [s.split(":")] *)
Fixpoint splitColon (cur : jsstring) (s : jsstring) : list jsstring :=
  match s with
  | [] => [rev cur]
  | c :: s' => if c =? 58 then rev cur :: splitColon [] s' else splitColon (c :: cur) s'
  end.

(** [v.split(":")[1]]: only a string has [split]. *)
Definition secondOfRange (v : jsval) : completion jsval :=
  match v with
  | Some (JStr s) => Normal (JStr <$> splitColon [] s !! 1%nat)
  | _ => Throw JsTypeError
  end.

Definition jstr (s : jsstring) : jsval := Some (JStr s).

Definition str (s : string) : jsval := jstr (u s).

End Excel.

Export Excel.

(* --------------------------------------------------------------------- *)
(** ** The document emitters                                              *)
(* --------------------------------------------------------------------- *)

Module Emitters.
Section WithLibrary.

(** Where ExcelJS itself can refuse an argument that comes from the
    document, its answer is a parameter: whether [ws.mergeCells] takes a
    range on the sheet built so far, whether [ws.getCell] takes an
    address, and whether [row.getCell] takes a column. *)
Variable mergeCellsAccepts : workbook -> jsval -> bool.
Variable getCellAccepts : jsval -> bool.
Variable rowGetCellAccepts : jsval -> bool.

(** [wb.xlsx.writeBuffer()], the last statement of both emitters, is the
    library's too: for the workbook the calls built it resolves with the
    bytes ([Normal]), rejects ([Throw]) or does neither ([Unmodelled]: a
    promise that does not settle).  The bytes are represented by the
    calls they serialise. *)
Variable writeBuffer : workbook -> completion unit.

Definition written (calls : workbook) : completion workbook :=
  _ ← writeBuffer calls;
  Normal calls.

(** The names of the members of [Object.prototype] in Node.js. *)
Definition prototypeNames : list jsstring :=
  [u "constructor"; u "hasOwnProperty"; u "isPrototypeOf"; u "propertyIsEnumerable";
   u "toLocaleString"; u "toString"; u "valueOf"; u "__defineGetter__";
   u "__defineSetter__"; u "__lookupGetter__"; u "__lookupSetter__"; u "__proto__"].

(** [images[key]].  The map is the plain object [renderStpFiles] built
    from [{}] by [map[f.name] = ...]: the key is converted to a string, and
    a name the map does not hold itself is looked up in [Object.prototype],
    whose members are functions, or for [__proto__] an object, and so
    truthy.  The assignment [map["__proto__"] = ...] holds nothing in the
    map but replaces its prototype; what such a map inherits is outside
    this embedding. *)
Definition readImage (images : gmap jsstring Buffer) (key : jsval)
  : completion (option member) :=
  k ← toStringV key;
  match images !! u "__proto__" with
  | Some _ => Unmodelled
  | None =>
    match images !! k with
    | Some b => Normal (Some (Bytes b))
    | None =>
      if bool_decide (k ∈ prototypeNames) then Normal (Some (Inherited k))
      else Normal None
    end
  end.

Definition productionHeaders : list string :=
  ["序号"; "产品图片"; "产品编号"; "产品名称"; "规格"; "材料"; "数量"; "加工方式"; "工艺要求"]%string.

(** [case "title_row":] *)
Definition emitTitleRow (calls : workbook) (item : json) : completion workbook :=
  mc ← get item (u "merge_cells");
  if mergeCellsAccepts calls mc then
    let calls := calls ++ [MergeCells mc] in
    addr ← secondOfRange mc;
    if getCellAccepts addr then
      text ← get item (u "text");
      Normal (calls ++ [SetCellValue addr text])
    else Throw JsLibraryError
  else Throw JsLibraryError.

(** [case "header_detail_row":] the callback of [item.cells.forEach]. *)
Fixpoint emitCells (calls : workbook) (r : nat) (cells : list json) : completion workbook :=
  match cells with
  | [] => Normal calls
  | c :: cells' =>
    col ← get c (u "col_letter");
    if rowGetCellAccepts col then
      v ← get c (u "value");
      emitCells (calls ++ [SetRowCell r col v]) r cells'
    else Throw JsLibraryError
  end.

Definition emitHeaderDetailRow (calls : workbook) (r : nat) (item : json)
  : completion workbook :=
  cells ← get item (u "cells");
  match cells with
  | Some (JArr cs) => emitCells calls r cs
  | _ => Throw JsTypeError
  end.

(** [case "main_table_header_row": case "main_table_data_row":] *)
Definition emitTableRow (images : gmap jsstring Buffer) (calls : workbook)
    (r : nat) (ty : jsval) (item : json) : completion workbook :=
  headers ← get item (u "headers");
  data ← get item (u "data");
  let calls := calls ++ [SetRowValues r (or_else headers data)] in
  if strict_eq_str ty (u "main_table_data_row") then
    key ← indexV data 1;
    if truthy key then
      img ← readImage images key;
      match img with
      | Some img =>
        let id := nextImageId calls in
        let calls := calls ++ [WbAddImage img (u "png"); WsAddImage id (cellB r)] in
        let h := rowHeight r calls in
        h' ← mathMax (if htruthy h then h else hnum 18) 80;
        Normal (calls ++ [SetRowHeight r h'])
      | None => Normal calls
      end
    else Normal calls
  else Normal calls.

(** The body of [for (const item of layout)], on row [r]. *)
Definition emitItem (images : gmap jsstring Buffer) (calls : workbook)
    (r : nat) (item : json) : completion workbook :=
  ty ← get item (u "type");
  calls ←
    (if strict_eq_str ty (u "title_row") then emitTitleRow calls item
     else if strict_eq_str ty (u "header_detail_row") then emitHeaderDetailRow calls r item
     else if strict_eq_str ty (u "main_table_header_row")
             || strict_eq_str ty (u "main_table_data_row")
     then emitTableRow images calls r ty item
     else Normal calls);
  h ← get item (u "height");
  Normal (calls ++ [SetRowHeight r (HVal h)]).

Fixpoint emitItems (images : gmap jsstring Buffer) (calls : workbook)
    (r : nat) (layout : list json) : completion workbook :=
  match layout with
  | [] => Normal calls
  | item :: layout' =>
    calls ← emitItem images calls r item;
    emitItems images calls (S r) layout'
  end.

(** The sheet before the loop: [wb.addWorksheet] and [ws.columns = ...]. *)
Definition productionSheet : workbook :=
  [AddWorksheet (u "生产单");
   SetColumns (List.map (fun h => (str h, 15%Z)) productionHeaders)].

Definition buildProductionOrder (layout : list json) (images : gmap jsstring Buffer)
  : completion workbook :=
  calls ← emitItems images productionSheet 1 layout;
  written calls.

(** *** [buildQuotation] *)

(** The rows of the company block: [ws.addRow], two merges, a height. *)
Fixpoint addInfoRows (calls : workbook) (last : nat) (rows : list (list jsval))
  : workbook * nat :=
  match rows with
  | [] => (calls, last)
  | vs :: rows' =>
    let n := S last in
    addInfoRows
      (calls ++ [AddRow n vs;
                 MergeCells (jstr (rangeOnRow "A" "D" n));
                 MergeCells (jstr (rangeOnRow "E" "I" n));
                 SetRowHeight n (hnum 18)])
      n rows'
  end.

(** The callback of [q.products.forEach].  In ExcelJS the lower right
    anchor of an image reads the height of the row below the range
    ([getRow], which creates the row): behind [ws.addImage] for the range
    [Bn:Bn] the sheet has a row [n + 1], and the next [ws.addRow] appends
    row [n + 2]. *)
Definition emitProduct (images : gmap jsstring Buffer) (calls : workbook)
    (last : nat) (product : json) : completion (workbook * nat) :=
  seq ← get product (u "序号");
  img ← get product (u "零件图片");
  nm ← get product (u "零件名");
  surface ← get product (u "表面");
  material ← get product (u "材质");
  quantity ← get product (u "数量");
  note ← get product (u "备注");
  let n := S last in
  let calls :=
    calls ++ [AddRow n [seq; img; nm; surface; material; quantity;
                        str ""; str ""; note]] in
  let key := or_else img nm in
  found ← readImage images key;
  match found with
  | Some buf =>
    let id := nextImageId calls in
    let calls := calls ++ [WbAddImage buf (u "png"); WsAddImage id (cellB n)] in
    h ← mathMax (rowHeight n calls) 80;
    Normal (calls ++ [SetRowHeight n h], S n)
  | None => Normal (calls ++ [SetRowHeight n (hnum 18)], n)
  end.

Fixpoint emitProducts (images : gmap jsstring Buffer) (calls : workbook)
    (last : nat) (products : list json) : completion (workbook * nat) :=
  match products with
  | [] => Normal (calls, last)
  | p :: products' =>
    '(calls, last) ← emitProduct images calls last p;
    emitProducts images calls last products'
  end.

(** The closing information lines: [ws.addRow([s])], a merge, a height. *)
Fixpoint addInfoLines (calls : workbook) (last : nat) (lines : list jsval)
  : workbook * nat :=
  match lines with
  | [] => (calls, last)
  | s :: lines' =>
    let n := S last in
    addInfoLines
      (calls ++ [AddRow n [s];
                 MergeCells (jstr (rangeOnRow "A" "I" n));
                 SetRowHeight n (hnum 18)])
      n lines'
  end.

Definition quotationHeaders : list string :=
  ["序号"; "零件图片"; "零件名"; "表面"; "材质"; "数量"; "单价"; "合计"; "备注"]%string.

Definition quotationWidths : list Z := [6; 20; 20; 16; 14; 8; 12; 12; 18]%Z.

Definition buildQuotation (q : json) (images : gmap jsstring Buffer)
  : completion workbook :=
  (* Main Title: the merge creates row 1 *)
  number ← get q (u "quote_number");
  number ← toStringV number;
  let calls :=
    [AddWorksheet (u "报价单");
     MergeCells (str "A1:I1");
     SetCellValue (str "A1") (jstr (u "手板报价 编号: " ++ number));
     SetCellAlignment (u "A1") (u "center") (u "middle");
     SetCellFont (u "A1") 16 true;
     SetRowHeight 1 (hnum 28)] in
  (* Company Information *)
  ci ← get q (u "company_info");
  party_a ← getV ci (u "party_a");
  party_a ← toStringV party_a;
  party_b ← getV ci (u "party_b");
  party_b ← toStringV party_b;
  tel_b ← getV ci (u "tel_b");
  tel_b ← toStringV (or_else tel_b (str ""));
  fax_b ← getV ci (u "fax_b");
  fax_b ← toStringV (or_else fax_b (str ""));
  email_b ← getV ci (u "email_b");
  email_b ← toStringV (or_else email_b (str ""));
  address_b ← getV ci (u "address_b");
  address_b ← toStringV (or_else address_b (str ""));
  let line (a b : jsstring) : list jsval := [jstr a; str ""; str ""; str ""; jstr b] in
  let infoRows :=
    [line (u "甲方:" ++ party_a) (u "乙方:" ++ party_b);
     line (u "联系人:") (u "联系人:贾芳");
     line (u "TEL:") (u "TEL:" ++ tel_b);
     line (u "FAX:") (u "FAX:" ++ fax_b);
     line (u "E-mail:") (u "E-mail:" ++ email_b);
     line (u "地址:") (u "地址:" ++ address_b)] in
  let '(calls, last) := addInfoRows calls 1 infoRows in
  (* Products Table Header *)
  let headerStartRow := S last in
  let calls :=
    calls ++ [AddRow headerStartRow (List.map str quotationHeaders);
              SetRowHeight headerStartRow (hnum 22)] in
  (* Products Data Rows *)
  products ← get q (u "products");
  match products with
  | Some (JArr ps) =>
    '(calls, last) ← emitProducts images calls headerStartRow ps;
    (* Total Row *)
    let total := S last in
    let calls :=
      calls ++ [AddRow total [str "计:"; str ""; str ""; str ""; str ""; str ""; str ""];
                MergeCells (jstr (rangeOnRow "A" "F" total));
                MergeCells (jstr (rangeOnRow "G" "H" total));
                SetRowAlignment total (u "right");
                SetRowHeight total (hnum 18)] in
    (* Additional Information *)
    payment_terms ← get q (u "payment_terms");
    payment_terms ← toStringV (or_else payment_terms (str "月结30天"));
    acceptance_standard ← get q (u "acceptance_standard");
    acceptance_standard ← toStringV acceptance_standard;
    notice ← get q (u "notice");
    let infoLines :=
      [str "未税 总价：(人民币) ";
       str "手板加工周期：";
       jstr (u "付款方式：" ++ payment_terms);
       str "交货日期：";
       jstr (u "验收标准：" ++ acceptance_standard);
       notice] in
    let '(calls, last) := addInfoLines calls total infoLines in
    (* Signature Row *)
    signature_date ← get q (u "signature_date");
    let sig := S last in
    let calls :=
      calls ++ [AddRow sig [str ""; str ""; str ""; str ""; str "";
                            str "乙方签名确认"; str ""; signature_date];
                MergeCells (jstr (rangeOnRow "F" "G" sig));
                MergeCells (jstr (rangeOnRow "H" "I" sig));
                SetRowHeight sig (hnum 20)] in
    (* Column widths *)
    written (calls ++ [SetColumns (List.map (fun w => (None, w)) quotationWidths)])
  | _ => Throw JsTypeError
  end.

End WithLibrary.
End Emitters.

(* --------------------------------------------------------------------- *)
(** ** CAD previews ([renderStpFiles])                                    *)
(* --------------------------------------------------------------------- *)

Module Renderer.

(** What an awaited promise of the outside world settles to. *)
Inductive settled (A : Type) :=
| Resolved (a : A)
| Rejected (e : js_error).
Arguments Resolved {A} a.
Arguments Rejected {A} e.

Definition await {A} (p : settled A) : completion A :=
  match p with
  | Resolved a => Normal a
  | Rejected e => Throw e
  end.

(** A response of the renderer: [res.ok] and [res.arrayBuffer()]. *)
Record response := Response { ok : bool; arrayBuffer : settled Buffer }.

(** An entry of [zip.files]: its name, [dir], and [async("nodebuffer")]. *)
Record zip_entry := ZipEntry { entry : jsstring; dir : bool; nodebuffer : settled Buffer }.

(** The outside world.  The file system, the renderer and JSZip are asked
    once for each file; the position of the file in [files] tells the
    calls apart, so the same file may fare differently at each call. *)
Record world := World {
  readFile : nat -> jsstring -> settled Buffer;
  fetch : nat -> Buffer -> jsstring -> settled response;
  loadAsync : nat -> Buffer -> settled (list zip_entry)
}.

Definition endsWith (s suffix : jsstring) : bool :=
  startsWith (rev s) (rev suffix).

(** [/\.(png|jpe?g)$/i.test(n)] *)
Definition isImageName (n : jsstring) : bool :=
  let l := asciiLowerCase n in
  endsWith l (u ".png") || endsWith l (u ".jpg") || endsWith l (u ".jpeg").

(** [try { ... } catch (e) { console.error(...) }] around a body whose
    result the handler replaces by [fallback]. *)
Definition tryCatch {A} (body : completion A) (fallback : A) : completion A :=
  match body with
  | Throw _ => Normal fallback
  | c => c
  end.

(** The body of the [try] for the file at position [i]: the map after it. *)
Definition renderOne (w : world) (i : nat) (f : stp_file)
    (map : gmap jsstring Buffer) : completion (gmap jsstring Buffer) :=
  buf ← await (readFile w i (path f));
  res ← await (fetch w i buf (name f));
  if negb (ok res) then Normal map
  else
    zipBuf ← await (arrayBuffer res);
    zip ← await (loadAsync w i zipBuf);
    match List.find (fun e => negb (dir e) && isImageName (entry e)) zip with
    | Some e =>
      img ← await (nodebuffer e);
      Normal (<[name f := img]> map)
    | None => Normal map
    end.

Fixpoint renderFrom (w : world) (i : nat) (files : list stp_file)
    (map : gmap jsstring Buffer) : completion (gmap jsstring Buffer) :=
  match files with
  | [] => Normal map
  | f :: files' =>
    map ← tryCatch (renderOne w i f map) map;
    renderFrom w (S i) files' map
  end.

(** [PYTHON_RENDERER_URL] is [None] when the variable is unset or empty. *)
Definition renderStpFiles (PYTHON_RENDERER_URL : option jsstring) (w : world)
    (files : list stp_file) : completion (gmap jsstring Buffer) :=
  match PYTHON_RENDERER_URL with
  | None => Normal ∅
  | Some _ => renderFrom w 0 files ∅
  end.

End Renderer.

(* --------------------------------------------------------------------- *)
(** ** The tabular normalizer ([parseExcelToText])                        *)
(* --------------------------------------------------------------------- *)

Module Normalizer.

(** [cell.value] as the scan tells the cases apart.  [CPrimitive] is a
    number or a boolean and carries [String(value)]; [CResult] carries
    [String(value.result)]; [COther] is an object with none of the four
    properties and carries [JSON.stringify(value)].  The label of a
    hyperlink is taken to be a string. *)
Inductive cell_value :=
| CNull
| CString (s : jsstring)
| CPrimitive (shown : jsstring)
| CText (text : jsstring)
| CResult (shown : jsstring)
| CRichText (runs : list jsstring)
| CFormula (formula : jsstring)
| COther (stringified : jsstring).

(** A worksheet as the scan sees it: [getRow(r).getCell(c).value] for
    every row and column, the name, and [model.merges]. *)
Record worksheet := Worksheet {
  sheetName : jsstring;
  cellValue : nat -> nat -> cell_value;
  merges : list jsstring
}.

Definition maxRow : nat := 200.
Definition maxCol : nat := 50.

(** [cell.value !== null && cell.value !== undefined && cell.value !== ''] *)
Definition hasValue (v : cell_value) : bool :=
  match v with
  | CNull | CString [] => false
  | _ => true
  end.

(** The text the scan derives from a cell that has a value. *)
Definition shownText (v : cell_value) : jsstring :=
  match v with
  | CNull => []
  | CString s => s
  | CPrimitive shown => shown
  | CText text => text
  | CResult shown => shown
  | CRichText runs => join [] runs
  | CFormula formula => u "FORMULA: " ++ formula
  | COther stringified => stringified
  end.

(** [cell.address] for the columns of the window. *)
Definition columnLetters (c : nat) : jsstring :=
  if bool_decide (c <= 26)%nat then [N.of_nat (64 + c)]
  else [N.of_nat (64 + (c - 1) / 26); N.of_nat (65 + (c - 1) mod 26)].

Definition address (r c : nat) : jsstring :=
  columnLetters c ++ decimal (Z.of_nat r).

(** The cells of row [r] that the scan writes out: column and trimmed
    text, for the columns 1 to [maxCol] in order. *)
Definition rowCells (ws : worksheet) (r : nat) : list (nat * jsstring) :=
  omap (fun c =>
          let v := cellValue ws r c in
          if hasValue v then
            match trim (shownText v) with
            | [] => None
            | t => Some (c, t)
            end
          else None)
       (seq 1 maxCol).

(** The inner look-ahead loop: [hasDataInCheckRow]. *)
Definition hasDataInCheckRow (ws : worksheet) (checkRow : nat) : bool :=
  existsb (fun c => hasValue (cellValue ws checkRow c)) (seq 1 maxCol).

(** [emptyRowCount] after the look-ahead behind row [rowNum]: the rows
    [rowNum + 1] to [rowNum + 10], not past [maxRow], up to the first one
    that has data. *)
Fixpoint countEmpty (ws : worksheet) (rows : list nat) : nat :=
  match rows with
  | [] => 0
  | r :: rows' => if hasDataInCheckRow ws r then 0 else S (countEmpty ws rows')
  end%nat.

Definition emptyRowCount (ws : worksheet) (rowNum : nat) : nat :=
  countEmpty ws (List.filter (fun r => bool_decide (r <= maxRow)%nat) (seq (S rowNum) 10)).

(** The loop over the rows, [todo] rows from [rowNum] on: the rows
    written out, and [hasAnyData]. *)
Fixpoint scanRows (ws : worksheet) (todo rowNum : nat) (hasAnyData : bool)
  : list (nat * list (nat * jsstring)) * bool :=
  match todo with
  | O => ([], hasAnyData)
  | S todo' =>
    let cells := rowCells ws rowNum in
    let hasRowData := match cells with [] => false | _ => true end in
    let hasAnyData := hasAnyData || hasRowData in
    let emit rest := if hasRowData then (rowNum, cells) :: rest else rest in
    if hasAnyData && negb hasRowData && bool_decide (10 <= emptyRowCount ws rowNum)%nat
    then (emit [], hasAnyData)
    else
      let '(rest, any) := scanRows ws todo' (S rowNum) hasAnyData in
      (emit rest, any)
  end.

Definition scanSheet (ws : worksheet) : list (nat * list (nat * jsstring)) * bool :=
  scanRows ws maxRow 1 false.

Definition quote : jsstring := [34].

(** [`[${cellAddress}: "${cellValue.trim()}"] `] *)
Definition cellText (r : nat) (cell : nat * jsstring) : jsstring :=
  u "[" ++ address r (fst cell) ++ u ": " ++ quote ++ snd cell ++ quote ++ u "] ".

Definition rowText (line : nat * list (nat * jsstring)) : jsstring :=
  u "Row " ++ decimal (Z.of_nat (fst line)) ++ u ": "
  ++ concat (List.map (cellText (fst line)) (snd line)) ++ [10].

Definition sheetText (ws : worksheet) : jsstring :=
  let '(lines, hasAnyData) := scanSheet ws in
  u "SHEET: " ++ sheetName ws ++ [10]
  ++ u "=" ++ concat (replicate (length (sheetName ws) + 6) (u "=")) ++ [10; 10]
  ++ concat (List.map rowText lines)
  ++ (if hasAnyData then []
      else u "No data found in sheet (scanned up to row " ++ decimal (Z.of_nat maxRow)
           ++ u ", col " ++ decimal (Z.of_nat maxCol) ++ u ")" ++ [10; 10])
  ++ (match merges ws with
      | [] => []
      | ms => [10] ++ u "Merged Cells:" ++ [10]
              ++ concat (List.map (fun m => u "  " ++ m ++ [10]) ms)
      end)
  ++ [10] ++ concat (replicate 50 (u "-")) ++ [10; 10].

Definition parseExcelToText (workbook : list worksheet) : jsstring :=
  u "=== EXCEL FILE CONTENT ===" ++ [10; 10] ++ concat (List.map sheetText workbook).

End Normalizer.

(* --------------------------------------------------------------------- *)
(** ** The request handler ([POST]), from the parsed workbook on          *)
(* --------------------------------------------------------------------- *)

Module Handler.
Import Renderer.

(** What [POST] answers from its [try] block: the body of the success
    response, or status 500 with the message of the error caught. *)
Inductive response :=
| Success (productionOrder quotation : workbook) (parsedExcelText rawOutput : jsstring)
| Failure (status : Z) (error : js_error).

Section WithEnvironment.

Variable toLowerCase : jsstring -> jsstring.
Variable mergeCellsAccepts : workbook -> jsval -> bool.
Variable getCellAccepts : jsval -> bool.
Variable rowGetCellAccepts : jsval -> bool.
Variable writeBuffer : workbook -> completion unit.
Variable PYTHON_RENDERER_URL : option jsstring.
Variable w : world.

(** [for (const item of layout)] needs an iterable: the items of an
    array; a string would give its characters. *)
Definition iterate (v : json) : completion (list json) :=
  match v with
  | JArr l => Normal l
  | JStr _ => Unmodelled
  | _ => Throw JsTypeError
  end.

(** The statements of the [try] block behind [callGemini]. *)
Definition process (rawOutput : jsstring) (stpInfo : list stp_file)
  : completion (workbook * workbook) :=
  '(arrJS, objJS) ← Extractor.extractStructures rawOutput;
  layout ← JSON.parse arrJS;
  quotation ← JSON.parse objJS;
  let stpNames := Reconciler.stpNames toLowerCase stpInfo in
  items ← iterate layout;
  items ← Reconciler.attachLayout toLowerCase stpNames items;
  quotation ← Reconciler.attachQuotation toLowerCase stpNames quotation;
  imageMap ← renderStpFiles PYTHON_RENDERER_URL w stpInfo;
  prodBuf ← Emitters.buildProductionOrder mergeCellsAccepts getCellAccepts
              rowGetCellAccepts writeBuffer items imageMap;
  quoteBuf ← Emitters.buildQuotation writeBuffer quotation imageMap;
  Normal (prodBuf, quoteBuf).

(** [try { ... return NextResponse.json({...}) }
     catch (e) { return NextResponse.json({ error: ... }, { status: 500 }) }],
    for the transcript [excelText] and the settled call of the model. *)
Definition POST (excelText : jsstring) (gemini : settled jsstring)
    (stpInfo : list stp_file) : completion response :=
  match (rawOutput ← await gemini;
         '(prodBuf, quoteBuf) ← process rawOutput stpInfo;
         Normal (Success prodBuf quoteBuf excelText rawOutput)) with
  | Normal r => Normal r
  | Throw e => Normal (Failure 500 e)
  | Unmodelled => Unmodelled
  end.

End WithEnvironment.


End Handler.

(* --------------------------------------------------------------------- *)
(** ** The vocabulary of the design document                              *)
(* --------------------------------------------------------------------- *)

(** [n] is the first of [names], in their order, that has [key] as a
    prefix. *)
Definition firstStartingWith (names : list jsstring) (key n : jsstring) : Prop :=
  ∃ before after,
    names = before ++ n :: after ∧ (∃ t, n = key ++ t)
    ∧ ∀ m, m ∈ before → ¬ ∃ t, m = key ++ t.

Definition noneStartsWith (names : list jsstring) (key : jsstring) : Prop :=
  ∀ m, m ∈ names → ¬ ∃ t, m = key ++ t.

(** A layout item the first loop of [POST] gets through: an object that
    is no data row, or a data row whose [data] is an array in which the
    part number (index 2), when there is one, has a string conversion.  A
    product line the second loop gets through: an object whose 零件名, when
    there is one, has a string conversion. *)
Definition keyedItem (item : json) : Prop :=
  ∃ ms, item = JObj ms
        ∧ (assoc (u "type") ms = Some (JStr (u "main_table_data_row")) →
           ∃ l, assoc (u "data") ms = Some (JArr l)
                ∧ ∀ v, l !! 2%nat = Some v → ∃ s, toString v = Normal s).

Definition keyedProduct (p : json) : Prop :=
  ∃ ms, p = JObj ms ∧ ∀ v, assoc (u "零件名") ms = Some v → ∃ s, toString v = Normal s.

(** The part of a quotation record that is left when the unit price and
    the line total of every product, the contact, telephone, fax, e-mail
    and address of party A, and the contact of party B are taken out.  Two
    records differ only in those values when this part is the same. *)
Definition priceKeys : list jsstring := [u "单价"; u "合计"].

Definition contactKeys : list jsstring :=
  [u "contact_a"; u "tel_a"; u "fax_a"; u "email_a"; u "address_a"; u "contact_b"].

Definition withoutKeys (ks : list jsstring) (v : json) : json :=
  match v with
  | JObj ms => JObj (List.filter (fun m => negb (existsb (str_eqb (fst m)) ks)) ms)
  | _ => v
  end.

Definition publicProducts (v : json) : json :=
  match v with
  | JArr ps => JArr (List.map (withoutKeys priceKeys) ps)
  | _ => v
  end.

Definition publicValue (k : jsstring) (v : json) : json :=
  if str_eqb k (u "company_info") then withoutKeys contactKeys v
  else if str_eqb k (u "products") then publicProducts v
  else v.

Definition publicPart (q : json) : json :=
  match q with
  | JObj ms => JObj (List.map (fun m => (fst m, publicValue (fst m) (snd m))) ms)
  | _ => q
  end.

(** [p] stands somewhere in [s]. *)
Definition occursIn (p s : jsstring) : Prop := ∃ pre post, s = pre ++ p ++ post.

Definition spaces (w : jsstring) : Prop := Forall (fun c => is_space c = true) w.

(** A comma that only white space separates from a closing bracket or
    brace. *)
Definition hasTrailingComma (s : jsstring) : Prop :=
  ∃ pre w c post, s = pre ++ [44] ++ w ++ c :: post ∧ spaces w ∧ Extractor.isCloser c = true.

(** Neither the first nor the last code unit is white space. *)
Definition trimmed (s : jsstring) : Prop :=
  (∀ c, head s = Some c → is_space c = false)
  ∧ (∀ c, last s = Some c → is_space c = false).

(** [g] is a literal [open ... close] that the text assigns to the
    constant [nm]: [const nm = open ... close;] with white space at will
    around the name and the equals sign. *)
Definition literalOf (nm : jsstring) (open close : N) (txt g : jsstring) : Prop :=
  ∃ pre w1 w2 w3 body post,
    txt = pre ++ u "const" ++ w1 ++ nm ++ w2 ++ [61] ++ w3 ++ [open]
              ++ body ++ [close; 59] ++ post
    ∧ w1 ≠ [] ∧ spaces w1 ∧ spaces w2 ∧ spaces w3
    ∧ g = open :: body ++ [close].

Definition containsLiteral (nm : jsstring) (open close : N) (txt : jsstring) : Prop :=
  ∃ g, literalOf nm open close txt g.

(** A test for [hasTrailingComma] on a given text. *)
Fixpoint hasTrailingCommab (s : jsstring) : bool :=
  match s with
  | [] => false
  | c :: s' =>
    ((c =? 44) && bool_decide (is_Some (Extractor.trailingComma s'))) || hasTrailingCommab s'
  end.

(** Two sheets that agree inside the window of the scan, and two sheets
    that moreover have the same name and the same merged ranges. *)
Definition agree (ws ws' : Normalizer.worksheet) : Prop :=
  ∀ r c, (1 ≤ r ≤ Normalizer.maxRow)%nat → (1 ≤ c ≤ Normalizer.maxCol)%nat →
         Normalizer.cellValue ws' r c = Normalizer.cellValue ws r c.

Definition sameWindow (ws ws' : Normalizer.worksheet) : Prop :=
  Normalizer.sheetName ws' = Normalizer.sheetName ws
  ∧ Normalizer.merges ws' = Normalizer.merges ws
  ∧ agree ws ws'.

(** One of the ten rows behind row [r] holds a value inside the window. *)
Definition valueWithinTen (ws : Normalizer.worksheet) (r : nat) : Prop :=
  ∃ k c, (1 ≤ k ≤ 10)%nat ∧ (1 ≤ c ≤ Normalizer.maxCol)%nat
         ∧ (r + k ≤ Normalizer.maxRow)%nat
         ∧ Normalizer.hasValue (Normalizer.cellValue ws (r + k) c) = true.

(** What the file at position [i] adds to the map: the image of its
    archive, or nothing. *)
Definition contribution (w : Renderer.world) (i : nat) (f : stp_file) : option Buffer :=
  match Renderer.renderOne w i f ∅ with
  | Normal m => m !! name f
  | _ => None
  end.

(** The outside world answers the calls made for position [j] alike. *)
Definition sameAnswers (w w' : Renderer.world) (j : nat) : Prop :=
  Renderer.readFile w j = Renderer.readFile w' j
  ∧ Renderer.fetch w j = Renderer.fetch w' j
  ∧ Renderer.loadAsync w j = Renderer.loadAsync w' j.

(* --------------------------------------------------------------------- *)
(** ** Sample documents                                                   *)
(* --------------------------------------------------------------------- *)

Module Samples.

Definition dataRow (data : list json) (height : Z) : json :=
  JObj [(u "type", JStr (u "main_table_data_row"));
        (u "data", JArr data);
        (u "height", JNum height)].

(** A row of nine values as the prompt lays it out, with part number [pn]
    and image slot [slot]. *)
Definition partRow (slot pn : string) : json :=
  dataRow [JNum 1; JStr (u slot); JStr (u pn); JStr (u "bracket"); JStr (u "");
           JStr (u "6061"); JStr (u "20"); JStr (u ""); JStr (u "anodise")] 22.

Definition product (slot nm : string) : json :=
  JObj [(u "序号", JNum 1); (u "零件图片", JStr (u slot)); (u "零件名", JStr (u nm));
        (u "表面", JStr (u "")); (u "材质", JStr (u "6061")); (u "数量", JStr (u "20"));
        (u "单价", JStr (u "")); (u "合计", JStr (u "")); (u "备注", JStr (u ""))].

(** An ExcelJS that takes every range, address and column, and writes
    every workbook. *)
Definition anyRange (_ : workbook) (_ : jsval) : bool := true.
Definition anyCell (_ : jsval) : bool := true.
Definition anyWorkbook (_ : workbook) : completion unit := Normal ().

Definition upload (nm : string) : stp_file :=
  StpFile (u "/tmp/nextjs-xlsx-uploads/1-abc/" ++ u nm) (u nm).

(** A world in which the file named [good] renders to the image [img]
    and every other file is answered with status 500. *)
Definition oneGoodFile (good : jsstring) (img : Buffer) : Renderer.world :=
  Renderer.World
    (fun _ _ => Renderer.Resolved [83; 84; 80])
    (fun _ _ nm =>
       Renderer.Resolved
         (Renderer.Response (str_eqb nm good) (Renderer.Resolved [80; 75])))
    (fun _ _ =>
       Renderer.Resolved
         [Renderer.ZipEntry (u "previews/") true (Renderer.Rejected JsTypeError);
          Renderer.ZipEntry (u "previews/iso.PNG") false (Renderer.Resolved img)]).

(** A literal in double quotes. *)
Definition quoted (s : string) : jsstring := [34] ++ u s ++ [34].

(** Well-formed JSON: an array of one string with a semicolon in it, and
    an array of one string with two slashes in it. *)
Definition treatmentLiteral : jsstring := u "[" ++ quoted "喷砂;氧化" ++ u "]".
Definition linkLiteral : jsstring := u "[" ++ quoted "http://a/b.stp" ++ u "]".

(** An answer of the model with both structures, in the single quotes of
    the prompt, between fences. *)
Definition answer : jsstring :=
  u "Here you are:
```javascript
const excelLayoutData = [
    {'type': 'main_table_data_row', 'data': [1, '', 'P100'], 'height': 22}, // one part
];

const quotationData = {
    'quote_number': 'Q-7',
    'company_info': {'party_a': 'A', 'party_b': 'B'},
    'products': [{'序号': 1, '零件图片': '[图片]', '零件名': 'P100'}],
};
```".

(** A sheet with a part number in A1 and another in column A of row
    [next], and nothing else. *)
Definition twoRows (next : nat) : Normalizer.worksheet :=
  Normalizer.Worksheet (u "Sheet1")
    (fun r c =>
       if bool_decide (r = 1 ∧ c = 1)%nat then Normalizer.CString (u "BRK-01")
       else if bool_decide (r = next ∧ c = 1)%nat then Normalizer.CString (u "BRK-02")
       else Normalizer.CNull)
    [].


End Samples.

(* --------------------------------------------------------------------- *)
(** ** The calls of a workbook, by kind                                   *)
(* --------------------------------------------------------------------- *)

(** The assignments to [row.height] in the order they are made: row and
    value. *)
Definition heightCalls (calls : workbook) : list (nat * hvalue) :=
  omap (fun o => match o with SetRowHeight r h => Some (r, h) | _ => None end) calls.

(** The rows [ws.addRow] appended, in order: number and values. *)
Definition addedRows (calls : workbook) : list (nat * list jsval) :=
  omap (fun o => match o with AddRow r vs => Some (r, vs) | _ => None end) calls.

(** A call that adds or anchors no image. *)
Definition noImage (o : op) : bool :=
  match o with
  | WbAddImage _ _ | WsAddImage _ _ => false
  | _ => true
  end.

(** What [calls] anchors when the ids are looked up in [bufs]. *)
Definition anchoredIn (bufs : list member) (calls : workbook) : list (member * jsstring) :=
  omap (fun o => match o with
                 | WsAddImage id range => (fun b => (b, range)) <$> bufs !! id
                 | _ => None
                 end) calls.

(** Every image anchored so far was added before it was anchored: the
    images added later change none of them. *)
Definition linked (calls : workbook) : Prop :=
  ∀ more, anchoredIn (media calls ++ more) calls = anchored calls.

(** No row behind [last] has had a height assigned. *)
Definition fresh (last : nat) (calls : workbook) : Prop :=
  ∀ r, (last < r)%nat → heightsOf r calls = [].

(** What [images[key]] gives where the lookup is within the embedding. *)
Definition imageOf (images : gmap jsstring Buffer) (key : jsval) : option member :=
  match Emitters.readImage images key with
  | Normal found => found
  | _ => None
  end.

(** The image slot [key] of a data row names no image: it is falsy, or
    [images[key]] gives nothing. *)
Definition namesNoImage (images : gmap jsstring Buffer) (key : jsval) : Prop :=
  truthy key = false ∨ Emitters.readImage images key = Normal None.

(** The image of a data row of the production order: what the map gives
    for the image slot (data index 1), when the slot is truthy. *)
Definition dataRowImage (images : gmap jsstring Buffer) (item : json) : option member :=
  match get item (u "type"), get item (u "data") with
  | Normal ty, Normal data =>
    if strict_eq_str ty (u "main_table_data_row") then
      match indexV data 1 with
      | Normal key => if truthy key then imageOf images key else None
      | _ => None
      end
    else None
  | _, _ => None
  end.

(** [p[k]] of a product line that is not [null]. *)
Definition field (p : json) (k : string) : jsval :=
  match get p (u k) with
  | Normal v => v
  | _ => None
  end.

(** The image of a product line of the quotation: what the map gives for
    [product["零件图片"] || product["零件名"]]. *)
Definition productImage (images : gmap jsstring Buffer) (p : json) : option member :=
  imageOf images (or_else (field p "零件图片") (field p "零件名")).

(** The nine values of the row of a product line. *)
Definition productValues (p : json) : list jsval :=
  [field p "序号"; field p "零件图片"; field p "零件名"; field p "表面"; field p "材质";
   field p "数量"; str ""; str ""; field p "备注"].

(** The height the row of a product line ends with:
    [Math.max(row.height, 80)] on a row that has no height yet, or 18. *)
Definition productHeight (images : gmap jsstring Buffer) (p : json) : hvalue :=
  match productImage images p with
  | Some _ => HNaN
  | None => hnum 18
  end.

(** [(img, `B${r}:B${r}`)] for each of [items] that has an image, the
    first of them on row [r] and each on the row behind the one before. *)
Fixpoint imagesFrom (image : json → option member) (r : nat) (items : list json)
  : list (member * jsstring) :=
  match items with
  | [] => []
  | item :: items' =>
    match image item with
    | Some b => (b, cellB r) :: imagesFrom image (S r) items'
    | None => imagesFrom image (S r) items'
    end
  end.

(** The row behind the row [n] of a product line: an image takes the row
    below its own. *)
Definition rowBehind (images : gmap jsstring Buffer) (n : nat) (p : json) : nat :=
  match productImage images p with
  | Some _ => S (S n)
  | None => S n
  end.

(** The rows of the product lines [ps], the first of them on row [n], and
    the first row behind them. *)
Fixpoint productRows (images : gmap jsstring Buffer) (n : nat) (ps : list json) : list nat :=
  match ps with
  | [] => []
  | p :: ps' => n :: productRows images (rowBehind images n p) ps'
  end.

Fixpoint rowBehindAll (images : gmap jsstring Buffer) (n : nat) (ps : list json) : nat :=
  match ps with
  | [] => n
  | p :: ps' => rowBehindAll images (rowBehind images n p) ps'
  end.

(** The product lines that have an image. *)
Definition withImage (images : gmap jsstring Buffer) (ps : list json) : list json :=
  List.filter (fun p => bool_decide (is_Some (productImage images p))) ps.

(** [(img, `B${r}:B${r}`)] for each product line that has an image, on
    the row of the line. *)
Fixpoint productImages (images : gmap jsstring Buffer) (n : nat) (ps : list json)
  : list (member * jsstring) :=
  match ps with
  | [] => []
  | p :: ps' =>
    match productImage images p with
    | Some b => (b, cellB n) :: productImages images (rowBehind images n p) ps'
    | None => productImages images (rowBehind images n p) ps'
    end
  end.

(** The calls a product line makes on the row [n], with [id] the next
    image id, and the calls of a list of product lines. *)
Definition productCalls (images : gmap jsstring Buffer) (id n : nat) (p : json) : workbook :=
  AddRow n (productValues p)
  :: match productImage images p with
     | Some b => [WbAddImage b (u "png"); WsAddImage id (cellB n); SetRowHeight n HNaN]
     | None => [SetRowHeight n (hnum 18)]
     end.

Fixpoint productsCalls (images : gmap jsstring Buffer) (id n : nat) (ps : list json)
  : workbook :=
  match ps with
  | [] => []
  | p :: ps' =>
    productCalls images id n p
    ++ productsCalls images
         (match productImage images p with Some _ => S id | None => id end)
         (rowBehind images n p) ps'
  end.

(* --------------------------------------------------------------------- *)
(** ** The route [POST], from the request on, and [callGemini]            *)
(* --------------------------------------------------------------------- *)

Module Route.
Import Renderer.

(** A [File] of the form data: [name] and the bytes of [arrayBuffer()]. *)
Record upload := Upload { fileName : jsstring; content : Buffer }.

(** A value of the form data: a [File], or the string of a text field,
    of which [.name] is [undefined]. *)
Inductive entry :=
| FileEntry (f : upload)
| TextEntry (s : jsstring).

(** The stream [generateContentStream] resolves to: [chunk.text] of the
    chunks it yields, [None] for a chunk without text, and the error the
    iteration ends with when it throws. *)
Record stream := Stream { chunks : list (option jsstring); failure : option js_error }.

(** [let out = ""; for await (const chunk of resp) { if (chunk.text) out += chunk.text; }] *)
Definition collect (cs : list (option jsstring)) : jsstring :=
  fold_left (fun out c => match c with
                          | Some (x :: t) => out ++ x :: t
                          | _ => out
                          end) cs [].

(** [callGemini], for what [generateContentStream] settled to. *)
Definition callGemini (resp : settled stream) : settled jsstring :=
  match resp with
  | Rejected e => Rejected e
  | Resolved s =>
    match failure s with
    | Some e => Rejected e
    | None => Resolved (collect (chunks s))
    end
  end.

(** The answer [{ error: msg }] with a status, written as the answer of
    the [catch] block is. *)
Definition answer (status : Z) (msg : string) : Handler.response :=
  Handler.Failure status (JsError (u msg)).

Section WithEnvironment.

Variable toLowerCase : jsstring -> jsstring.
Variable mergeCellsAccepts : workbook -> jsval -> bool.
Variable getCellAccepts : jsval -> bool.
Variable rowGetCellAccepts : jsval -> bool.
Variable writeBuffer : workbook -> completion unit.
Variable PYTHON_RENDERER_URL : option jsstring.
Variable w : world.

(** [GEMINI_API_KEY] is [None] when the variable is unset or empty.
    [join] is [path.join] of three segments and [dirname] is
    [path.dirname]; [PROMPT] is the constant of that name. *)
Variable GEMINI_API_KEY : option jsstring.
Variable UPLOAD_DIR : jsstring.
Variable join : jsstring -> jsstring -> jsstring -> jsstring.
Variable dirname : jsstring -> jsstring.
Variable PROMPT : jsstring.

(** What the platform answers: [fs.mkdir], [req.formData()] with
    [fd.get("file")] and [fd.getAll("stpFiles")], [fs.writeFile],
    [workbook.xlsx.readFile] with the sheets [eachSheet] visits, and
    [ai.models.generateContentStream] for the text of the request. *)
Variable mkdir : jsstring -> settled unit.
Variable formData : settled (option entry * list entry).
Variable writeFile : jsstring -> Buffer -> settled unit.
Variable readWorkbook : jsstring -> settled (list Normalizer.worksheet).
Variable generateContentStream : jsstring -> settled stream.

(** [for (const sf of stpUploads) { ...; stpInfo.push({ path: p, name: sf.name }); }]
    [path.join] throws a [TypeError] for the [undefined] that [sf.name] is
    on a string. *)
Fixpoint saveStp (slug : jsstring) (stpUploads : list entry) (stpInfo : list stp_file)
  : completion (list stp_file) :=
  match stpUploads with
  | [] => Normal stpInfo
  | TextEntry _ :: _ => Throw JsTypeError
  | FileEntry sf :: rest =>
    let p := join UPLOAD_DIR slug (fileName sf) in
    _ ← await (writeFile p (content sf));
    saveStp slug rest (stpInfo ++ [StpFile p (fileName sf)])
  end.

(** [POST], with [slug] the name drawn for the directory of the request. *)
Definition POST (slug : jsstring) : completion Handler.response :=
  _ ← await (mkdir UPLOAD_DIR);
  match GEMINI_API_KEY with
  | None => Normal (answer 500 "Missing server configuration.")
  | Some _ =>
    fd ← await formData;
    match fd.1 with
    | None | Some (TextEntry []) => Normal (answer 400 "Invalid file. Upload '.xlsx'.")
    | Some (TextEntry (_ :: _)) => Throw JsTypeError
    | Some (FileEntry file) =>
      if negb (endsWith (fileName file) (u ".xlsx"))
      then Normal (answer 400 "Invalid file. Upload '.xlsx'.")
      else
        let upPath := join UPLOAD_DIR slug (fileName file) in
        _ ← await (mkdir (dirname upPath));
        _ ← await (writeFile upPath (content file));
        stpInfo ← saveStp slug fd.2 [];
        match readWorkbook upPath with
        | Rejected e => Normal (Handler.Failure 500 e)
        | Resolved workbook =>
          let excelText := Normalizer.parseExcelToText workbook in
          Handler.POST toLowerCase mergeCellsAccepts getCellAccepts rowGetCellAccepts
            writeBuffer PYTHON_RENDERER_URL w excelText
            (callGemini (generateContentStream (PROMPT ++ excelText))) stpInfo
        end
    end
  end.

End WithEnvironment.
End Route.

(* --------------------------------------------------------------------- *)
(** ** The download name of [src/app/api/render-stp/route.ts]             *)
(* --------------------------------------------------------------------- *)

Module Proxy.

(** [s.split(sep)] for a separator of one code unit; [cur] holds, in
    reverse, what was read since the last separator. *)
Fixpoint split (sep : N) (cur : jsstring) (s : jsstring) : list jsstring :=
  match s with
  | [] => [rev cur]
  | c :: s' => if c =? sep then rev cur :: split sep [] s' else split sep (c :: cur) s'
  end.

(** [file.name.split('.').slice(0, -1).join('.')] *)
Definition originalFileNameNoExt (name : jsstring) : jsstring :=
  join [46] (removelast (split 46 [] name)).

(** [`attachment; filename="${originalFileNameNoExt}_previews.zip"`] *)
Definition defaultDisposition (name : jsstring) : jsstring :=
  u "attachment; filename=" ++ [34] ++ originalFileNameNoExt name ++ u "_previews.zip" ++ [34].

End Proxy.

(* --------------------------------------------------------------------- *)
(** ** The page that calls the route ([FileViewer], [ExcelViewer])        *)
(* --------------------------------------------------------------------- *)

Module Viewer.

(** A [File] of the browser.  JavaScript compares two of them by
    identity; [ident] is that identity. *)
Record file := File {
  ident : nat;
  name : jsstring;
  webkitRelativePath : jsstring;
  bytes : Buffer
}.

Inductive item_type := excel | stp | dwg | powerpoint | other.

#[global] Instance item_type_eq_dec : EqDecision item_type.
Proof. solve_decision. Defined.

Record item := Item { itemFile : file; relativePath : jsstring; type : item_type }.

Section WithLowerCase.
Variable toLowerCase : jsstring -> jsstring.

Definition getUploadedItemType (filename : jsstring) : item_type :=
  let lowerFilename := toLowerCase filename in
  if Renderer.endsWith lowerFilename (u ".xlsx") || Renderer.endsWith lowerFilename (u ".xls")
  then excel
  else if Renderer.endsWith lowerFilename (u ".pptx")
          || Renderer.endsWith lowerFilename (u ".ppt")
  then powerpoint
  else if Renderer.endsWith lowerFilename (u ".stp")
          || Renderer.endsWith lowerFilename (u ".step")
  then stp
  else if Renderer.endsWith lowerFilename (u ".dwg") then dwg
  else other.

(** [processedItems] of [handleFilesSelected]; the [id] of an item, which
    only React reads, is left out. *)
Definition processedItems (files : list file) : list item :=
  List.map (fun f =>
              Item f (match webkitRelativePath f with [] => name f | p => p end)
                   (getUploadedItemType (name f)))
           files.

End WithLowerCase.

(** [item.relativePath && item.relativePath.includes('/')] *)
Definition hasPath (i : item) : bool := bool_decide (47 ∈ relativePath i).

(** [`${items.length} files`] and the like. *)
Definition counted (items : list item) (what : string) : jsstring :=
  decimal (Z.of_nat (length items)) ++ u what.

(** [getUploadDisplayName]; [split] gives at least one part, so that
    [firstPathParts.length > 0] holds. *)
Definition getUploadDisplayName (items : option (list item)) : jsstring :=
  match items with
  | None | Some [] => u "No files"
  | Some ((first :: rest) as items) =>
    let allHavePaths := forallb hasPath items in
    let someHavePaths := existsb hasPath items in
    if allHavePaths then
      match Proxy.split 47 [] (relativePath first) with
      | rootFolder :: _ =>
        if negb (bool_decide (rootFolder = name (itemFile first))) then
          let allShareRoot :=
            forallb (fun i => startsWith (relativePath i) (rootFolder ++ [47])) items in
          if allShareRoot then rootFolder else u "Multiple Top-Level Folders"
        else
          match rest with
          | [] => name (itemFile first)
          | _ => counted items " files (root)"
          end
      | [] =>
        match rest with
        | [] => name (itemFile first)
        | _ => counted items " files (root)"
        end
      end
    else if someHavePaths then u "Mixed Folder & Root Files"
    else
      match rest with
      | [] => name (itemFile first)
      | _ => counted items " files"
      end
  end.

(** The derived file categories. *)
Definition primaryExcelFile (uploadedItems : list item) : option file :=
  itemFile <$> List.find (fun i => bool_decide (type i = excel)) uploadedItems.

Definition allExcelFilesCount (uploadedItems : list item) : nat :=
  length (List.filter (fun i => bool_decide (type i = excel)) uploadedItems).

Definition primaryPowerPointFile (uploadedItems : list item) : option file :=
  itemFile <$> List.find (fun i => bool_decide (type i = powerpoint)) uploadedItems.

Definition stpFileItems (uploadedItems : list item) : list item :=
  List.filter (fun i => bool_decide (type i = stp)) uploadedItems.

(** [item.file !== primary], for [primary] that may be [null]. *)
Definition isNot (primary : option file) (f : file) : bool :=
  match primary with
  | Some p => negb (bool_decide (ident f = ident p))
  | None => true
  end.

Definition filesForGenericList (uploadedItems : list item) : list item :=
  List.filter (fun i =>
                 match type i with
                 | excel => isNot (primaryExcelFile uploadedItems) (itemFile i)
                 | powerpoint => isNot (primaryPowerPointFile uploadedItems) (itemFile i)
                 | stp => false
                 | dwg | other => true
                 end)
              uploadedItems.

(** The notice "Multiple Excel files found" is rendered under
    [!primaryExcelFile && allExcelFilesCount > 0]. *)
Definition multipleExcelNotice (uploadedItems : list item) : bool :=
  negb (bool_decide (is_Some (primaryExcelFile uploadedItems)))
  && bool_decide (0 < allExcelFilesCount uploadedItems)%nat.

(** The form data [runPipeline] of [ExcelViewer] posts for [file] and
    [stpFiles], as the route reads it. *)
Definition sent (f : file) : Route.entry := Route.FileEntry (Route.Upload (name f) (bytes f)).

Definition runPipelineForm (f : file) (stpFiles : list file)
  : option Route.entry * list Route.entry :=
  (Some (sent f), sent <$> stpFiles).

(** The files [FileViewer] hands to [ExcelViewer] as [stpFiles]. *)
Definition stpFiles (uploadedItems : list item) : list file :=
  itemFile <$> stpFileItems uploadedItems.

End Viewer.

(* --------------------------------------------------------------------- *)
(** ** Further sample data                                                *)
(* --------------------------------------------------------------------- *)

Module Examples.

(** A sheet with the text [s] in the cell of row [r] and column [c], and
    nothing else. *)
Definition oneCell (r c : nat) (s : jsstring) : Normalizer.worksheet :=
  Normalizer.Worksheet (u "Sheet1")
    (fun r' c' => if bool_decide (r' = r ∧ c' = c)%nat then Normalizer.CString s
                  else Normalizer.CNull)
    [].

(** A selection of two Excel files, two CAD files and a drawing. *)
Definition selection : list Viewer.file :=
  [Viewer.File 0 (u "a.xlsx") [] []; Viewer.File 1 (u "b.xls") [] [];
   Viewer.File 2 (u "c.stp") [] []; Viewer.File 3 (u "d.STEP") [] [];
   Viewer.File 4 (u "e.dwg") [] []].

End Examples.

(* ===================================================================== *)
(** * Part II.  Properties                                                *)
(* ===================================================================== *)


Arguments u : simpl never.
Arguments decimal : simpl never.

(** ** Strings *)

Lemma str_eqb_refl (a : jsstring) : str_eqb a a = true.
Proof. unfold str_eqb. by rewrite bool_decide_eq_true. Qed.

Lemma str_eqb_eq (a b : jsstring) : str_eqb a b = true ↔ a = b.
Proof. unfold str_eqb. apply bool_decide_eq_true. Qed.

Lemma str_eqb_ne (a b : jsstring) : a ≠ b → str_eqb a b = false.
Proof. unfold str_eqb. apply bool_decide_eq_false. Qed.

Lemma startsWith_nil (s : jsstring) : startsWith s [] = true.
Proof. by destruct s. Qed.

(** [s.startsWith(p)] holds exactly when [p] is a prefix of [s]. *)
Lemma startsWith_spec (s p : jsstring) : startsWith s p = true ↔ ∃ t, s = p ++ t.
Proof.
  revert s. induction p as [|c p IH]; intros s; simpl.
  - rewrite startsWith_nil. split; [intros _; by exists s | done].
  - destruct s as [|d s].
    + split; [done | intros [t Ht]; discriminate].
    + simpl. rewrite andb_true_iff, N.eqb_eq, IH. split.
      * intros [-> [t ->]]. by exists t.
      * intros [t Ht]. injection Ht as -> ->. eauto.
Qed.

(** ** The reconciler *)

Section ReconcilerFacts.
Import Reconciler.
Variable toLowerCase : jsstring -> jsstring.

(** [find] returns the first element that satisfies the test. *)
Lemma findMatch_first (names : list jsstring) (key n : jsstring) :
  findMatch names key = Some n ↔ firstStartingWith names key n.
Proof.
  unfold findMatch, firstStartingWith. induction names as [|m names IH]; simpl.
  - split; [done | intros (b & a & H & _)]. by destruct b.
  - destruct (startsWith m key) eqn:E.
    + split.
      * intros [= ->]. exists [], names. split; [done|]. split.
        -- by apply startsWith_spec.
        -- intros ? H. by apply elem_of_nil in H.
      * intros (b & a & H & Hn & Hb). destruct b as [|m' b]; simplify_eq/=; [done|].
        exfalso. eapply Hb; [apply list_elem_of_here|]. by apply startsWith_spec.
    + rewrite IH. split.
      * intros (b & a & -> & Hn & Hb). exists (m :: b), a. split; [done|].
        split; [done|]. intros m' [->|Hm]%elem_of_cons; [|by apply Hb].
        intros Hp%startsWith_spec. congruence.
      * intros (b & a & H & Hn & Hb). destruct b as [|m' b]; simplify_eq/=.
        -- apply startsWith_spec in Hn. congruence.
        -- exists b, a. split; [done|]. split; [done|].
           intros m'' Hm. apply Hb. by apply list_elem_of_further.
Qed.

Lemma findMatch_none (names : list jsstring) (key : jsstring) :
  findMatch names key = None ↔ noneStartsWith names key.
Proof.
  unfold findMatch, noneStartsWith. induction names as [|m names IH]; simpl.
  - split; [|done]. intros _ m H. by apply elem_of_nil in H.
  - destruct (startsWith m key) eqn:E.
    + split; [done|]. intros H. exfalso. apply (H m); [apply list_elem_of_here|].
      by apply startsWith_spec.
    + rewrite IH. split.
      * intros H m' [->|Hm]%elem_of_cons; [|by apply H].
        intros Hp%startsWith_spec. congruence.
      * intros H m' Hm. apply H. by apply list_elem_of_further.
Qed.

Lemma partKey_truthy (v : json) (s : jsstring) :
  truthy (Some v) = true ∨ v = JStr [] →
  toString v = Normal s →
  partKey toLowerCase (Some v) = Normal (toLowerCase s).
Proof.
  unfold partKey, or_else. intros [->| ->]; cbn [toStringV truthy]; by intros ->.
Qed.

Lemma partKey_falsy (v : jsval) :
  truthy v = false → partKey toLowerCase v = Normal (toLowerCase []).
Proof. unfold partKey, or_else. by intros ->. Qed.

(** What the loop body does to a data row whose [data] is an array of
    more than two values, in terms of what [find] returned. *)
Lemma attachLayoutItem_row (names : list jsstring) ms l v :
  assoc (u "type") ms = Some (JStr (u "main_table_data_row")) →
  assoc (u "data") ms = Some (JArr l) →
  l !! 2%nat = Some v →
  attachLayoutItem toLowerCase names (JObj ms) =
    (partNum ← partKey toLowerCase (Some v);
     match findMatch names partNum with
     | Some (c :: m) =>
       Normal (JObj (assoc_set (u "data") (JArr (<[1%nat := JStr (c :: m)]> l)) ms))
     | _ => Normal (JObj ms)
     end).
Proof.
  intros Hty Hdata Hv. unfold attachLayoutItem. simpl.
  rewrite Hty, Hdata. cbn [strict_eq_str truthy get]. rewrite !str_eqb_refl.
  assert (2 < length l)%nat as Hlen by (by apply lookup_lt_Some in Hv).
  cbn [mbind completion_bind bind gt_num index].
  replace (Z.of_nat (length l) >? 2)%Z with true by (symmetry; apply Z.gtb_lt; lia).
  rewrite Hv.
  destruct (partKey toLowerCase (Some v)) as [partNum| |]; cbn [mbind completion_bind bind];
    [|done..].
  destruct (findMatch names _) as [[|c m]|]; try done.
  cbn [set_index mbind completion_bind bind]. by rewrite bool_decide_eq_true_2 by lia.
Qed.

Lemma attachProduct_obj (names : list jsstring) ms :
  attachProduct toLowerCase names (JObj ms) =
    (partNum ← partKey toLowerCase (assoc (u "零件名") ms);
     match findMatch names partNum with
     | Some (c :: m) => Normal (JObj (assoc_set (u "零件图片") (JStr (c :: m)) ms))
     | _ => Normal (JObj ms)
     end).
Proof.
  unfold attachProduct. cbn [get mbind completion_bind bind].
  destruct (partKey toLowerCase _) as [partNum| |]; cbn [mbind completion_bind bind];
    [|done..].
  by destruct (findMatch names _) as [[|c m]|].
Qed.

(** The loops run the body on every element in turn. *)
Lemma forEachM_lookup {A} (body : A → completion A) (xs ys : list A) :
  forEachM body xs = Normal ys →
  length ys = length xs
  ∧ ∀ i x, xs !! i = Some x → ∃ y, ys !! i = Some y ∧ body x = Normal y.
Proof.
  revert ys. induction xs as [|x xs IH]; intros ys; simpl.
  - intros [= <-]. split; [done|]. intros i x H. by rewrite lookup_nil in H.
  - destruct (body x) as [y| |] eqn:E; simpl; [|done..].
    destruct (forEachM body xs) as [r| |]; simpl; [|done..].
    intros [= <-]. destruct (IH r eq_refl) as [Hlen Hi]. split; [simpl; by rewrite Hlen|].
    intros [|i] x'; simpl.
    + intros [= <-]. by exists y.
    + apply Hi.
Qed.

Lemma forEachM_normal {A} (body : A → completion A) (xs : list A) :
  Forall (fun x => ∃ y, body x = Normal y) xs → ∃ ys, forEachM body xs = Normal ys.
Proof.
  induction 1 as [|x xs [y Hy] _ [ys Hys]]; simpl; [by eexists|].
  rewrite Hy, Hys. by eexists.
Qed.

Lemma strict_eq_str_true (v : jsval) (lit : jsstring) :
  strict_eq_str v lit = true → v = Some (JStr lit).
Proof. destruct v as [[]|]; try done. simpl. by intros ->%str_eqb_eq. Qed.

Lemma attachLayoutItem_keyed (names : list jsstring) (item : json) :
  keyedItem item → ∃ item', attachLayoutItem toLowerCase names item = Normal item'.
Proof.
  intros (ms & -> & Hrow). unfold attachLayoutItem. cbn [get mbind completion_bind bind].
  destruct (strict_eq_str (assoc (u "type") ms) _) eqn:Ety; [|by eexists].
  apply strict_eq_str_true in Ety. destruct (Hrow Ety) as (l & -> & Hv).
  cbn [truthy get]. rewrite str_eqb_refl. cbn [mbind completion_bind bind gt_num index].
  destruct (Z.of_nat (length l) >? 2)%Z eqn:Elen; [|by eexists].
  destruct (l !! 2%nat) as [v|] eqn:Ev.
  2:{ apply lookup_ge_None in Ev. apply Z.gtb_lt in Elen. lia. }
  assert (∃ k, partKey toLowerCase (Some v) = Normal k) as [k ->].
  { unfold partKey, or_else. destruct (truthy (Some v)); [|by eexists].
    destruct (Hv v eq_refl) as [s Hs]. cbn [toStringV]. rewrite Hs. by eexists. }
  cbn [mbind completion_bind bind].
  destruct (findMatch names k) as [[|c m]|]; [by eexists| |by eexists].
  cbn [set_index]. rewrite bool_decide_eq_true_2.
  - by eexists.
  - apply lookup_lt_Some in Ev. lia.
Qed.

Lemma attachProduct_keyed (names : list jsstring) (p : json) :
  keyedProduct p → ∃ p', attachProduct toLowerCase names p = Normal p'.
Proof.
  intros (ms & -> & Hv). rewrite attachProduct_obj.
  assert (∃ k, partKey toLowerCase (assoc (u "零件名") ms) = Normal k) as [k ->].
  { unfold partKey, or_else. destruct (truthy (assoc (u "零件名") ms)) eqn:E; [|by eexists].
    destruct (assoc (u "零件名") ms) as [v|]; [|done].
    destruct (Hv v eq_refl) as [s Hs]. cbn [toStringV]. rewrite Hs. by eexists. }
  cbn [mbind completion_bind bind].
  destruct (findMatch names k) as [[|c m]|]; by eexists.
Qed.

(** The guard [item.data.length > 2]: a shorter row is passed over. *)
Lemma attachLayoutItem_short (names : list jsstring) ms l :
  assoc (u "data") ms = Some (JArr l) →
  (length l ≤ 2)%nat →
  attachLayoutItem toLowerCase names (JObj ms) = Normal (JObj ms).
Proof.
  intros Hdata Hlen. unfold attachLayoutItem. simpl.
  destruct (strict_eq_str _ _); [|done].
  rewrite Hdata. cbn [truthy get]. rewrite str_eqb_refl.
  cbn [mbind completion_bind bind gt_num].
  rewrite Z.gtb_ltb. by replace (2 <? Z.of_nat (length l))%Z with false by (symmetry; apply Z.ltb_ge; lia).
Qed.

End ReconcilerFacts.

(** ** The extractor *)

Section ExtractorFacts.
Import Extractor.

Lemma dropPrefix_spec (p s r : jsstring) : dropPrefix p s = Some r ↔ s = p ++ r.
Proof.
  revert s. induction p as [|c p IH]; intros s.
  - destruct s; simpl; split; congruence.
  - destruct s as [|d s]; simpl; [split; discriminate|].
    destruct (c =? d) eqn:E.
    + apply N.eqb_eq in E as ->. rewrite IH. split; congruence.
    + apply N.eqb_neq in E. split; [discriminate|congruence].
Qed.

(** [trimStart] takes the longest run of white space away. *)
Lemma trimStart_app (w r : jsstring) :
  spaces w → (∀ c, head r = Some c → is_space c = false) → trimStart (w ++ r) = r.
Proof.
  intros Hw Hr. induction Hw as [|c w Hc Hw IH]; simpl.
  - destruct r as [|c r]; [done|]. simpl. by rewrite (Hr c).
  - by rewrite Hc.
Qed.

Lemma trimStart_split (s : jsstring) :
  ∃ w, s = w ++ trimStart s ∧ spaces w ∧ length w = (length s - length (trimStart s))%nat
       ∧ ∀ c, head (trimStart s) = Some c → is_space c = false.
Proof.
  induction s as [|c s (w & Hs & Hw & Hlen & Hhead)]; simpl.
  - exists []. split; [done|]. split; [constructor|]. done.
  - destruct (is_space c) eqn:E.
    + exists (c :: w). split; [by rewrite Hs at 1|]. split; [by constructor|].
      split; [|done]. simpl. rewrite Hlen.
      assert (length (trimStart s) ≤ length s)%nat; [|lia].
      rewrite Hs at 2. rewrite length_app. lia.
    + exists []. split; [done|]. split; [constructor|]. split; [simpl; lia|].
      intros ? [= <-]. done.
Qed.

Lemma trimStart_id (s : jsstring) :
  (∀ c, head s = Some c → is_space c = false) → trimStart s = s.
Proof. intros H. by apply (trimStart_app [] s); [constructor|]. Qed.

Lemma head_rev (s : jsstring) : head (rev s) = last s.
Proof.
  induction s as [|c s _] using rev_ind; [done|].
  by rewrite rev_unit, last_snoc.
Qed.

Lemma trim_id (s : jsstring) : trimmed s → trim s = s.
Proof.
  intros [Hhead Hlast]. unfold trim. rewrite (trimStart_id s Hhead).
  rewrite trimStart_id; [apply rev_involutive|].
  intros c Hc. apply Hlast. by rewrite <- head_rev.
Qed.

(** The lazy scan stops at the first [CLOSE;]. *)
Lemma lazyUntil_sound (close : N) (s body : jsstring) :
  lazyUntil close s = Some body → ∃ post, s = body ++ [close; 59] ++ post.
Proof.
  revert body. induction s as [|c s IH]; intros body; simpl; [done|].
  destruct ((c =? close) && startsWith s [59]) eqn:E.
  - apply andb_true_iff in E as [->%N.eqb_eq [t ->]%startsWith_spec].
    intros [= <-]. by exists t.
  - destruct (lazyUntil close s) as [b|]; [|done]. simpl. intros [= <-].
    destruct (IH b eq_refl) as [post ->]. by exists post.
Qed.

Lemma lazyUntil_complete (close : N) (body post : jsstring) :
  ∃ body', lazyUntil close (body ++ [close; 59] ++ post) = Some body'.
Proof.
  induction body as [|c body [b IH]].
  - exists []. cbn [app lazyUntil].
    assert (startsWith (59 :: post) [59] = true) as ->
      by (apply startsWith_spec; by exists post).
    by rewrite N.eqb_refl.
  - cbn [app lazyUntil] in *.
    destruct ((c =? close) && startsWith _ [59]); [by exists []|].
    rewrite IH. by eexists.
Qed.

Section Pattern.
Variable nm : jsstring.
Variables open close : N.
Hypothesis nm_head : ∀ c, head nm = Some c → is_space c = false.
Hypothesis nm_nonempty : nm ≠ [].
Hypothesis open_no_space : is_space open = false.

Lemma matchHere_sound (s g : jsstring) :
  matchHere nm open close s = Some g → literalOf nm open close s g.
Proof.
  unfold matchHere. intros H.
  destruct (dropPrefix (u "const") s) as [r1|] eqn:E1; [|done]. cbn [mbind option_bind] in H.
  apply dropPrefix_spec in E1 as ->.
  destruct r1 as [|c r1']; [done|]. destruct (is_space c) eqn:Ec; [|done].
  destruct (trimStart_split (c :: r1')) as (w1 & Hr1 & Hw1 & _ & _).
  destruct (dropPrefix nm (trimStart (c :: r1'))) as [r2|] eqn:E2; [|done].
  apply dropPrefix_spec in E2. cbn [mbind option_bind] in H.
  destruct (trimStart_split r2) as (w2 & Hr2 & Hw2 & _ & _).
  destruct (dropPrefix [61] (trimStart r2)) as [r3|] eqn:E3; [|done].
  apply dropPrefix_spec in E3. cbn [mbind option_bind] in H.
  destruct (trimStart_split r3) as (w3 & Hr3 & Hw3 & _ & _).
  destruct (trimStart r3) as [|o r4]; [done|].
  destruct (o =? open) eqn:Eo; [|done]. apply N.eqb_eq in Eo as ->.
  destruct (lazyUntil close r4) as [body|] eqn:E4; [|done]. cbn [mbind option_bind] in H.
  injection H as <-. apply lazyUntil_sound in E4 as [post ->].
  exists [], w1, w2, w3, body, post. split.
  - simpl. f_equal. by rewrite Hr1, E2, Hr2, E3, Hr3.
  - split; [|done]. intros ->. rewrite E2 in Hr1.
    destruct nm as [|n0 nm']; [done|].
    injection Hr1 as -> _. by rewrite (nm_head n0) in Ec.
Qed.

Lemma matchHere_complete (w1 w2 w3 body post : jsstring) :
  w1 ≠ [] → spaces w1 → spaces w2 → spaces w3 →
  ∃ g, matchHere nm open close
         (u "const" ++ w1 ++ nm ++ w2 ++ [61] ++ w3 ++ [open] ++ body ++ [close; 59] ++ post)
       = Some g.
Proof.
  intros Hne Hw1 Hw2 Hw3. unfold matchHere.
  rewrite (proj2 (dropPrefix_spec (u "const") _ _) eq_refl). cbn [mbind option_bind].
  destruct w1 as [|c w1']; [done|]. cbn [app].
  rewrite (Forall_inv Hw1).
  change (c :: w1' ++ ?x) with ((c :: w1') ++ x).
  rewrite trimStart_app; [|done|].
  2:{ intros c0. destruct nm; [done|]. simpl. apply nm_head. }
  rewrite (proj2 (dropPrefix_spec nm _ _) eq_refl). cbn [mbind option_bind].
  rewrite trimStart_app; [|done|by intros ? [= <-]].
  erewrite (proj2 (dropPrefix_spec [61] _ _)) by reflexivity.
  cbn [mbind option_bind]. rewrite trimStart_app; [|done|by intros ? [= <-]].
  cbn [app]. rewrite N.eqb_refl.
  destruct (lazyUntil_complete close body post) as [b Hb]. cbn [app] in Hb. rewrite Hb.
  cbn [mbind option_bind]. by eexists.
Qed.

(** The search finds a literal exactly when the text contains one. *)
Lemma matchFirst_sound (s g : jsstring) :
  matchFirst nm open close s = Some g → literalOf nm open close s g.
Proof.
  induction s as [|c s IH]; cbn [matchFirst].
  - destruct (matchHere nm open close []) eqn:E; [|done].
    intros [= <-]. by apply matchHere_sound.
  - destruct (matchHere nm open close (c :: s)) eqn:E.
    + intros [= <-]. by apply matchHere_sound.
    + intros (pre & w1 & w2 & w3 & body & post & -> & H)%IH.
      by exists (c :: pre), w1, w2, w3, body, post.
Qed.

Lemma matchFirst_complete (s : jsstring) :
  containsLiteral nm open close s → ∃ g, matchFirst nm open close s = Some g.
Proof.
  intros (g & pre & w1 & w2 & w3 & body & post & -> & Hne & Hw1 & Hw2 & Hw3 & _).
  destruct (matchHere_complete w1 w2 w3 body post Hne Hw1 Hw2 Hw3) as [g' Hg'].
  induction pre as [|c pre IH]; cbn [app].
  - destruct (u "const" ++ _) eqn:E; cbn [matchFirst]; rewrite Hg'; by eexists.
  - cbn [matchFirst]. destruct (matchHere nm open close (c :: _)); [by eexists|]. apply IH.
Qed.

Lemma matchFirst_none (s : jsstring) :
  matchFirst nm open close s = None ↔ ¬ containsLiteral nm open close s.
Proof.
  split.
  - intros Hnone [g Hg]%matchFirst_complete. congruence.
  - intros Hnot. destruct (matchFirst nm open close s) as [g|] eqn:E; [|done].
    exfalso. apply Hnot. exists g. by apply matchFirst_sound.
Qed.

End Pattern.

(** A located literal begins with its bracket and ends with its bracket:
    the [trim] of [clean] finds nothing to take from it. *)
Lemma literalOf_trimmed nm (open close : N) txt g :
  is_space open = false → is_space close = false →
  literalOf nm open close txt g → trimmed g.
Proof.
  intros Ho Hc (pre & w1 & w2 & w3 & body & post & _ & _ & _ & _ & _ & ->). split.
  - by intros ? [= <-].
  - intros c. change (open :: body ++ [close]) with ((open :: body) ++ [close]).
    rewrite last_snoc. by intros [= <-].
Qed.

Lemma arrMatch_sound txt g : arrMatch txt = Some g → literalOf (u "excelLayoutData") 91 93 txt g.
Proof. apply matchFirst_sound; [by intros ? [= <-] | done]. Qed.

Lemma objMatch_sound txt g : objMatch txt = Some g → literalOf (u "quotationData") 123 125 txt g.
Proof. apply matchFirst_sound; [by intros ? [= <-] | done]. Qed.

Lemma arrMatch_none txt : arrMatch txt = None ↔ ¬ containsLiteral (u "excelLayoutData") 91 93 txt.
Proof. apply matchFirst_none; [by intros ? [= <-] | done | done]. Qed.

Lemma objMatch_none txt : objMatch txt = None ↔ ¬ containsLiteral (u "quotationData") 123 125 txt.
Proof. apply matchFirst_none; [by intros ? [= <-] | done | done]. Qed.

(** *** The repair pass on a text it has nothing to repair in *)

Lemma occursIn_cons (p : jsstring) (c : N) (s : jsstring) :
  occursIn p s → occursIn p (c :: s).
Proof. intros (pre & post & ->). by exists (c :: pre), post. Qed.

Lemma stripComments_id (s : jsstring) :
  ¬ occursIn [47; 47] s → stripComments false s = s.
Proof.
  induction s as [|c s IH]; [done|]. intros Hno. cbn [stripComments].
  destruct ((c =? 47) && startsWith s [47]) eqn:E.
  - exfalso. apply andb_true_iff in E as [->%N.eqb_eq [t ->]%startsWith_spec].
    apply Hno. by exists [], t.
  - f_equal. apply IH. intros H. by apply Hno, occursIn_cons.
Qed.

Lemma doubleQuotes_id (s : jsstring) : 39 ∉ s → doubleQuotes s = s.
Proof.
  unfold doubleQuotes. induction s as [|c s IH]; [done|].
  intros [Hc Hs]%not_elem_of_cons. simpl.
  rewrite IH by done. by rewrite (proj2 (N.eqb_neq c 39)) by done.
Qed.

Lemma dropTrailingCommas_id (s : jsstring) :
  ¬ hasTrailingComma s → dropTrailingCommas 0 s = s.
Proof.
  induction s as [|c s IH]; [done|]. intros Hno. cbn [dropTrailingCommas].
  assert (dropTrailingCommas 0 s = s) as ->.
  { apply IH. intros (pre & w & d & post & -> & H). apply Hno.
    by exists (c :: pre), w, d, post. }
  destruct (c =? 44) eqn:E; [|done]. apply N.eqb_eq in E as ->.
  unfold trailingComma.
  destruct (trimStart_split s) as (w & Hs & Hw & _ & _).
  destruct (trimStart s) as [|d rest]; [done|].
  destruct (isCloser d) eqn:Ed; [|done].
  exfalso. apply Hno. exists [], w, d, rest. by rewrite Hs at 1.
Qed.

Lemma dropTerminators_id (s : jsstring) : 59 ∉ s → 96 ∉ s → dropTerminators s = s.
Proof.
  unfold dropTerminators. induction s as [|c s IH]; [done|].
  intros [Hc Hs]%not_elem_of_cons [Hc' Hs']%not_elem_of_cons. simpl.
  rewrite IH by done.
  by rewrite (proj2 (N.eqb_neq c 59)), (proj2 (N.eqb_neq c 96)) by done.
Qed.

Lemma clean_id (s : jsstring) :
  ¬ occursIn [47; 47] s → 39 ∉ s → 59 ∉ s → 96 ∉ s →
  ¬ hasTrailingComma s → trimmed s →
  clean s = s.
Proof.
  intros. unfold clean.
  rewrite stripComments_id, doubleQuotes_id, dropTrailingCommas_id, dropTerminators_id by done.
  by apply trim_id.
Qed.

Lemma occursIn_elem (c : N) (p s : jsstring) : occursIn (c :: p) s → c ∈ s.
Proof.
  intros (pre & post & ->). apply elem_of_app. right. apply list_elem_of_here.
Qed.

Lemma hasTrailingCommab_complete (s : jsstring) :
  hasTrailingComma s → hasTrailingCommab s = true.
Proof.
  intros (pre & w & c & post & -> & Hw & Hc).
  induction pre as [|d pre IH]; cbn [app hasTrailingCommab].
  - apply orb_true_iff. left. rewrite N.eqb_refl. apply bool_decide_eq_true.
    unfold trailingComma. rewrite trimStart_app; [by rewrite Hc|done|].
    intros ? [= <-]. unfold isCloser in Hc.
    by apply orb_true_iff in Hc as [->%N.eqb_eq| ->%N.eqb_eq].
  - apply orb_true_iff. by right.
Qed.

End ExtractorFacts.

(** ** [JSON.parse] throws a [SyntaxError] and nothing else *)

Section ParseFacts.
Import JSON.

Lemma bind_throw {A B} (c : completion A) (k : A → completion B) e :
  c ≫= k = Throw e → c = Throw e ∨ ∃ a, c = Normal a ∧ k a = Throw e.
Proof.
  destruct c as [a| |]; cbn [mbind completion_bind bind]; intros H;
    [right; by exists a | left; by injection H as -> | done].
Qed.

Ltac throws :=
  repeat match goal with
  | H : Throw _ = Throw _ |- _ => injection H as <-
  | H : Normal _ = Throw _ |- _ => discriminate H
  | H : Unmodelled = Throw _ |- _ => discriminate H
  | H : syntaxError = Throw _ |- _ => injection H as <-
  | H : _ ≫= _ = Throw _ |- _ => apply bind_throw in H as [H|(? & ? & H)]
  | H : (let '(_, _) := ?p in _) = Throw _ |- _ => destruct p
  | H : context [match ?x with _ => _ end] |- _ => destruct x eqn:?
  end; eauto.

Lemma parseChars_throws (s : jsstring) : ∀ skip e,
  parseChars skip s = Throw e → e = JsSyntaxError.
Proof.
  induction s as [|c s IH]; intros skip e H; cbn [parseChars] in H; throws.
Qed.

Lemma parseNumber_throws neg s e : parseNumber neg s = Throw e → e = JsSyntaxError.
Proof. unfold parseNumber. intros H. throws. Qed.

Lemma literal_throws word v s e : literal word v s = Throw e → e = JsSyntaxError.
Proof. unfold literal. intros H. throws. Qed.

Lemma parse_functions_throw (fuel : nat) :
  (∀ s e, parseValue fuel s = Throw e → e = JsSyntaxError)
  ∧ (∀ s e, parseElements fuel s = Throw e → e = JsSyntaxError)
  ∧ (∀ acc s e, parseMembers fuel acc s = Throw e → e = JsSyntaxError).
Proof.
  induction fuel as [|fuel (IHv & IHe & IHm)]; [by repeat split|].
  pose proof parseChars_throws. pose proof parseNumber_throws. pose proof literal_throws.
  split; [|split].
  - intros s e H'. cbn [parseValue] in H'. throws.
  - intros s e H'. cbn [parseElements] in H'. throws.
  - intros acc s e H'. cbn [parseMembers] in H'. throws.
Qed.

Lemma parse_throws (text : jsstring) e : parse text = Throw e → e = JsSyntaxError.
Proof.
  unfold parse. intros H. pose proof (parse_functions_throw (2 * length text + 2)) as (? & _).
  throws.
Qed.

End ParseFacts.


(** ** The normalizer *)

Section NormalizerFacts.
Import Normalizer.

Lemma omap_ext_in {A B} (f g : A → option B) (l : list A) :
  (∀ x, x ∈ l → f x = g x) → omap f l = omap g l.
Proof.
  induction l as [|x l IH]; [done|]. intros H.
  assert (omap f l = omap g l) as Hl.
  { apply IH. intros y Hy. apply H. by apply list_elem_of_further. }
  cbn [omap list_omap]. rewrite (H x) by apply list_elem_of_here.
  destruct (g x); by rewrite Hl.
Qed.

Lemma existsb_ext_in {A} (f g : A → bool) (l : list A) :
  (∀ x, x ∈ l → f x = g x) → existsb f l = existsb g l.
Proof.
  induction l as [|x l IH]; [done|]. intros H. simpl.
  rewrite (H x) by apply list_elem_of_here.
  rewrite IH; [done|]. intros y Hy. apply H. by apply list_elem_of_further.
Qed.

Lemma elem_of_seq' (start len x : nat) : x ∈ seq start len ↔ (start ≤ x < start + len)%nat.
Proof. rewrite list_elem_of_In. apply in_seq. Qed.

Lemma rowCells_agree ws ws' r :
  agree ws ws' → (1 ≤ r ≤ maxRow)%nat → rowCells ws' r = rowCells ws r.
Proof.
  intros H Hr. unfold rowCells. apply omap_ext_in.
  intros c Hc%elem_of_seq'. rewrite H; [done|done|lia].
Qed.

Lemma hasDataInCheckRow_agree ws ws' r :
  agree ws ws' → (1 ≤ r ≤ maxRow)%nat → hasDataInCheckRow ws' r = hasDataInCheckRow ws r.
Proof.
  intros H Hr. unfold hasDataInCheckRow. apply existsb_ext_in.
  intros c Hc%elem_of_seq'. rewrite H; [done|done|lia].
Qed.

Lemma countEmpty_agree ws ws' rows :
  agree ws ws' → Forall (fun r => 1 ≤ r ≤ maxRow)%nat rows →
  countEmpty ws' rows = countEmpty ws rows.
Proof.
  intros H. induction 1 as [|r rows Hr _ IH]; [done|]. simpl.
  by rewrite (hasDataInCheckRow_agree ws ws'), IH.
Qed.

Lemma emptyRowCount_agree ws ws' rowNum :
  agree ws ws' → emptyRowCount ws' rowNum = emptyRowCount ws rowNum.
Proof.
  intros H. unfold emptyRowCount. apply countEmpty_agree; [done|].
  apply Forall_forall. intros r [Hin%in_seq Hr]%list_elem_of_In%filter_In.
  apply bool_decide_eq_true in Hr. lia.
Qed.

Lemma scanRows_agree ws ws' todo : ∀ rowNum any,
  agree ws ws' → (1 ≤ rowNum)%nat → (rowNum + todo ≤ S maxRow)%nat →
  scanRows ws' todo rowNum any = scanRows ws todo rowNum any.
Proof.
  induction todo as [|todo IH]; intros rowNum any H Hlo Hhi; [done|].
  cbn [scanRows]. rewrite (rowCells_agree ws ws') by (done || lia).
  rewrite (emptyRowCount_agree ws ws') by done.
  rewrite IH by (done || lia). done.
Qed.

(** The rows written out lie in the range scanned, each with the cells
    [rowCells] gives for it. *)
Lemma scanRows_lines ws todo : ∀ rowNum any line,
  line ∈ (scanRows ws todo rowNum any).1 →
  (rowNum ≤ line.1 < rowNum + todo)%nat ∧ line.2 = rowCells ws line.1.
Proof.
  induction todo as [|todo IH]; intros rowNum any line; cbn [scanRows].
  - intros H. by apply elem_of_nil in H.
  - destruct (scanRows ws todo (S rowNum) (any || _)) as [rest any'] eqn:E.
    assert (∀ l, l ∈ rest → (S rowNum ≤ l.1 < S rowNum + todo)%nat ∧ l.2 = rowCells ws l.1)
      as Hrest.
    { intros l Hl. apply (IH (S rowNum) (any || match rowCells ws rowNum with
                                                   | [] => false | _ => true end)).
      by rewrite E. }
    destruct (rowCells ws rowNum) as [|cell cells] eqn:Ecells;
      destruct (_ && _ && _); cbn [fst];
      repeat (intros [->|H]%elem_of_cons || intros H);
      try (by apply elem_of_nil in H);
      try (simpl; split; [lia|done]);
      try (destruct (Hrest line H); split; [lia|done]).
Qed.

Lemma rowCells_columns ws r cell :
  cell ∈ rowCells ws r → (1 ≤ cell.1 ≤ maxCol)%nat.
Proof.
  unfold rowCells. intros (c & Hc%elem_of_seq' & H)%list_elem_of_omap.
  destruct (hasValue _); [|done]. destruct (trim _); [done|].
  injection H as <-. simpl. lia.
Qed.

(** The look-ahead counts ten when the ten rows behind [r] are inside the
    window and hold no value. *)
Lemma emptyRowCount_ten ws r :
  (r + 10 ≤ maxRow)%nat →
  (∀ k c, (1 ≤ k ≤ 10)%nat → (1 ≤ c ≤ maxCol)%nat → hasValue (cellValue ws (r + k) c) = false) →
  emptyRowCount ws r = 10%nat.
Proof.
  intros Hr Hempty. unfold emptyRowCount.
  assert (∀ rows, Forall (fun x => r < x ≤ r + 10)%nat rows →
            List.filter (fun x => bool_decide (x ≤ maxRow)%nat) rows = rows
            ∧ countEmpty ws rows = length rows) as Hrows.
  { induction 1 as [|x rows Hx _ [IH1 IH2]]; [done|]. simpl.
    rewrite bool_decide_eq_true_2 by lia. rewrite IH1. split; [done|].
    assert (hasDataInCheckRow ws x = false) as ->; [|by rewrite IH2].
    unfold hasDataInCheckRow. apply not_true_is_false.
    intros (c & Hc%list_elem_of_In%elem_of_seq' & Hv)%existsb_exists.
    replace x with (r + (x - r))%nat in Hv by lia.
    rewrite Hempty in Hv; [done|lia|lia]. }
  destruct (Hrows (seq (S r) 10)) as [-> ->]; [|by rewrite length_seq].
  apply Forall_forall. intros x Hx%elem_of_seq'. lia.
Qed.

(** The scan ends at a row without cells to write that comes behind data
    and before ten counted rows. *)
Lemma scanRows_stop ws r todo : ∀ rowNum any,
  (rowNum ≤ r)%nat →
  (any = true ∨ ∃ r0, (rowNum ≤ r0 < r)%nat ∧ rowCells ws r0 ≠ []) →
  rowCells ws r = [] →
  (10 ≤ emptyRowCount ws r)%nat →
  ∀ line, line ∈ (scanRows ws todo rowNum any).1 → (line.1 < r)%nat.
Proof.
  induction todo as [|todo IH]; intros rowNum any Hle Hany Hrow Hten line; cbn [scanRows].
  - intros H. by apply elem_of_nil in H.
  - destruct (decide (rowNum = r)) as [->|Hne].
    + rewrite Hrow. destruct Hany as [->|(r0 & ? & _)]; [|lia].
      rewrite bool_decide_eq_true_2 by done. simpl. intros H. by apply elem_of_nil in H.
    + destruct (scanRows ws todo (S rowNum) (any || _)) as [rest any'] eqn:E.
      assert (∀ l, l ∈ rest → (l.1 < r)%nat) as Hrest.
      { intros l Hl.
        apply (IH (S rowNum) (any || match rowCells ws rowNum with
                                      | [] => false | _ => true end));
          [lia| |done|done|by rewrite E].
        destruct Hany as [->|(r0 & Hr0 & Hdata)]; [by left|].
        destruct (decide (r0 = rowNum)) as [->|].
        - left. destruct (rowCells ws rowNum); [done|]. apply orb_true_r.
        - right. exists r0. split; [lia|done]. }
      destruct (rowCells ws rowNum) as [|cell cells] eqn:Ecells;
        destruct (_ && _ && _); cbn [fst];
        repeat (intros [->|H]%elem_of_cons || intros H);
        try (by apply elem_of_nil in H);
        try (simpl; lia);
        try (by apply Hrest).
Qed.

Lemma scanSheet_unfold ws : scanSheet ws = scanRows ws maxRow 1 false.
Proof. reflexivity. Qed.

Lemma sheetText_sameWindow ws ws' : sameWindow ws ws' → sheetText ws' = sheetText ws.
Proof.
  intros (Hname & Hmerges & Hagree). unfold sheetText. rewrite !scanSheet_unfold.
  rewrite (scanRows_agree ws ws' maxRow 1 false Hagree).
  - rewrite Hname, Hmerges. reflexivity.
  - apply Nat.le_refl.
  - apply Nat.le_refl.
Qed.

Lemma parseExcelToText_sameWindow wb wb' :
  Forall2 sameWindow wb wb' → parseExcelToText wb' = parseExcelToText wb.
Proof.
  intros H. unfold parseExcelToText.
  assert (List.map sheetText wb' = List.map sheetText wb) as ->; [|done].
  induction H as [|ws ws' wb wb' Hws _ IH]; [done|].
  cbn [List.map]. by rewrite (sheetText_sameWindow ws ws'), IH.
Qed.

(** The look-ahead counts fewer than ten when one of the ten rows holds
    a value, or lies past the window. *)
Lemma countEmpty_le ws rows : (countEmpty ws rows ≤ length rows)%nat.
Proof.
  induction rows as [|x rows IH]; [done|]. cbn [countEmpty length].
  destruct (hasDataInCheckRow ws x); lia.
Qed.

Lemma countEmpty_lt ws rows x :
  x ∈ rows → hasDataInCheckRow ws x = true → (countEmpty ws rows < length rows)%nat.
Proof.
  induction rows as [|y rows IH]; [by intros ?%elem_of_nil|].
  intros [->|Hx]%elem_of_cons Hdata; cbn [countEmpty length].
  - rewrite Hdata. lia.
  - specialize (IH Hx Hdata). destruct (hasDataInCheckRow ws y); lia.
Qed.

Lemma emptyRowCount_short ws r : valueWithinTen ws r → (emptyRowCount ws r < 10)%nat.
Proof.
  intros (k & c & Hk & Hc & Hrow & Hvalue). unfold emptyRowCount.
  assert (length (List.filter (fun x => bool_decide (x ≤ maxRow)%nat) (seq (S r) 10)) ≤ 10)%nat
    as Hlen.
  { etrans; [apply filter_length_le|]. by rewrite length_seq. }
  eapply Nat.lt_le_trans; [|exact Hlen].
  apply (countEmpty_lt ws _ (r + k)%nat).
  - apply list_elem_of_In, filter_In. split.
    + apply in_seq. clear -Hk. lia.
    + by apply bool_decide_eq_true.
  - unfold hasDataInCheckRow. apply existsb_exists. exists c. split; [|done].
    apply in_seq. clear -Hc. unfold maxCol in *. lia.
Qed.

(** A row with cells to write is written when the scan gets to it, and
    the scan gets to it when every row before it has a value within the
    ten rows behind. *)
Lemma scanRows_emits ws r todo : ∀ rowNum any,
  (rowNum ≤ r < rowNum + todo)%nat →
  rowCells ws r ≠ [] →
  (∀ r', (rowNum ≤ r' < r)%nat → valueWithinTen ws r') →
  (r, rowCells ws r) ∈ (scanRows ws todo rowNum any).1.
Proof.
  induction todo as [|todo IH]; intros rowNum any Hr Hdata Hgap; [lia|].
  cbn [scanRows].
  destruct (decide (rowNum = r)) as [->|Hne].
  - destruct (rowCells ws r) as [|cell cells]; [done|].
    destruct (scanRows ws todo (S r) _) as [rest any'].
    destruct (_ && _ && _); apply list_elem_of_here.
  - assert (bool_decide (10 ≤ emptyRowCount ws rowNum)%nat = false) as ->.
    { apply bool_decide_eq_false. apply Nat.lt_nge, emptyRowCount_short, Hgap. lia. }
    rewrite andb_false_r.
    specialize (IH (S rowNum) (any || match rowCells ws rowNum with
                                       | [] => false | _ => true end)).
    destruct (scanRows ws todo (S rowNum) _) as [rest any'].
    assert ((r, rowCells ws r) ∈ rest) as Hin.
    { apply IH; [lia|done|]. intros r' Hr'. apply Hgap. lia. }
    destruct (rowCells ws rowNum); [done|]. by apply list_elem_of_further.
Qed.

End NormalizerFacts.

(** ** The emitters *)

(** Comparisons of two literals are decided by evaluation. *)
Ltac eval_str_eqb :=
  repeat match goal with
  | |- context [str_eqb (u ?a) (u ?b)] =>
    let v := eval vm_compute in (str_eqb (u a) (u b)) in
    change (str_eqb (u a) (u b)) with v
  end.

Ltac step := cbn [mbind completion_bind bind strict_eq_str get getV index indexV orb andb].

Section EmitterFacts.
Import Emitters.
Variable mergeCellsAccepts : workbook -> jsval -> bool.
Variable getCellAccepts : jsval -> bool.
Variable rowGetCellAccepts : jsval -> bool.
Variable writeBuffer : workbook -> completion unit.

Local Abbreviation emitItem := (emitItem mergeCellsAccepts getCellAccepts rowGetCellAccepts).
Local Abbreviation emitItems := (emitItems mergeCellsAccepts getCellAccepts rowGetCellAccepts).
Local Abbreviation buildQuotation := (buildQuotation writeBuffer).

(** A data row whose image slot names no image. *)
Lemma emitItem_without_image (images : gmap jsstring Buffer) calls r ms l :
  assoc (u "type") ms = Some (JStr (u "main_table_data_row")) →
  assoc (u "data") ms = Some (JArr l) →
  namesNoImage images (l !! 1%nat) →
  emitItem images calls r (JObj ms)
  = Normal (calls ++ [SetRowValues r (or_else (assoc (u "headers") ms) (Some (JArr l)));
                      SetRowHeight r (HVal (assoc (u "height") ms))]).
Proof.
  intros Hty Hdata Hnone. unfold Emitters.emitItem, emitTableRow. step.
  rewrite Hty. step. eval_str_eqb. step. rewrite Hdata. step.
  destruct Hnone as [->| ->]; [|destruct (truthy (l !! 1%nat))];
    step; by rewrite <- app_assoc.
Qed.

(** A data row whose image slot names an image of the map, on a row that
    has no height yet. *)
Lemma emitItem_with_image (images : gmap jsstring Buffer) calls r ms l key img :
  assoc (u "type") ms = Some (JStr (u "main_table_data_row")) →
  assoc (u "data") ms = Some (JArr l) →
  l !! 1%nat = Some key →
  truthy (Some key) = true →
  readImage images (Some key) = Normal (Some img) →
  heightsOf r calls = [] →
  emitItem images calls r (JObj ms)
  = Normal (calls ++ [SetRowValues r (or_else (assoc (u "headers") ms) (Some (JArr l)));
                      WbAddImage img (u "png");
                      WsAddImage (nextImageId calls) (cellB r);
                      SetRowHeight r (hnum imageRowHeight);
                      SetRowHeight r (HVal (assoc (u "height") ms))]).
Proof.
  intros Hty Hdata Hkey Htruthy Himg Hfresh. unfold Emitters.emitItem, emitTableRow. step.
  rewrite Hty. step. eval_str_eqb. step. rewrite Hdata. step.
  rewrite Hkey, Htruthy, Himg. step.
  assert (∀ ops, heightsOf r ops = [] → rowHeight r (calls ++ ops) = HVal None) as Hrow.
  { intros ops Hops. unfold rowHeight, finalHeight, heightsOf in *.
    by rewrite omap_app, Hfresh, Hops. }
  rewrite <- !app_assoc. rewrite Hrow by done.
  cbn [htruthy truthy mathMax hnum]. step.
  assert (nextImageId (calls ++ [SetRowValues r (or_else (assoc (u "headers") ms) (Some (JArr l)))])
          = nextImageId calls) as ->.
  { unfold nextImageId. rewrite List.filter_app. simpl. by rewrite app_nil_r. }
  by rewrite <- !app_assoc.
Qed.

(** A product line whose image key names no image. *)
Lemma emitProduct_without_image (images : gmap jsstring Buffer) calls last ms :
  readImage images (or_else (assoc (u "零件图片") ms) (assoc (u "零件名") ms)) = Normal None →
  emitProduct images calls last (JObj ms)
  = Normal (calls ++ [AddRow (S last)
                        [assoc (u "序号") ms; assoc (u "零件图片") ms;
                         assoc (u "零件名") ms; assoc (u "表面") ms;
                         assoc (u "材质") ms; assoc (u "数量") ms;
                         str ""; str ""; assoc (u "备注") ms];
                      SetRowHeight (S last) (hnum 18)],
            S last).
Proof.
  intros Hnone. unfold emitProduct. step. rewrite Hnone. step. by rewrite <- app_assoc.
Qed.

(** Reading a key that was not taken out. *)
Lemma assoc_filter_keys (ks : list jsstring) (k : jsstring) (ms : list (jsstring * json)) :
  existsb (str_eqb k) ks = false →
  assoc k (List.filter (fun m => negb (existsb (str_eqb (fst m)) ks)) ms) = assoc k ms.
Proof.
  intros Hk. induction ms as [|[k' v] ms IH]; [done|]. simpl.
  destruct (str_eqb k k') eqn:E.
  - apply str_eqb_eq in E as <-. rewrite Hk. simpl. by rewrite str_eqb_refl.
  - destruct (existsb (str_eqb k') ks); simpl; [done|]. by rewrite E.
Qed.

Lemma get_withoutKeys (ks : list jsstring) (k : jsstring) (v : json) :
  existsb (str_eqb k) ks = false → get (withoutKeys ks v) k = get v k.
Proof.
  intros Hk. destruct v; try done. simpl. by rewrite assoc_filter_keys.
Qed.

Lemma assoc_publicPart (k : jsstring) (ms : list (jsstring * json)) :
  assoc k (List.map (fun m => (fst m, publicValue (fst m) (snd m))) ms)
  = publicValue k <$> assoc k ms.
Proof.
  induction ms as [|[k' v] ms IH]; [done|]. simpl.
  destruct (str_eqb k k') eqn:E; [|done].
  by apply str_eqb_eq in E as <-.
Qed.

Lemma emitProduct_public (images : gmap jsstring Buffer) calls last p :
  emitProduct images calls last (withoutKeys priceKeys p) = emitProduct images calls last p.
Proof.
  unfold emitProduct. by rewrite !get_withoutKeys.
Qed.

Lemma emitProducts_public (images : gmap jsstring Buffer) calls last ps :
  emitProducts images calls last (List.map (withoutKeys priceKeys) ps)
  = emitProducts images calls last ps.
Proof.
  revert calls last. induction ps as [|p ps IH]; intros calls last; [done|].
  simpl. rewrite emitProduct_public.
  destruct (emitProduct images calls last p) as [[calls' last']| |]; simpl; [|done..].
  apply IH.
Qed.

Lemma buildQuotation_public (q : json) (images : gmap jsstring Buffer) :
  buildQuotation (publicPart q) images = buildQuotation q images.
Proof.
  destruct q as [| | | | |ms]; try done.
  unfold buildQuotation, publicPart. cbn [get]. rewrite !assoc_publicPart.
  unfold publicValue. eval_str_eqb. cbn [mbind completion_bind bind].
  assert (∀ x : jsval, (λ v : json, v) <$> x = x) as Hid by (by intros []).
  rewrite !Hid. clear Hid.
  destruct (toStringV (assoc (u "quote_number") ms)); cbn [mbind completion_bind bind];
    [|done..].
  destruct (assoc (u "company_info") ms) as [ci|]; [|done].
  cbn [fmap option_fmap option_map getV]. rewrite !get_withoutKeys by done.
  repeat match goal with
  | |- context [get ci ?k] =>
    destruct (get ci k); cbn [mbind completion_bind bind]; [|done..]
  | |- context [toStringV ?x] =>
    destruct (toStringV x); cbn [mbind completion_bind bind]; [|done..]
  end.
  destruct (addInfoRows _ _ _) as [calls last].
  destruct (assoc (u "products") ms) as [[| | | |ps|]|]; try done.
  cbn [fmap option_fmap option_map publicProducts]. by rewrite emitProducts_public.
Qed.

(** A product line begins with its row of nine values, the seventh and
    eighth of which are empty strings. *)
Lemma emitProduct_row (images : gmap jsstring Buffer) calls last p calls' n :
  emitProduct images calls last p = Normal (calls', n) →
  (S last ≤ n)%nat
  ∧ ∃ vs rest,
      calls' = calls ++ AddRow (S last) vs :: rest
      ∧ length vs = 9%nat
      ∧ vs !! 6%nat = Some (str "") ∧ vs !! 7%nat = Some (str "").
Proof.
  unfold emitProduct. intros H.
  repeat match type of H with
  | context [get p ?k] =>
    destruct (get p k); cbn [mbind completion_bind bind] in H; [|done..]
  end.
  destruct (readImage images _) as [[img|]| |]; cbn [mbind completion_bind bind] in H;
    [| |done..].
  - destruct (mathMax _ _); cbn [mbind completion_bind bind] in H; [|done..].
    injection H as <- <-. split; [lia|]. eexists _, _.
    split; [by rewrite <- !app_assoc|done].
  - injection H as <- <-. split; [lia|]. eexists _, _.
    split; [by rewrite <- !app_assoc|done].
Qed.

Lemma emitProducts_extends (images : gmap jsstring Buffer) calls last ps calls' n :
  emitProducts images calls last ps = Normal (calls', n) → ∃ ops, calls' = calls ++ ops.
Proof.
  revert calls last. induction ps as [|p ps IH]; intros calls last; simpl.
  - intros [= <- <-]. exists []. by rewrite app_nil_r.
  - destruct (emitProduct images calls last p) as [[calls1 last1]| |] eqn:E;
      cbn [mbind completion_bind bind]; [|done..].
    intros (ops & ->)%IH. apply emitProduct_row in E as (_ & vs & rest & -> & _).
    eexists. by rewrite <- app_assoc.
Qed.

Lemma addInfoLines_extends calls last lines :
  ∃ ops, (addInfoLines calls last lines).1 = calls ++ ops.
Proof.
  revert calls last. induction lines as [|s lines IH]; intros calls last; simpl.
  - exists []. by rewrite app_nil_r.
  - destruct (IH (calls ++ [AddRow (S last) [s];
                           MergeCells (jstr (rangeOnRow "A" "I" (S last)));
                           SetRowHeight (S last) (hnum 18)]) (S last)) as [ops ->].
    eexists. by rewrite <- app_assoc.
Qed.

(** The company block of every quotation that is built. *)
Lemma buildQuotation_company_block (q : json) (images : gmap jsstring Buffer) wb :
  buildQuotation q images = Normal wb →
  wb !! 10%nat = Some (AddRow 3 [str "联系人:"; str ""; str ""; str ""; str "联系人:贾芳"])
  ∧ ∃ tel fax email addr,
      wb !! 14%nat = Some (AddRow 4 [str "TEL:"; str ""; str ""; str ""; jstr tel])
      ∧ wb !! 18%nat = Some (AddRow 5 [str "FAX:"; str ""; str ""; str ""; jstr fax])
      ∧ wb !! 22%nat = Some (AddRow 6 [str "E-mail:"; str ""; str ""; str ""; jstr email])
      ∧ wb !! 26%nat = Some (AddRow 7 [str "地址:"; str ""; str ""; str ""; jstr addr]).
Proof.
  unfold Emitters.buildQuotation. intros H.
  destruct (get q (u "quote_number")); cbn [mbind completion_bind bind] in H; [|done..].
  destruct (toStringV _); cbn [mbind completion_bind bind] in H; [|done..].
  destruct (get q (u "company_info")) as [ci| |]; cbn [mbind completion_bind bind] in H; [|done..].
  repeat match type of H with
  | context [getV ci ?k] =>
    destruct (getV ci k); cbn [mbind completion_bind bind] in H; [|done..]
  | context [toStringV ?x] =>
    destruct (toStringV x); cbn [mbind completion_bind bind] in H; [|done..]
  end.
  cbn [addInfoRows] in H.
  destruct (get q (u "products")) as [[[| | | |ps|]|]| |];
    cbn [mbind completion_bind bind] in H; try done.
  destruct (emitProducts _ _ _ _) as [[calls last]| |] eqn:E;
    cbn [mbind completion_bind bind] in H; [|done..].
  apply emitProducts_extends in E as [ops ->].
  repeat match type of H with
  | context [get q ?k] =>
    destruct (get q k); cbn [mbind completion_bind bind] in H; [|done..]
  | context [toStringV ?x] =>
    destruct (toStringV x); cbn [mbind completion_bind bind] in H; [|done..]
  end.
  match type of H with
  | context [addInfoLines ?c ?l ?ls] =>
    destruct (addInfoLines_extends c l ls) as [ops' Hops];
    destruct (addInfoLines c l ls) as [calls' last']
  end.
  simpl in Hops. subst calls'.
  cbn [mbind completion_bind bind] in H. unfold written in H.
  destruct (writeBuffer _); cbn [mbind completion_bind bind] in H; [|done..].
  injection H as <-.
  rewrite <- !app_assoc. split; [done|]. by eexists _, _, _, _.
Qed.

End EmitterFacts.

(** ** The renderer *)

Section RendererFacts.
Import Renderer.

(** One turn of the loop never throws: the map gains the contribution of
    the file or stays as it is. *)
Lemma renderOne_caught (w : world) (i : nat) (f : stp_file) (map : gmap jsstring Buffer) :
  tryCatch (renderOne w i f map) map
  = Normal (match contribution w i f with
            | Some img => <[name f := img]> map
            | None => map
            end).
Proof.
  unfold contribution, renderOne.
  destruct (readFile w i (path f)) as [buf|e]; [|done]. simpl.
  destruct (fetch w i buf (name f)) as [res|e]; [|done]. simpl.
  destruct (ok res); [|done]. simpl.
  destruct (arrayBuffer res) as [zipBuf|e]; [|done]. simpl.
  destruct (loadAsync w i zipBuf) as [zip|e]; [|done]. simpl.
  destruct (List.find _ zip) as [e|]; [|done].
  destruct (nodebuffer e) as [img|?]; [|done]. simpl.
  by rewrite lookup_insert_eq.
Qed.

(** A rejected promise or a status that is not ok leaves no contribution. *)
Lemma contribution_failed (w : world) (i : nat) (f : stp_file) (map : gmap jsstring Buffer) :
  (∃ e, renderOne w i f map = Throw e)
  ∨ (∃ buf res, readFile w i (path f) = Resolved buf
                ∧ fetch w i buf (name f) = Resolved res ∧ ok res = false) →
  contribution w i f = None.
Proof.
  unfold contribution, renderOne. intros [[e H]|(buf & res & -> & Hres & Hok)].
  - destruct (readFile w i (path f)) as [buf|?]; [|done]. simpl in *.
    destruct (fetch w i buf (name f)) as [res|?]; [|done]. simpl in *.
    destruct (ok res); [|done]. simpl in *.
    destruct (arrayBuffer res) as [zipBuf|?]; [|done]. simpl in *.
    destruct (loadAsync w i zipBuf) as [zip|?]; [|done]. simpl in *.
    destruct (List.find _ zip) as [z|]; [|done].
    destruct (nodebuffer z) as [img|?]; done.
  - simpl. rewrite Hres. simpl. by rewrite Hok.
Qed.

Lemma contribution_sameAnswers (w w' : world) (i : nat) (f : stp_file) :
  sameAnswers w w' i → contribution w i f = contribution w' i f.
Proof.
  intros (Hread & Hfetch & Hzip). unfold contribution, renderOne.
  by rewrite Hread, Hfetch, Hzip.
Qed.

Lemma renderFrom_cons (w : world) (i : nat) (f : stp_file) (files : list stp_file)
    (map : gmap jsstring Buffer) :
  renderFrom w i (f :: files) map
  = renderFrom w (S i) files
      (match contribution w i f with
       | Some img => <[name f := img]> map
       | None => map
       end).
Proof. simpl. by rewrite renderOne_caught. Qed.

(** The loop returns a map, with at most one more entry for each file,
    under the names of the files only. *)
Lemma renderFrom_total (w : world) (files : list stp_file) :
  ∀ i (map : gmap jsstring Buffer),
  ∃ m, renderFrom w i files map = Normal m
       ∧ (size m ≤ size map + length files)%nat
       ∧ ∀ k, is_Some (m !! k) → is_Some (map !! k) ∨ ∃ f, f ∈ files ∧ name f = k.
Proof.
  induction files as [|f files IH]; intros i map.
  - exists map. simpl. split; [done|]. split; [lia|]. by left.
  - rewrite renderFrom_cons.
    destruct (IH (S i) (match contribution w i f with
                        | Some img => <[name f := img]> map
                        | None => map
                        end)) as (m & Hm & Hsize & Hdom).
    exists m. split; [done|]. split.
    + etrans; [exact Hsize|]. simpl. destruct (contribution w i f) as [img|]; [|lia].
      rewrite map_size_insert. destruct (map !! name f); simpl; lia.
    + intros k Hk. destruct (Hdom k Hk) as [Hin|(f' & Hf' & <-)].
      * destruct (contribution w i f); [|by left].
        destruct (decide (name f = k)) as [<-|Hne].
        -- right. exists f. split; [apply list_elem_of_here|done].
        -- left. by rewrite lookup_insert_ne in Hin.
      * right. exists f'. split; [by apply list_elem_of_further|done].
Qed.

(** What the loop leaves under a key depends on the files of that name
    only: another file may fare in any way. *)
Lemma renderFrom_isolated (w w' : world) (pos : nat) (k : jsstring)
    (files : list stp_file) :
  ∀ i (map map' : gmap jsstring Buffer) m m',
    map !! k = map' !! k →
    (∀ j f, files !! j = Some f →
       ((i + j)%nat ≠ pos → sameAnswers w w' (i + j)) ∧ ((i + j)%nat = pos → name f ≠ k)) →
    renderFrom w i files map = Normal m →
    renderFrom w' i files map' = Normal m' →
    m !! k = m' !! k.
Proof.
  induction files as [|f files IH]; intros i map map' m m' Hk Hfiles.
  - simpl. by intros [= <-] [= <-].
  - rewrite !renderFrom_cons. apply IH.
    + destruct (Hfiles 0%nat f eq_refl) as [Hsame Hname].
      rewrite Nat.add_0_r in Hsame, Hname.
      destruct (decide (i = pos)) as [Hi|Hi].
      * specialize (Hname Hi).
        destruct (contribution w i f), (contribution w' i f);
          rewrite ?lookup_insert_ne by done; done.
      * rewrite <- (contribution_sameAnswers w w' i f (Hsame Hi)).
        destruct (contribution w i f); [|done].
        destruct (decide (name f = k)) as [<-|Hne].
        -- by rewrite !lookup_insert_eq.
        -- by rewrite !lookup_insert_ne.
    + intros j f' Hj. specialize (Hfiles (S j) f' Hj).
      by replace (S i + j)%nat with (i + S j)%nat by lia.
Qed.

End RendererFacts.

(** C1.  The two loops of the reconciliation step, on a layout and on a
    quotation whose rows they get through: for every data row (of more
    than two values) and every product line the part number (data index
    2), resp. the part name, is converted to a string, lower-cased and
    compared with the lower-cased names of the uploaded CAD files in their
    order.  The first name that has it as a prefix overwrites the image
    slot (data index 1, resp. 零件图片) and nothing else; when no name has
    it as a prefix the row is left as extracted.  The value is a string,
    or any other truthy value under [String].  Part "P100" against
    "p100-rev2.png", "p200.png" resolves to "p100-rev2.png", in the loop
    and in the two workbooks the handler builds for an answer of the model
    with that part. *)
Theorem reconciler_prefix_match
    (toLowerCase : jsstring → jsstring) (stpInfo : list stp_file) :
  [] ∉ Reconciler.stpNames toLowerCase stpInfo →
  (∀ layout,
     Forall keyedItem layout →
     ∃ layout',
       Reconciler.attachLayout toLowerCase (Reconciler.stpNames toLowerCase stpInfo) layout
       = Normal layout'
       ∧ length layout' = length layout
       ∧ ∀ i ms l v s,
           layout !! i = Some (JObj ms) →
           assoc (u "type") ms = Some (JStr (u "main_table_data_row")) →
           assoc (u "data") ms = Some (JArr l) →
           l !! 2%nat = Some v →
           truthy (Some v) = true ∨ v = JStr [] →
           toString v = Normal s →
           (∀ n, firstStartingWith (Reconciler.stpNames toLowerCase stpInfo)
                   (toLowerCase s) n →
                 layout' !! i
                 = Some (JObj (assoc_set (u "data") (JArr (<[1%nat := JStr n]> l)) ms)))
           ∧ (noneStartsWith (Reconciler.stpNames toLowerCase stpInfo) (toLowerCase s) →
              layout' !! i = Some (JObj ms)))
  ∧ (∀ qs ps,
       assoc (u "products") qs = Some (JArr ps) →
       Forall keyedProduct ps →
       ∃ ps',
         Reconciler.attachQuotation toLowerCase (Reconciler.stpNames toLowerCase stpInfo)
           (JObj qs)
         = Normal (JObj (assoc_set (u "products") (JArr ps') qs))
         ∧ length ps' = length ps
         ∧ ∀ i ms v s,
             ps !! i = Some (JObj ms) →
             assoc (u "零件名") ms = Some v →
             truthy (Some v) = true ∨ v = JStr [] →
             toString v = Normal s →
             (∀ n, firstStartingWith (Reconciler.stpNames toLowerCase stpInfo)
                     (toLowerCase s) n →
                   ps' !! i = Some (JObj (assoc_set (u "零件图片") (JStr n) ms)))
             ∧ (noneStartsWith (Reconciler.stpNames toLowerCase stpInfo) (toLowerCase s) →
                ps' !! i = Some (JObj ms)))
  ∧ Reconciler.attachLayout asciiLowerCase
      (Reconciler.stpNames asciiLowerCase
         [Samples.upload "p100-rev2.png"; Samples.upload "p200.png"])
      [Samples.partRow "" "P100"; Samples.partRow "" "P300"]
    = Normal [Samples.partRow "p100-rev2.png" "P100"; Samples.partRow "" "P300"]
  ∧ (∃ prodBuf quoteBuf,
       Handler.process asciiLowerCase Samples.anyRange Samples.anyCell Samples.anyCell
         Samples.anyWorkbook None (Samples.oneGoodFile [] []) Samples.answer
         [Samples.upload "p100-rev2.png"; Samples.upload "p200.png"]
       = Normal (prodBuf, quoteBuf)
       ∧ prodBuf !! 2%nat
         = Some (SetRowValues 1
                   (Some (JArr [JNum 1; JStr (u "p100-rev2.png"); JStr (u "P100")])))
       ∧ addedRows quoteBuf !! 7%nat
         = Some (9%nat, [Some (JNum 1); Some (JStr (u "p100-rev2.png"));
                         Some (JStr (u "P100")); None; None; None; str ""; str ""; None])).
Proof.
  intros Hne.
  assert (∀ key n, firstStartingWith (Reconciler.stpNames toLowerCase stpInfo) key n →
            ∃ c m, n = c :: m
                   ∧ Reconciler.findMatch (Reconciler.stpNames toLowerCase stpInfo) key
                     = Some (c :: m)) as Hfirst.
  { intros key n Hn. pose proof Hn as (b & a & Hnames & _).
    apply findMatch_first in Hn. destruct n as [|c m]; [|by eauto].
    exfalso. apply Hne. rewrite Hnames. apply elem_of_app. right. apply list_elem_of_here. }
  split; [|split; [|split]].
  - intros layout Hkeyed.
    destruct (forEachM_normal
                (Reconciler.attachLayoutItem toLowerCase
                   (Reconciler.stpNames toLowerCase stpInfo)) layout) as [layout' Hloop].
    { eapply Forall_impl; [exact Hkeyed|]. intros item. apply attachLayoutItem_keyed. }
    exists layout'. split; [exact Hloop|].
    apply forEachM_lookup in Hloop as [Hlen Hrows]. split; [exact Hlen|].
    intros i ms l v s Hi Hty Hdata Hv Hstr Hs.
    destruct (Hrows i _ Hi) as (item' & -> & Hitem).
    rewrite (attachLayoutItem_row toLowerCase _ ms l v Hty Hdata Hv) in Hitem.
    rewrite (partKey_truthy toLowerCase v s Hstr Hs) in Hitem.
    cbn [mbind completion_bind bind] in Hitem. split.
    + intros n (c & m & -> & Hfind)%Hfirst. rewrite Hfind in Hitem. congruence.
    + intros Hnone%findMatch_none. rewrite Hnone in Hitem. congruence.
  - intros qs ps Hps Hkeyed.
    destruct (forEachM_normal
                (Reconciler.attachProduct toLowerCase
                   (Reconciler.stpNames toLowerCase stpInfo)) ps) as [ps' Hloop].
    { eapply Forall_impl; [exact Hkeyed|]. intros p. apply attachProduct_keyed. }
    exists ps'. split.
    { unfold Reconciler.attachQuotation. cbn [get mbind completion_bind bind].
      rewrite Hps, Hloop. done. }
    apply forEachM_lookup in Hloop as [Hlen Hrows]. split; [exact Hlen|].
    intros i ms v s Hi Hnm Hstr Hs.
    destruct (Hrows i _ Hi) as (p' & -> & Hp).
    rewrite attachProduct_obj, Hnm in Hp.
    rewrite (partKey_truthy toLowerCase v s Hstr Hs) in Hp.
    cbn [mbind completion_bind bind] in Hp. split.
    + intros n (c & m & -> & Hfind)%Hfirst. rewrite Hfind in Hp. congruence.
    + intros Hnone%findMatch_none. rewrite Hnone in Hp. congruence.
  - vm_compute. reflexivity.
  - eexists _, _. split; [vm_compute; reflexivity|]. split; vm_compute; reflexivity.
Qed.

(** The theorem at two uploads, "P100-REV2.STP" and "p200.stp", and a
    quotation of two product lines, named "P100" and "P300". *)
Lemma reconciler_prefix_match_witness :
  ∃ ps',
    Reconciler.attachQuotation asciiLowerCase
      (Reconciler.stpNames asciiLowerCase
         [Samples.upload "P100-REV2.STP"; Samples.upload "p200.stp"])
      (JObj [(u "products", JArr [Samples.product "[图片]" "P100";
                                  Samples.product "[图片]" "P300"])])
    = Normal (JObj [(u "products", JArr ps')])
    ∧ ps' !! 0%nat = Some (Samples.product "p100-rev2.stp" "P100")
    ∧ ps' !! 1%nat = Some (Samples.product "[图片]" "P300").
Proof.
  assert ([] ∉ Reconciler.stpNames asciiLowerCase
                 [Samples.upload "P100-REV2.STP"; Samples.upload "p200.stp"]) as Hne.
  { vm_compute. intros H. repeat (apply elem_of_cons in H as [H|H]; [discriminate|]).
    by apply elem_of_nil in H. }
  destruct (reconciler_prefix_match asciiLowerCase
              [Samples.upload "P100-REV2.STP"; Samples.upload "p200.stp"] Hne)
    as (_ & Hquotation & _ & _).
  destruct (Hquotation
              [(u "products", JArr [Samples.product "[图片]" "P100";
                                    Samples.product "[图片]" "P300"])]
              [Samples.product "[图片]" "P100"; Samples.product "[图片]" "P300"] eq_refl)
    as (ps' & Hrun & _ & Hrows).
  { repeat (apply Forall_cons; split); [| |by apply Forall_nil];
      (eexists; split; [reflexivity|]); intros v [= <-]; by eexists. }
  exists ps'. split; [exact Hrun|]. split.
  - unfold Samples.product in Hrows.
    destruct (Hrows 0%nat _ (JStr (u "P100")) (u "P100") eq_refl eq_refl
                (or_introl eq_refl) eq_refl) as [Hfound _].
    rewrite (Hfound (u "p100-rev2.stp")).
    + vm_compute. reflexivity.
    + exists [], [u "p200.stp"]. split; [vm_compute; reflexivity|]. split.
      * exists (u "-rev2.stp"). vm_compute. reflexivity.
      * intros m H. by apply elem_of_nil in H.
  - unfold Samples.product in Hrows.
    destruct (Hrows 1%nat _ (JStr (u "P300")) (u "P300") eq_refl eq_refl
                (or_introl eq_refl) eq_refl) as [_ Hnone].
    rewrite Hnone.
    + reflexivity.
    + intros m Hm [t Ht].
      vm_compute in Hm.
      repeat (apply elem_of_cons in Hm as [Hm|Hm]; [subst m; vm_compute in Ht; discriminate Ht|]).
      by apply elem_of_nil in Hm.
Defined.

(** C9, as the code has it.  An empty or missing part number does not
    always take the name of the first uploaded file: a data row of two
    values is passed over by the guard [item.data.length > 2], and the
    name that is written is the lower-cased one. *)
Lemma empty_part_number_counterexample :
  Reconciler.attachLayoutItem asciiLowerCase
    (Reconciler.stpNames asciiLowerCase [Samples.upload "bracket.stp"])
    (Samples.dataRow [JNum 1; JStr (u "[图片]")] 22)
  = Normal (Samples.dataRow [JNum 1; JStr (u "[图片]")] 22)
  ∧ Reconciler.attachLayoutItem asciiLowerCase
      (Reconciler.stpNames asciiLowerCase [Samples.upload "BRK-01.STP"])
      (Samples.dataRow [JNum 1; JStr (u "[图片]"); JStr []] 22)
    = Normal (Samples.dataRow [JNum 1; JStr (u "brk-01.stp"); JStr []] 22)
  ∧ u "brk-01.stp" ≠ name (Samples.upload "BRK-01.STP").
Proof. split; [|split]; vm_compute; [reflexivity | reflexivity | discriminate]. Qed.

(** C9, amended.  When at least one CAD file was uploaded and the
    lower-cased name of the first is not empty: a data row of more than two
    values whose part number (data index 2) is falsy (the empty string,
    null, false, 0) has its image slot overwritten with the lower-cased
    name of the first file; so has a product whose 零件名 is absent or
    falsy; a data row of at most two values is left as it is. *)
Theorem empty_part_number_takes_first_file
    (toLowerCase : jsstring → jsstring) (f : stp_file) (rest : list stp_file) :
  toLowerCase [] = [] →
  toLowerCase (name f) ≠ [] →
  (∀ ms l v,
     assoc (u "type") ms = Some (JStr (u "main_table_data_row")) →
     assoc (u "data") ms = Some (JArr l) →
     l !! 2%nat = Some v →
     truthy (Some v) = false →
     Reconciler.attachLayoutItem toLowerCase
       (Reconciler.stpNames toLowerCase (f :: rest)) (JObj ms)
     = Normal (JObj (assoc_set (u "data")
                       (JArr (<[1%nat := JStr (toLowerCase (name f))]> l)) ms)))
  ∧ (∀ ms l,
       assoc (u "data") ms = Some (JArr l) →
       (length l ≤ 2)%nat →
       Reconciler.attachLayoutItem toLowerCase
         (Reconciler.stpNames toLowerCase (f :: rest)) (JObj ms)
       = Normal (JObj ms))
  ∧ (∀ ms,
       truthy (assoc (u "零件名") ms) = false →
       Reconciler.attachProduct toLowerCase
         (Reconciler.stpNames toLowerCase (f :: rest)) (JObj ms)
       = Normal (JObj (assoc_set (u "零件图片") (JStr (toLowerCase (name f))) ms))).
Proof.
  intros Hnil Hname.
  assert (Reconciler.findMatch (Reconciler.stpNames toLowerCase (f :: rest)) (toLowerCase [])
          = Some (toLowerCase (name f))) as Hfind.
  { unfold Reconciler.findMatch. simpl. by rewrite Hnil, startsWith_nil. }
  split; [|split].
  - intros ms l v Hty Hdata Hv Hfalsy.
    rewrite (attachLayoutItem_row toLowerCase _ ms l v Hty Hdata Hv).
    rewrite (partKey_falsy toLowerCase _ Hfalsy). cbn [mbind completion_bind bind].
    rewrite Hfind. by destruct (toLowerCase (name f)).
  - intros ms l Hdata Hlen. by apply attachLayoutItem_short with l.
  - intros ms Hfalsy. rewrite attachProduct_obj.
    rewrite (partKey_falsy toLowerCase _ Hfalsy). cbn [mbind completion_bind bind].
    rewrite Hfind. by destruct (toLowerCase (name f)).
Qed.

(** The amended statement at the upload "BRK-01.STP" and a product
    without a part name. *)
Lemma empty_part_number_takes_first_file_witness :
  Reconciler.attachProduct asciiLowerCase
    (Reconciler.stpNames asciiLowerCase [Samples.upload "BRK-01.STP"])
    (JObj [(u "序号", JNum 1)])
  = Normal (JObj [(u "序号", JNum 1); (u "零件图片", JStr (u "brk-01.stp"))]).
Proof.
  destruct (empty_part_number_takes_first_file asciiLowerCase
              (Samples.upload "BRK-01.STP") [] eq_refl) as (_ & _ & Hproduct).
  - vm_compute. discriminate.
  - rewrite (Hproduct [(u "序号", JNum 1)] eq_refl). vm_compute. reflexivity.
Defined.

(** C6, on the code.  A data row whose image slot names an image of the map
    has the image anchored on column B of its row, and its height is set
    to 80; the assignment [row.height = item.height] behind the [switch]
    then replaces that height, so the row ends with the 22 its layout item
    declares; [wb] is the workbook that [writeBuffer] is called on. *)
Lemma production_order_image_row_height
    (mergeCellsAccepts : workbook → jsval → bool)
    (getCellAccepts rowGetCellAccepts : jsval → bool)
    (writeBuffer : workbook → completion unit) :
  ∃ wb,
    Emitters.buildProductionOrder mergeCellsAccepts getCellAccepts rowGetCellAccepts
      writeBuffer [Samples.partRow "p100.stp" "P100"] {[ u "p100.stp" := [137; 80; 78; 71] ]}
    = Emitters.written writeBuffer wb
    ∧ anchoredImages wb = [([137; 80; 78; 71], u "B1:B1")]
    ∧ heightsOf 1 wb = [hnum imageRowHeight; hnum 22]
    ∧ finalHeight 1 wb = Some (hnum 22).
Proof.
  eexists. split.
  - unfold Emitters.buildProductionOrder, Emitters.emitItems, Samples.partRow, Samples.dataRow.
    erewrite emitItem_with_image
      with (key := JStr (u "p100.stp")) (img := Bytes [137; 80; 78; 71]);
      reflexivity.
  - vm_compute. done.
Qed.

(** C7, on the code.  The image map is a plain object, and [images[key]]
    finds what the object inherits: for the image reference "constructor",
    which the map holds no bytes under, both emitters take the member
    [constructor] of [Object.prototype] for the image.  The production
    order hands it to [wb.addImage], anchors it on column B and sets the
    height to 80 before the height of the layout item; the quotation
    anchors it on row 9 and leaves the row with the height NaN, not 18.
    [wb] is the workbook that [writeBuffer] is then called on. *)
Lemma prototype_name_taken_for_image
    (mergeCellsAccepts : workbook → jsval → bool)
    (getCellAccepts rowGetCellAccepts : jsval → bool)
    (writeBuffer : workbook → completion unit) :
  (∅ : gmap jsstring Buffer) !! u "constructor" = None
  ∧ (∃ wb,
       Emitters.buildProductionOrder mergeCellsAccepts getCellAccepts rowGetCellAccepts
         writeBuffer [Samples.partRow "constructor" "P100"] ∅
       = Emitters.written writeBuffer wb
       ∧ media wb = [Inherited (u "constructor")]
       ∧ anchored wb = [(Inherited (u "constructor"), u "B1:B1")]
       ∧ heightsOf 1 wb = [hnum imageRowHeight; hnum 22])
  ∧ (∃ wb,
       Emitters.buildQuotation writeBuffer
         (JObj [(u "quote_number", JStr (u "Q-7"));
                (u "company_info", JObj [(u "party_a", JStr (u "A"));
                                         (u "party_b", JStr (u "B"))]);
                (u "products", JArr [Samples.product "constructor" "P100"])]) ∅
       = Emitters.written writeBuffer wb
       ∧ media wb = [Inherited (u "constructor")]
       ∧ anchored wb = [(Inherited (u "constructor"), u "B9:B9")]
       ∧ heightsOf 9 wb = [HNaN]).
Proof.
  split; [done|]. split.
  - eexists. split.
    + unfold Emitters.buildProductionOrder, Emitters.emitItems, Samples.partRow,
        Samples.dataRow.
      erewrite emitItem_with_image
        with (key := JStr (u "constructor")) (img := Inherited (u "constructor"));
        reflexivity.
    + vm_compute. done.
  - eexists. split.
    + match goal with
      | |- ?build = _ => let v := eval vm_compute in build in change build with v
      end.
      reflexivity.
    + vm_compute. done.
Qed.

(** C10.  Two quotation records that differ only in the unit price (单价)
    and line total (合计) of their products, the contact, telephone, fax,
    e-mail and address of party A, or the contact of party B give the same
    workbook.  The cells 单价 and 合计 of every product row are empty
    strings, the contact lines of party A are blank, and the contact line
    of party B is the constant 联系人:贾芳. *)
Theorem quotation_ignores_prices_and_contacts
    (writeBuffer : workbook → completion unit) (images : gmap jsstring Buffer) :
  (∀ q1 q2,
     publicPart q1 = publicPart q2 →
     Emitters.buildQuotation writeBuffer q1 images
     = Emitters.buildQuotation writeBuffer q2 images)
  ∧ (∀ calls last p calls' n,
       Emitters.emitProduct images calls last p = Normal (calls', n) →
       ∃ vs rest,
         calls' = calls ++ AddRow (S last) vs :: rest
         ∧ length vs = 9%nat
         ∧ vs !! 6%nat = Some (str "") ∧ vs !! 7%nat = Some (str ""))
  ∧ (∀ q wb,
       Emitters.buildQuotation writeBuffer q images = Normal wb →
       wb !! 10%nat
       = Some (AddRow 3 [str "联系人:"; str ""; str ""; str ""; str "联系人:贾芳"])
       ∧ ∃ tel fax email addr,
           wb !! 14%nat = Some (AddRow 4 [str "TEL:"; str ""; str ""; str ""; jstr tel])
           ∧ wb !! 18%nat = Some (AddRow 5 [str "FAX:"; str ""; str ""; str ""; jstr fax])
           ∧ wb !! 22%nat
             = Some (AddRow 6 [str "E-mail:"; str ""; str ""; str ""; jstr email])
           ∧ wb !! 26%nat
             = Some (AddRow 7 [str "地址:"; str ""; str ""; str ""; jstr addr])).
Proof.
  split; [|split].
  - intros q1 q2 Heq.
    by rewrite <- (buildQuotation_public writeBuffer q1),
         <- (buildQuotation_public writeBuffer q2), Heq.
  - intros calls last p calls' n H. by apply emitProduct_row in H as [_ H].
  - intros q wb. apply buildQuotation_company_block.
Qed.

(** The theorem at a quotation with prices and contacts and the same
    quotation without them. *)
Lemma quotation_ignores_prices_and_contacts_witness :
  Emitters.buildQuotation Samples.anyWorkbook
    (JObj [(u "quote_number", JStr (u "Q-7"));
           (u "company_info",
            JObj [(u "party_a", JStr (u "A")); (u "contact_a", JStr (u "Li"));
                  (u "tel_a", JStr (u "0571")); (u "party_b", JStr (u "B"));
                  (u "contact_b", JStr (u "Fu")); (u "tel_b", JStr (u "137"))]);
           (u "products",
            JArr [JObj [(u "序号", JNum 1); (u "零件名", JStr (u "P100"));
                        (u "单价", JNum 12); (u "合计", JNum 240)]])])
    ∅
  = Emitters.buildQuotation Samples.anyWorkbook
      (JObj [(u "quote_number", JStr (u "Q-7"));
             (u "company_info",
              JObj [(u "party_a", JStr (u "A")); (u "party_b", JStr (u "B"));
                    (u "tel_b", JStr (u "137"))]);
             (u "products",
              JArr [JObj [(u "序号", JNum 1); (u "零件名", JStr (u "P100"));
                          (u "单价", JStr (u "")); (u "合计", JStr (u ""))]])])
      ∅.
Proof.
  apply (proj1 (quotation_ignores_prices_and_contacts Samples.anyWorkbook ∅)).
  vm_compute. reflexivity.
Defined.

(** C8.  [renderStpFiles] never throws: it returns a map that has at most
    one entry for each input file, under the names of the input files.  A
    file whose rendering throws, or is answered with a status that is not
    ok, adds nothing and the loop goes on with the next file; and what the
    map holds under a name does not depend on how a file of another name
    fared. *)
Theorem renderStpFiles_never_throws
    (PYTHON_RENDERER_URL : option jsstring) (w : Renderer.world) (files : list stp_file) :
  ∃ m,
    Renderer.renderStpFiles PYTHON_RENDERER_URL w files = Normal m
    ∧ (size m ≤ length files)%nat
    ∧ (∀ k, is_Some (m !! k) → ∃ f, f ∈ files ∧ name f = k)
    ∧ (∀ i f rest (map : gmap jsstring Buffer),
         (∃ e, Renderer.renderOne w i f map = Throw e)
         ∨ (∃ buf res, Renderer.readFile w i (path f) = Renderer.Resolved buf
                       ∧ Renderer.fetch w i buf (name f) = Renderer.Resolved res
                       ∧ Renderer.ok res = false) →
         Renderer.renderFrom w i (f :: rest) map = Renderer.renderFrom w (S i) rest map)
    ∧ (∀ w' pos f k m',
         files !! pos = Some f →
         name f ≠ k →
         (∀ j, j ≠ pos → sameAnswers w w' j) →
         Renderer.renderStpFiles PYTHON_RENDERER_URL w' files = Normal m' →
         m !! k = m' !! k).
Proof.
  assert (∀ i f rest (map : gmap jsstring Buffer),
            (∃ e, Renderer.renderOne w i f map = Throw e)
            ∨ (∃ buf res, Renderer.readFile w i (path f) = Renderer.Resolved buf
                          ∧ Renderer.fetch w i buf (name f) = Renderer.Resolved res
                          ∧ Renderer.ok res = false) →
            Renderer.renderFrom w i (f :: rest) map = Renderer.renderFrom w (S i) rest map)
    as Hfail.
  { intros i f rest map Hf. by rewrite renderFrom_cons, (contribution_failed w i f map Hf). }
  unfold Renderer.renderStpFiles. destruct PYTHON_RENDERER_URL as [url|].
  - destruct (renderFrom_total w files 0 ∅) as (m & Hm & Hsize & Hdom).
    exists m. split; [done|]. split; [by rewrite map_size_empty in Hsize|].
    split; [|split; [done|]].
    + intros k Hk. destruct (Hdom k Hk) as [[? H]|H]; [|done].
      by rewrite lookup_empty in H.
    + intros w' pos f k m' Hpos Hname Hsame Hm'.
      apply (renderFrom_isolated w w' pos k files 0 ∅ ∅ m m'); try done.
      intros j f' Hj. simpl. split; [apply Hsame|]. intros ->. congruence.
  - exists ∅. split; [done|]. split; [rewrite map_size_empty; lia|].
    split; [|split; [done|]].
    + intros k [? H]. by rewrite lookup_empty in H.
    + by intros w' pos f k m' _ _ _ [= <-].
Qed.

(** The theorem at two uploads of which the renderer takes the first
    only. *)
Lemma renderStpFiles_never_throws_witness :
  ∃ m,
    Renderer.renderStpFiles (Some (u "http://localhost:5050/render"))
      (Samples.oneGoodFile (u "a.stp") [137; 80; 78; 71])
      [Samples.upload "a.stp"; Samples.upload "b.stp"]
    = Normal m
    ∧ (size m ≤ 2)%nat.
Proof.
  destruct (renderStpFiles_never_throws (Some (u "http://localhost:5050/render"))
              (Samples.oneGoodFile (u "a.stp") [137; 80; 78; 71])
              [Samples.upload "a.stp"; Samples.upload "b.stp"])
    as (m & Hm & Hsize & _).
  exists m. split; [exact Hm | exact Hsize].
Defined.

(** C3, as the code has it.  The repair pass works on the text, inside
    strings too: a well-formed literal with a semicolon in a string parses
    to another value behind it, and one with two slashes in a string does
    not parse behind it. *)
Lemma repair_changes_wellformed_literal :
  JSON.parse Samples.treatmentLiteral = Normal (JArr [JStr (u "喷砂;氧化")])
  ∧ JSON.parse (Extractor.clean Samples.treatmentLiteral) = Normal (JArr [JStr (u "喷砂氧化")])
  ∧ JSON.parse (Extractor.clean Samples.treatmentLiteral) ≠ JSON.parse Samples.treatmentLiteral
  ∧ JSON.parse Samples.linkLiteral = Normal (JArr [JStr (u "http://a/b.stp")])
  ∧ JSON.parse (Extractor.clean Samples.linkLiteral) = Throw JsSyntaxError.
Proof. repeat split; vm_compute; (reflexivity || discriminate). Qed.

(** C3, amended.  On a literal whose text holds no two slashes in a row,
    no single quote, no semicolon, no back-tick and no comma that only
    white space separates from a closing bracket or brace, and that
    neither begins nor ends with white space, the repair pass returns the
    text as it is, and so parsing behind it gives what parsing the
    literal gives. *)
Theorem repair_is_identity_on_plain_literals (s : jsstring) :
  ¬ occursIn [47; 47] s → 39 ∉ s → 59 ∉ s → 96 ∉ s →
  ¬ hasTrailingComma s → trimmed s →
  Extractor.clean s = s ∧ JSON.parse (Extractor.clean s) = JSON.parse s.
Proof.
  intros. assert (Extractor.clean s = s) as Hclean by (by apply clean_id).
  split; [done|]. by rewrite Hclean.
Qed.

(** The amended statement at the literal [[1, {"a": [true, null]}]]. *)
Lemma repair_is_identity_on_plain_literals_witness :
  JSON.parse (Extractor.clean (u "[1, {" ++ Samples.quoted "a" ++ u ": [true, null]}]"))
  = Normal (JArr [JNum 1; JObj [(u "a", JArr [JBool true; JNull])]]).
Proof.
  assert (∀ c : N, bool_decide (c ∈ u "[1, {" ++ Samples.quoted "a" ++ u ": [true, null]}]") = false
                   → c ∉ u "[1, {" ++ Samples.quoted "a" ++ u ": [true, null]}]") as Hnot.
  { intros c Hc. by apply bool_decide_eq_false in Hc. }
  destruct (repair_is_identity_on_plain_literals
              (u "[1, {" ++ Samples.quoted "a" ++ u ": [true, null]}]")) as [_ ->].
  - intros H%occursIn_elem. revert H. apply Hnot. vm_compute. reflexivity.
  - apply Hnot. vm_compute. reflexivity.
  - apply Hnot. vm_compute. reflexivity.
  - apply Hnot. vm_compute. reflexivity.
  - intros H%hasTrailingCommab_complete. vm_compute in H. discriminate.
  - split; intros c; vm_compute; intros [= <-]; reflexivity.
  - vm_compute. reflexivity.
Defined.

(** C4.  [extractStructures] throws exactly when the text, with its code
    fences taken away, does not hold both a literal assigned to
    [excelLayoutData] and one assigned to [quotationData]; what it throws
    is the [Error] with the message that the structures could not be
    extracted.  When both are there it returns the repaired text of the
    two located literals.  [JSON.parse] throws a [SyntaxError] on a
    malformed literal, which is another error. *)
Theorem extractStructures_not_found (txt : jsstring) :
  (Extractor.extractStructures txt = Throw (JsError Extractor.notFoundMessage)
   ↔ ¬ (containsLiteral (u "excelLayoutData") 91 93 (Extractor.stripFences txt)
        ∧ containsLiteral (u "quotationData") 123 125 (Extractor.stripFences txt)))
  ∧ (∀ e, Extractor.extractStructures txt = Throw e → e = JsError Extractor.notFoundMessage)
  ∧ Extractor.extractStructures txt ≠ Unmodelled
  ∧ (containsLiteral (u "excelLayoutData") 91 93 (Extractor.stripFences txt) →
     containsLiteral (u "quotationData") 123 125 (Extractor.stripFences txt) →
     ∃ a o,
       literalOf (u "excelLayoutData") 91 93 (Extractor.stripFences txt) a
       ∧ literalOf (u "quotationData") 123 125 (Extractor.stripFences txt) o
       ∧ Extractor.extractStructures txt = Normal (Extractor.clean a, Extractor.clean o))
  ∧ (∀ text e, JSON.parse text = Throw e →
       e = JsSyntaxError ∧ e ≠ JsError Extractor.notFoundMessage).
Proof.
  unfold Extractor.extractStructures.
  destruct (Extractor.arrMatch (Extractor.stripFences txt)) as [a|] eqn:Ea;
    [destruct (Extractor.objMatch (Extractor.stripFences txt)) as [o|] eqn:Eo|].
  - pose proof (arrMatch_sound _ _ Ea). pose proof (objMatch_sound _ _ Eo).
    split; [|split; [done|split; [done|split]]].
    + split; [done|]. intros Hnot. exfalso. apply Hnot. split; by eexists.
    + intros _ _. by exists a, o.
    + intros text e ->%parse_throws. done.
  - apply objMatch_none in Eo.
    split; [|split; [by intros e [= <-]|split; [done|split]]].
    + split; [|done]. by intros _ [_ H].
    + by intros _ H.
    + intros text e ->%parse_throws. done.
  - apply arrMatch_none in Ea.
    split; [|split; [by intros e [= <-]|split; [done|split]]].
    + split; [|done]. by intros _ [H _].
    + by intros H.
    + intros text e ->%parse_throws. done.
Qed.

(** C5, on the code.  Ten fully empty rows behind a row of data do not
    end the scan, though the comment at the [break] says that it stops
    at ten consecutive empty rows: with data in row 1, nothing in the
    rows 2 to 11 and data in row 12, row 12 is written out. *)
Lemma ten_empty_rows_counterexample :
  (∀ r c, (2 ≤ r ≤ 11)%nat → Normalizer.cellValue (Samples.twoRows 12) r c = Normalizer.CNull)
  ∧ Normalizer.scanSheet (Samples.twoRows 12)
    = ([(1%nat, [(1%nat, u "BRK-01")]); (12%nat, [(1%nat, u "BRK-02")])], true).
Proof.
  split; [|vm_compute; reflexivity].
  intros r c Hr. simpl.
  rewrite !bool_decide_eq_false_2 by lia. done.
Qed.

(** X25.  [parseExcelToText] scans a window of 200 rows by 50
    columns of each sheet: the transcript depends on the cells inside the
    windows only (and on the names and the merged ranges of the sheets),
    and every cell written lies in the window.  Once a row has been
    written, the scan of a sheet ends at a row [r] of which no cell is
    written when the ten rows behind it are inside the window and hold no
    value in the columns of the window, eleven rows in all, and no row
    behind [r] is written.  A row that has cells to write is written when
    every row before it has a value within the ten rows behind. *)
Theorem scan_window_and_stop :
  (∀ wb wb',
     Forall2 sameWindow wb wb' →
     Normalizer.parseExcelToText wb' = Normalizer.parseExcelToText wb)
  ∧ (∀ ws line,
       line ∈ (Normalizer.scanSheet ws).1 →
       (1 ≤ line.1 ≤ Normalizer.maxRow)%nat
       ∧ ∀ cell, cell ∈ line.2 → (1 ≤ cell.1 ≤ Normalizer.maxCol)%nat)
  ∧ (∀ ws r,
       (r + 10 ≤ Normalizer.maxRow)%nat →
       (∃ r0, (1 ≤ r0 < r)%nat ∧ Normalizer.rowCells ws r0 ≠ []) →
       Normalizer.rowCells ws r = [] →
       (∀ k c, (1 ≤ k ≤ 10)%nat → (1 ≤ c ≤ Normalizer.maxCol)%nat →
               Normalizer.hasValue (Normalizer.cellValue ws (r + k) c) = false) →
       ∀ line, line ∈ (Normalizer.scanSheet ws).1 → (line.1 < r)%nat)
  ∧ (∀ ws r,
       (1 ≤ r ≤ Normalizer.maxRow)%nat →
       Normalizer.rowCells ws r ≠ [] →
       (∀ r', (1 ≤ r' < r)%nat → valueWithinTen ws r') →
       (r, Normalizer.rowCells ws r) ∈ (Normalizer.scanSheet ws).1).
Proof.
  split; [|split; [|split]].
  - apply parseExcelToText_sameWindow.
  - intros ws line Hline. rewrite scanSheet_unfold in Hline.
    apply (scanRows_lines ws Normalizer.maxRow 1 false) in Hline as [[Hlo Hhi] Hcells].
    split; [split; [exact Hlo | apply Nat.lt_succ_r; exact Hhi]|].
    intros cell Hcell. rewrite Hcells in Hcell. exact (rowCells_columns _ _ _ Hcell).
  - intros ws r Hr (r0 & Hr0 & Hdata) Hrow Hempty. rewrite scanSheet_unfold.
    apply (scanRows_stop ws r Normalizer.maxRow 1 false).
    + clear -Hr0. lia.
    + right. exists r0. split; assumption.
    + exact Hrow.
    + rewrite (emptyRowCount_ten ws r Hr Hempty). apply Nat.le_refl.
  - intros ws r [Hlo Hhi] Hdata Hgap. rewrite scanSheet_unfold.
    apply (scanRows_emits ws r Normalizer.maxRow 1 false).
    + split; [exact Hlo | apply Nat.lt_succ_r; exact Hhi].
    + exact Hdata.
    + exact Hgap.
Qed.

(** The theorem at a sheet with data in row 1, nothing in the rows 2 to
    12 and data in row 13: the scan ends at row 2. *)
Lemma scan_window_and_stop_witness :
  Forall (fun line => line.1 < 2)%nat (Normalizer.scanSheet (Samples.twoRows 13)).1.
Proof.
  apply Forall_forall.
  apply (proj1 (proj2 (proj2 scan_window_and_stop)) (Samples.twoRows 13) 2%nat).
  - apply Nat.leb_le. reflexivity.
  - exists 1%nat. split; [lia|]. vm_compute. discriminate.
  - vm_compute. reflexivity.
  - intros k c Hk Hc. simpl. rewrite !bool_decide_eq_false_2 by lia. done.
Defined.




(** The theorem at an answer of the model that holds both structures. *)
Lemma extractStructures_not_found_witness :
  ∃ a o,
    literalOf (u "excelLayoutData") 91 93 (Extractor.stripFences Samples.answer) a
    ∧ literalOf (u "quotationData") 123 125 (Extractor.stripFences Samples.answer) o
    ∧ Extractor.extractStructures Samples.answer
      = Normal (Extractor.clean a, Extractor.clean o).
Proof.
  apply (proj1 (proj2 (proj2 (proj2 (extractStructures_not_found Samples.answer))))).
  - destruct (Extractor.arrMatch (Extractor.stripFences Samples.answer)) as [g|] eqn:E.
    + exists g. by apply arrMatch_sound.
    + vm_compute in E. discriminate.
  - destruct (Extractor.objMatch (Extractor.stripFences Samples.answer)) as [g|] eqn:E.
    + exists g. by apply objMatch_sound.
    + vm_compute in E. discriminate.
Defined.

(* ===================================================================== *)
(** * Part II, continued.  Further properties of the code               *)
(* ===================================================================== *)

(** ** The extractor, continued *)

Section ExtractorShape.
Import Extractor.

Lemma occursIn_cons_inv (p : jsstring) (c : N) (s : jsstring) :
  occursIn p (c :: s) → startsWith (c :: s) p = true ∨ occursIn p s.
Proof.
  intros ([|d pre] & post & H).
  - left. apply startsWith_spec. by exists post.
  - right. injection H as _ ->. by exists pre, post.
Qed.

Lemma stripFencesFrom_skip (s : jsstring) : ∀ k,
  stripFencesFrom k s = stripFencesFrom 0 (drop k s).
Proof.
  induction s as [|c s IH]; intros [|k]; try done. cbn [stripFencesFrom drop]. apply IH.
Qed.

Lemma fenceLength_none (s : jsstring) :
  startsWith s [96; 96; 96] = false → fenceLength s = 0%nat.
Proof. unfold fenceLength. by intros ->. Qed.

Lemma fenceLength_some (s : jsstring) (k : nat) :
  fenceLength s = S k → startsWith s [96; 96; 96] = true.
Proof. unfold fenceLength. by destruct (startsWith s [96; 96; 96]). Qed.

(** What is kept begins with no more back-ticks than the text did. *)
Lemma stripFences_ticks (s : jsstring) :
  (startsWith s [96] = false → startsWith (stripFencesFrom 0 s) [96] = false)
  ∧ (startsWith s [96; 96] = false → startsWith (stripFencesFrom 0 s) [96; 96] = false)
  ∧ (startsWith s [96; 96; 96] = false →
     startsWith (stripFencesFrom 0 s) [96; 96; 96] = false).
Proof.
  assert (∀ s, startsWith s [96] = false → startsWith (stripFencesFrom 0 s) [96] = false) as H1.
  { intros [|c t]; [done|]. intros Hc. cbn [stripFencesFrom].
    rewrite fenceLength_none.
    - cbn [startsWith] in *. destruct (96 =? c); [|done].
      by rewrite startsWith_nil in Hc.
    - cbn [startsWith] in *. destruct (96 =? c); [|done].
      by rewrite startsWith_nil in Hc. }
  assert (∀ s, startsWith s [96; 96] = false →
               startsWith (stripFencesFrom 0 s) [96; 96] = false) as H2.
  { intros [|c t]; [done|]. intros Hc. cbn [stripFencesFrom].
    rewrite fenceLength_none.
    - cbn [startsWith] in Hc |- *. destruct (96 =? c); [|done].
      cbn [andb] in *. apply (H1 t).
      destruct t as [|d t]; [done|]. exact Hc.
    - cbn [startsWith] in Hc |- *. destruct (96 =? c); [|done]. cbn [andb] in *.
      destruct t as [|d t]; [done|]. cbn [startsWith] in Hc |- *.
      destruct (96 =? d); [|done]. cbn [andb] in *.
      by rewrite startsWith_nil in Hc. }
  split; [apply H1|]. split; [apply H2|].
  destruct s as [|c t]; [done|]. intros Hc. cbn [stripFencesFrom].
  rewrite (fenceLength_none _ Hc).
  cbn [startsWith] in Hc |- *. destruct (96 =? c); [|done]. cbn [andb] in *.
  apply (H2 t). destruct t as [|d t]; [done|]. exact Hc.
Qed.

Lemma stripFencesFrom_no_fence (n : nat) : ∀ s,
  (length s ≤ n)%nat → ¬ occursIn [96; 96; 96] (stripFencesFrom 0 s).
Proof.
  induction n as [|n IH]; intros [|c s] Hlen; simpl in Hlen; try lia.
  - intros ([|? ?] & ? & ?); discriminate.
  - intros ([|? ?] & ? & ?); discriminate.
  - cbn [stripFencesFrom]. destruct (fenceLength (c :: s)) as [|k] eqn:E.
    + intros [Hstart|Hin]%occursIn_cons_inv.
      * assert (startsWith (c :: s) [96; 96; 96] = false) as Hno.
        { unfold fenceLength in E. destruct (startsWith (c :: s) [96; 96; 96]); [|done].
          by repeat destruct (startsWith _ _). }
        apply (proj2 (proj2 (stripFences_ticks (c :: s)))) in Hno.
        cbn [stripFencesFrom] in Hno. rewrite E in Hno. congruence.
      * revert Hin. apply IH. lia.
    + rewrite stripFencesFrom_skip. apply IH. rewrite length_drop. lia.
Qed.

Lemma stripFences_fixed (s : jsstring) :
  ¬ occursIn [96; 96; 96] s → stripFences s = s.
Proof.
  unfold stripFences. induction s as [|c s IH]; [done|]. intros Hno.
  cbn [stripFencesFrom]. rewrite fenceLength_none.
  - f_equal. apply IH. intros H. by apply Hno, occursIn_cons.
  - apply not_true_is_false. intros [t Ht]%startsWith_spec. apply Hno. by exists [], t.
Qed.

(** The passes of [clean] behind the second one only take code units
    away. *)
Lemma dropTrailingCommas_sub (s : jsstring) : ∀ k c,
  c ∈ dropTrailingCommas k s → c ∈ s.
Proof.
  induction s as [|d s IH]; intros k c; [done|]. cbn [dropTrailingCommas].
  assert (∀ k, c ∈ dropTrailingCommas k s → c ∈ d :: s) as Hskip.
  { intros k' H. apply list_elem_of_further. by apply (IH k'). }
  assert (c ∈ d :: dropTrailingCommas 0 s → c ∈ d :: s) as Hkeep.
  { intros [->|H]%elem_of_cons; [apply list_elem_of_here|by apply (Hskip 0%nat)]. }
  destruct k as [|k]; [|apply Hskip].
  destruct (d =? 44); [destruct (trailingComma s)|]; [apply Hskip|apply Hkeep..].
Qed.

Lemma trimStart_sub (c : N) (s : jsstring) : c ∈ trimStart s → c ∈ s.
Proof.
  destruct (trimStart_split s) as (w & Hs & _). intros H. rewrite Hs.
  apply elem_of_app. by right.
Qed.

Lemma elem_of_rev (c : N) (s : jsstring) : c ∈ rev s ↔ c ∈ s.
Proof. rewrite !list_elem_of_In. symmetry. apply in_rev. Qed.

Lemma trim_sub (c : N) (s : jsstring) : c ∈ trim s → c ∈ s.
Proof.
  unfold trim. intros H. apply (proj1 (elem_of_rev _ _)), trimStart_sub in H.
  apply (proj1 (elem_of_rev _ _)) in H. by apply trimStart_sub.
Qed.

Lemma trimStart_snoc (l : jsstring) (c : N) :
  is_space c = false → trimStart (l ++ [c]) = trimStart l ++ [c].
Proof.
  intros Hc. induction l as [|d l IH]; simpl; [by rewrite Hc|].
  by destruct (is_space d).
Qed.

(** [trim] leaves no white space at either end. *)
Lemma trim_trimmed (s : jsstring) : trimmed (trim s).
Proof.
  unfold trim.
  destruct (trimStart_split s) as (w & Hs & _ & _ & Hhead).
  destruct (trimStart_split (rev (trimStart s))) as (w' & Hs' & Hw' & _ & Hhead').
  split.
  - intros c. rewrite head_rev.
    destruct (trimStart (rev (trimStart s))) as [|d b] eqn:E; [done|].
    intros Hc. apply Hhead.
    rewrite <- (rev_involutive (trimStart s)), head_rev, Hs', last_app, Hc. done.
  - intros c. rewrite <- head_rev, rev_involutive. apply Hhead'.
Qed.

Lemma trim_head (c : N) (s : jsstring) :
  is_space c = false → head (trim (c :: s)) = Some c.
Proof.
  intros Hc. unfold trim. cbn [trimStart]. rewrite Hc. cbn [rev].
  rewrite trimStart_snoc by done. by rewrite rev_unit.
Qed.

(** The repair pass keeps the bracket a literal begins with. *)
Lemma clean_head (c : N) (s : jsstring) :
  is_space c = false → c ≠ 47 → c ≠ 39 → c ≠ 44 → c ≠ 59 → c ≠ 96 →
  head (clean (c :: s)) = Some c.
Proof.
  intros Hsp H47 H39 H44 H59 H96. unfold clean, doubleQuotes, dropTerminators.
  cbn [stripComments]. rewrite (proj2 (N.eqb_neq c 47)) by done. cbn [andb List.map].
  rewrite (proj2 (N.eqb_neq c 39)) by done. cbn [dropTrailingCommas].
  rewrite (proj2 (N.eqb_neq c 44)) by done. cbn [List.filter].
  rewrite (proj2 (N.eqb_neq c 59)), (proj2 (N.eqb_neq c 96)) by done. cbn [orb negb].
  by apply trim_head.
Qed.

End ExtractorShape.

Section ParseShape.
Import JSON.

(** A text that begins with a bracket parses to an array, one that begins
    with a brace to an object, if it parses. *)
Lemma parse_bracket (s : jsstring) (v : json) :
  parse (91 :: s) = Normal v → ∃ l, v = JArr l.
Proof.
  unfold parse. rewrite Nat.add_succ_r.
  cbn [parseValue skipWs]. change (isJsonSpace 91) with false. cbv iota.
  change (91 =? 110) with false. change (91 =? 116) with false.
  change (91 =? 102) with false. change (91 =? 34) with false.
  change (91 =? 45) with false. change (91 =? 91) with true. cbv iota.
  destruct (startsWith (skipWs s) [93]).
  - cbn [mbind completion_bind bind]. destruct (skipWs (drop 1 (skipWs s))); [|done].
    intros [= <-]. by eexists.
  - destruct (parseElements _ s) as [[l r]| |]; cbn [mbind completion_bind bind]; [|done..].
    destruct (skipWs r); [|done]. intros [= <-]. by eexists.
Qed.

Lemma parse_brace (s : jsstring) (v : json) :
  parse (123 :: s) = Normal v → ∃ ms, v = JObj ms.
Proof.
  unfold parse. rewrite Nat.add_succ_r.
  cbn [parseValue skipWs]. change (isJsonSpace 123) with false. cbv iota.
  change (123 =? 110) with false. change (123 =? 116) with false.
  change (123 =? 102) with false. change (123 =? 34) with false.
  change (123 =? 45) with false. change (123 =? 91) with false.
  change (123 =? 123) with true. cbv iota.
  destruct (startsWith (skipWs s) [125]).
  - cbn [mbind completion_bind bind]. destruct (skipWs (drop 1 (skipWs s))); [|done].
    intros [= <-]. by eexists.
  - destruct (parseMembers _ [] s) as [[l r]| |]; cbn [mbind completion_bind bind]; [|done..].
    destruct (skipWs r); [|done]. intros [= <-]. by eexists.
Qed.

End ParseShape.

(** X1.  After [txt.replace(/```(?:javascript|js|python)?|```/g, '')] no
    run of three back-ticks is left in the text; a text without such a run
    is returned as it is, and so stripping twice is stripping once. *)
Theorem stripFences_leaves_no_fence (txt : jsstring) :
  ¬ occursIn [96; 96; 96] (Extractor.stripFences txt)
  ∧ Extractor.stripFences (Extractor.stripFences txt) = Extractor.stripFences txt.
Proof.
  assert (¬ occursIn [96; 96; 96] (Extractor.stripFences txt)) as H.
  { by apply (stripFencesFrom_no_fence (length txt)). }
  split; [exact H|]. by apply stripFences_fixed.
Qed.

(** X2.  Whatever text [clean] is given, the text it returns holds no
    single quote, no semicolon and no back-tick, and neither begins nor
    ends with white space. *)
Theorem clean_output (s : jsstring) :
  (39 ∉ Extractor.clean s) ∧ (59 ∉ Extractor.clean s) ∧ (96 ∉ Extractor.clean s)
  ∧ trimmed (Extractor.clean s).
Proof.
  unfold Extractor.clean. split; [|split; [|split]].
  - intros H%trim_sub. unfold Extractor.dropTerminators in H.
    apply list_elem_of_In, filter_In in H as [H%list_elem_of_In _].
    apply dropTrailingCommas_sub in H. unfold Extractor.doubleQuotes in H.
    apply list_elem_of_In, in_map_iff in H as (c & Hc & _).
    destruct (c =? 39) eqn:E; [done|]. by apply N.eqb_neq in E.
  - intros H%trim_sub. unfold Extractor.dropTerminators in H.
    by apply list_elem_of_In, filter_In in H as [_ H].
  - intros H%trim_sub. unfold Extractor.dropTerminators in H.
    by apply list_elem_of_In, filter_In in H as [_ H].
  - apply trim_trimmed.
Qed.

(** X3.  The two texts [extractStructures] returns begin with the bracket
    resp. the brace of their literal, so that what [JSON.parse] makes of
    them, when it makes anything, is an array for the layout and an
    object for the quotation. *)
Theorem extracted_structures_kind (txt a o : jsstring) :
  Extractor.extractStructures txt = Normal (a, o) →
  head a = Some 91 ∧ head o = Some 123
  ∧ (∀ v, JSON.parse a = Normal v → ∃ l, v = JArr l)
  ∧ (∀ v, JSON.parse o = Normal v → ∃ ms, v = JObj ms).
Proof.
  unfold Extractor.extractStructures.
  destruct (Extractor.arrMatch _) as [g|] eqn:Ea; [|done].
  destruct (Extractor.objMatch _) as [g'|] eqn:Eo; [|done].
  intros [= <- <-].
  apply arrMatch_sound in Ea as (? & ? & ? & ? & body & ? & _ & _ & _ & _ & _ & ->).
  apply objMatch_sound in Eo as (? & ? & ? & ? & body' & ? & _ & _ & _ & _ & _ & ->).
  pose proof (clean_head 91 (body ++ [93]) eq_refl) as Ha.
  pose proof (clean_head 123 (body' ++ [125]) eq_refl) as Ho.
  specialize (Ha ltac:(done) ltac:(done) ltac:(done) ltac:(done) ltac:(done)).
  specialize (Ho ltac:(done) ltac:(done) ltac:(done) ltac:(done) ltac:(done)).
  split; [exact Ha|]. split; [exact Ho|]. split.
  - destruct (Extractor.clean (91 :: body ++ [93])) as [|c t]; [done|].
    injection Ha as ->. apply parse_bracket.
  - destruct (Extractor.clean (123 :: body' ++ [125])) as [|c t]; [done|].
    injection Ho as ->. apply parse_brace.
Qed.

(** The theorem at an answer of the model between fences. *)
Lemma extracted_structures_kind_witness :
  ∃ a o, Extractor.extractStructures Samples.answer = Normal (a, o)
         ∧ head a = Some 91 ∧ head o = Some 123.
Proof.
  destruct (Extractor.extractStructures Samples.answer) as [[a o]| |] eqn:E;
    [|vm_compute in E; discriminate..].
  destruct (extracted_structures_kind Samples.answer a o E) as (Ha & Ho & _).
  exists a, o. split; [reflexivity|]. split; [exact Ha | exact Ho].
Defined.

(** ** The reconciler, continued *)

Section ReconcilerShape.
Import Reconciler.
Variable toLowerCase : jsstring -> jsstring.

Lemma assoc_set_same {V} (k : jsstring) (v : V) (ms : list (jsstring * V)) :
  assoc k ms = Some v → assoc_set k v ms = ms.
Proof.
  induction ms as [|[k' v'] ms IH]; [done|]. simpl.
  destruct (str_eqb k k') eqn:E.
  - apply str_eqb_eq in E as ->. by intros [= ->].
  - intros H. by rewrite IH.
Qed.

Lemma findMatch_elem (names : list jsstring) (key n : jsstring) :
  findMatch names key = Some n → n ∈ names.
Proof. unfold findMatch. intros [H _]%find_some. by apply list_elem_of_In. Qed.

Lemma forEachM_id {A} (body : A → completion A) (xs xs' : list A) :
  (∀ x x', body x = Normal x' → x' = x) →
  forEachM body xs = Normal xs' → xs' = xs.
Proof.
  intros Hbody. revert xs'. induction xs as [|x xs IH]; intros xs'; simpl.
  - by intros [= <-].
  - destruct (body x) as [x'| |] eqn:E; simpl; [|done..].
    destruct (forEachM body xs) as [r| |]; simpl; [|done..].
    intros [= <-]. by rewrite (Hbody x x' E), (IH r eq_refl).
Qed.

(** What the loop body can do to a layout item: nothing, or write a name
    of [names] that is not empty at index 1 of its [data]. *)
Lemma attachLayoutItem_cases (names : list jsstring) (item item' : json) :
  attachLayoutItem toLowerCase names item = Normal item' →
  item' = item
  ∨ ∃ ms d d' n,
      item = JObj ms ∧ assoc (u "data") ms = Some d ∧ n ∈ names ∧ n ≠ []
      ∧ set_index d 1 (JStr n) = Normal d'
      ∧ item' = JObj (assoc_set (u "data") d' ms).
Proof.
  unfold attachLayoutItem. intros H.
  destruct (get item (u "type")) as [ty| |]; cbn [mbind completion_bind bind] in H; [|done..].
  destruct (strict_eq_str ty _); [|left; congruence].
  destruct (get item (u "data")) as [[d|]| |] eqn:Edata;
    cbn [mbind completion_bind bind] in H; [| |done..]; [|left; congruence].
  destruct (truthy (Some d)); [|left; congruence].
  destruct (get d (u "length")) as [len| |]; cbn [mbind completion_bind bind] in H; [|done..].
  destruct (gt_num len 2) as [[|]| |]; cbn [mbind completion_bind bind] in H;
    [| |done..]; [|left; congruence].
  destruct (index d 2) as [v| |]; cbn [mbind completion_bind bind] in H; [|done..].
  destruct (partKey toLowerCase v) as [partNum| |]; cbn [mbind completion_bind bind] in H;
    [|done..].
  destruct (findMatch names _) as [[|c m]|] eqn:Ef; [left; congruence| |left; congruence].
  apply findMatch_elem in Ef.
  destruct (set_index d 1 (JStr (c :: m))) as [d'| |] eqn:Eset;
    cbn [mbind completion_bind bind] in H; [|done..].
  destruct item as [| | | | |ms]; try done. injection H as <-.
  right. exists ms, d, d', (c :: m). simpl in Edata. injection Edata as Edata. done.
Qed.

Lemma attachProduct_cases (names : list jsstring) (p p' : json) :
  attachProduct toLowerCase names p = Normal p' →
  p' = p
  ∨ ∃ ms n,
      p = JObj ms ∧ n ∈ names ∧ n ≠ []
      ∧ p' = JObj (assoc_set (u "零件图片") (JStr n) ms).
Proof.
  unfold attachProduct. intros H.
  destruct (get p (u "零件名")) as [v| |]; cbn [mbind completion_bind bind] in H; [|done..].
  destruct (partKey toLowerCase v) as [partNum| |]; cbn [mbind completion_bind bind] in H;
    [|done..].
  destruct (findMatch names _) as [[|c m]|] eqn:Ef; [left; congruence| |left; congruence].
  apply findMatch_elem in Ef.
  destruct p as [| | | | |ms]; try done. injection H as <-.
  right. by exists ms, (c :: m).
Qed.

Lemma attachLayout_no_names (layout layout' : list json) :
  attachLayout toLowerCase [] layout = Normal layout' → layout' = layout.
Proof.
  apply forEachM_id. intros x x' [->|(? & ? & ? & ? & _ & _ & Hn & _)]%attachLayoutItem_cases;
    [done|]. by apply elem_of_nil in Hn.
Qed.

Lemma attachQuotation_no_names (q q' : json) :
  attachQuotation toLowerCase [] q = Normal q' → q' = q.
Proof.
  unfold attachQuotation. intros H.
  destruct (get q (u "products")) as [ps| |] eqn:Eps;
    cbn [mbind completion_bind bind] in H; [|done..].
  destruct ps as [[| | | |l|]|]; try congruence.
  destruct (forEachM _ l) as [l'| |] eqn:El; cbn [mbind completion_bind bind] in H; [|done..].
  apply forEachM_id in El as ->.
  - destruct q as [| | | | |ms]; try done. injection H as <-.
    simpl in Eps. injection Eps as Eps. by rewrite assoc_set_same.
  - intros x x' [->|(? & ? & _ & Hn & _)]%attachProduct_cases; [done|].
    by apply elem_of_nil in Hn.
Qed.

End ReconcilerShape.

(** X4.  When no CAD file was uploaded the reconciliation changes
    nothing: if the two loops of [POST] get through the layout and the
    quotation, both are as [JSON.parse] returned them. *)
Theorem reconciler_without_uploads (toLowerCase : jsstring → jsstring) :
  (∀ layout layout',
     Reconciler.attachLayout toLowerCase (Reconciler.stpNames toLowerCase []) layout
     = Normal layout' →
     layout' = layout)
  ∧ (∀ quotation quotation',
       Reconciler.attachQuotation toLowerCase (Reconciler.stpNames toLowerCase []) quotation
       = Normal quotation' →
       quotation' = quotation).
Proof.
  split.
  - apply attachLayout_no_names.
  - apply attachQuotation_no_names.
Qed.

(** The theorem at a quotation of one product line. *)
Lemma reconciler_without_uploads_witness :
  Reconciler.attachQuotation asciiLowerCase (Reconciler.stpNames asciiLowerCase [])
    (JObj [(u "quote_number", JStr (u "Q-7"));
           (u "products", JArr [Samples.product "[图片]" "P100"])])
  = Normal (JObj [(u "quote_number", JStr (u "Q-7"));
                  (u "products", JArr [Samples.product "[图片]" "P100"])]).
Proof.
  destruct (Reconciler.attachQuotation asciiLowerCase (Reconciler.stpNames asciiLowerCase [])
              (JObj [(u "quote_number", JStr (u "Q-7"));
                     (u "products", JArr [Samples.product "[图片]" "P100"])]))
    as [q'| |] eqn:E.
  - f_equal. exact (proj2 (reconciler_without_uploads asciiLowerCase) _ _ E).
  - vm_compute in E. discriminate.
  - vm_compute in E. discriminate.
Defined.

(** X5.  The reconciliation writes nothing but a name of an uploaded
    file, lower-cased and not empty, and writes it nowhere but in the image
    slot: a layout item comes back as it was or with that name at index 1
    of its [data]; a product line comes back as it was or with that name
    under 零件图片. *)
Theorem reconciler_writes_upload_names
    (toLowerCase : jsstring → jsstring) (stpInfo : list stp_file) :
  (∀ item item',
     Reconciler.attachLayoutItem toLowerCase (Reconciler.stpNames toLowerCase stpInfo) item
     = Normal item' →
     item' = item
     ∨ ∃ ms d d' f,
         item = JObj ms ∧ assoc (u "data") ms = Some d
         ∧ f ∈ stpInfo ∧ toLowerCase (name f) ≠ []
         ∧ set_index d 1 (JStr (toLowerCase (name f))) = Normal d'
         ∧ item' = JObj (assoc_set (u "data") d' ms))
  ∧ (∀ p p',
       Reconciler.attachProduct toLowerCase (Reconciler.stpNames toLowerCase stpInfo) p
       = Normal p' →
       p' = p
       ∨ ∃ ms f,
           p = JObj ms ∧ f ∈ stpInfo ∧ toLowerCase (name f) ≠ []
           ∧ p' = JObj (assoc_set (u "零件图片") (JStr (toLowerCase (name f))) ms)).
Proof.
  assert (∀ n, n ∈ Reconciler.stpNames toLowerCase stpInfo →
               ∃ f, f ∈ stpInfo ∧ n = toLowerCase (name f)) as Hnames.
  { intros n (f & <- & Hf)%list_elem_of_In%in_map_iff.
    exists f. split; [by apply list_elem_of_In|done]. }
  split.
  - intros item item' [->|(ms & d & d' & n & -> & Hd & Hn & Hne & Hset & ->)]%attachLayoutItem_cases;
      [by left|].
    destruct (Hnames n Hn) as (f & Hf & ->). right. by exists ms, d, d', f.
  - intros p p' [->|(ms & n & -> & Hn & Hne & ->)]%attachProduct_cases; [by left|].
    destruct (Hnames n Hn) as (f & Hf & ->). right. by exists ms, f.
Qed.

(** The theorem at the upload "BRK-01.STP" and a data row for the part
    "brk". *)
Lemma reconciler_writes_upload_names_witness :
  ∃ f, f ∈ [Samples.upload "BRK-01.STP"]
       ∧ Reconciler.attachLayoutItem asciiLowerCase
           (Reconciler.stpNames asciiLowerCase [Samples.upload "BRK-01.STP"])
           (Samples.partRow "" "brk")
         = Normal (Samples.partRow "brk-01.stp" "brk")
       ∧ u "brk-01.stp" = asciiLowerCase (name f).
Proof.
  destruct (proj1 (reconciler_writes_upload_names asciiLowerCase [Samples.upload "BRK-01.STP"])
              (Samples.partRow "" "brk") (Samples.partRow "brk-01.stp" "brk"))
    as [H|(ms & d & d' & f & _ & _ & Hf & _)].
  - vm_compute. reflexivity.
  - vm_compute in H. discriminate.
  - exists f. split; [exact Hf|]. split; [vm_compute; reflexivity|].
    apply list_elem_of_singleton in Hf. rewrite Hf. vm_compute. reflexivity.
Defined.

(** ** The calls of a workbook *)

Section CallFacts.

Lemma heightsOf_app (r : nat) (a b : workbook) :
  heightsOf r (a ++ b) = heightsOf r a ++ heightsOf r b.
Proof. apply omap_app. Qed.

Lemma heightCalls_app (a b : workbook) : heightCalls (a ++ b) = heightCalls a ++ heightCalls b.
Proof. apply omap_app. Qed.

Lemma addedRows_app (a b : workbook) : addedRows (a ++ b) = addedRows a ++ addedRows b.
Proof. apply omap_app. Qed.

Lemma media_app (a b : workbook) : media (a ++ b) = media a ++ media b.
Proof. apply omap_app. Qed.

Lemma anchoredIn_app (bufs : list member) (a b : workbook) :
  anchoredIn bufs (a ++ b) = anchoredIn bufs a ++ anchoredIn bufs b.
Proof. apply omap_app. Qed.

Lemma anchored_eq (calls : workbook) : anchored calls = anchoredIn (media calls) calls.
Proof. reflexivity. Qed.

Lemma nextImageId_media (calls : workbook) : nextImageId calls = length (media calls).
Proof.
  unfold nextImageId, media. induction calls as [|o calls IH]; [done|].
  destruct o; simpl; by rewrite ?IH.
Qed.

Lemma nextImageId_app (a b : workbook) : nextImageId (a ++ b) = (nextImageId a + nextImageId b)%nat.
Proof. by rewrite !nextImageId_media, media_app, length_app. Qed.

(** The heights of a row are among the assignments to [row.height]. *)
Lemma heightsOf_heightCalls (r : nat) (calls : workbook) :
  heightsOf r calls
  = omap (fun p => if bool_decide (p.1 = r) then Some p.2 else None) (heightCalls calls).
Proof.
  unfold heightsOf, heightCalls. induction calls as [|o calls IH]; [done|].
  destruct o; cbn [omap list_omap]; try done.
  cbn [fst snd]. destruct (bool_decide _); by rewrite IH.
Qed.

Lemma heightsOf_none (r : nat) (calls : workbook) : heightCalls calls = [] → heightsOf r calls = [].
Proof. intros H. by rewrite heightsOf_heightCalls, H. Qed.

Lemma noImage_media (ops : workbook) : forallb noImage ops = true → media ops = [].
Proof.
  induction ops as [|o ops IH]; [done|]. simpl. intros [Ho Hops]%andb_true_iff.
  destruct o; try done; by apply IH.
Qed.

Lemma noImage_anchoredIn (bufs : list member) (ops : workbook) :
  forallb noImage ops = true → anchoredIn bufs ops = [].
Proof.
  induction ops as [|o ops IH]; [done|]. simpl. intros [Ho Hops]%andb_true_iff.
  destruct o; try done; by apply IH.
Qed.

Lemma linked_noImage (ops : workbook) : forallb noImage ops = true → linked ops.
Proof.
  intros H more. by rewrite anchored_eq, !noImage_anchoredIn by done.
Qed.

(** Calls that add and anchor no image leave the images as they are. *)
Lemma linked_plain (calls ops : workbook) :
  linked calls → forallb noImage ops = true →
  linked (calls ++ ops)
  ∧ anchored (calls ++ ops) = anchored calls
  ∧ media (calls ++ ops) = media calls.
Proof.
  intros Hl Hops.
  assert (media (calls ++ ops) = media calls) as Hm.
  { rewrite media_app, (noImage_media ops) by done. apply app_nil_r. }
  assert (∀ more, anchoredIn (media calls ++ more) (calls ++ ops) = anchored calls) as H.
  { intros more. rewrite anchoredIn_app, Hl, (noImage_anchoredIn _ ops) by done.
    apply app_nil_r. }
  split; [|split; [|done]].
  - intros more. rewrite anchored_eq, !Hm, H.
    rewrite <- (app_nil_r (media calls)) at 1. by rewrite H.
  - rewrite anchored_eq, Hm. rewrite <- (app_nil_r (media calls)) at 1. by rewrite H.
Qed.

(** [wb.addImage] and then [ws.addImage] with the id it returned add one
    anchored image, the one just added. *)
Lemma linked_image (calls : workbook) (b : member) (ext range : jsstring) :
  linked calls →
  linked (calls ++ [WbAddImage b ext; WsAddImage (nextImageId calls) range])
  ∧ anchored (calls ++ [WbAddImage b ext; WsAddImage (nextImageId calls) range])
    = anchored calls ++ [(b, range)]
  ∧ media (calls ++ [WbAddImage b ext; WsAddImage (nextImageId calls) range])
    = media calls ++ [b].
Proof.
  intros Hl.
  assert (media (calls ++ [WbAddImage b ext; WsAddImage (nextImageId calls) range])
          = media calls ++ [b]) as Hm by (by rewrite media_app).
  assert (∀ more, anchoredIn ((media calls ++ [b]) ++ more)
                    (calls ++ [WbAddImage b ext; WsAddImage (nextImageId calls) range])
                  = anchored calls ++ [(b, range)]) as H.
  { intros more. rewrite anchoredIn_app, <- app_assoc, Hl. f_equal.
    unfold anchoredIn. cbn [omap list_omap]. rewrite nextImageId_media.
    rewrite lookup_app_r by done. by rewrite Nat.sub_diag. }
  split; [|split; [|done]].
  - intros more. rewrite anchored_eq, !Hm, H.
    rewrite <- (app_nil_r (media calls ++ [b])) at 1. by rewrite H.
  - rewrite anchored_eq, Hm. rewrite <- (app_nil_r (media calls ++ [b])) at 1.
    by rewrite H.
Qed.

End CallFacts.

(** ** The production order, row by row *)

Section ProductionFacts.
Import Emitters.
Variable mergeCellsAccepts : workbook -> jsval -> bool.
Variable getCellAccepts : jsval -> bool.
Variable rowGetCellAccepts : jsval -> bool.

Local Abbreviation emitItem := (emitItem mergeCellsAccepts getCellAccepts rowGetCellAccepts).
Local Abbreviation emitItems := (emitItems mergeCellsAccepts getCellAccepts rowGetCellAccepts).

Lemma emitCells_shape (r : nat) (cells : list json) : ∀ calls calls',
  emitCells rowGetCellAccepts calls r cells = Normal calls' →
  ∃ ops, calls' = calls ++ ops ∧ forallb noImage ops = true ∧ heightCalls ops = [].
Proof.
  induction cells as [|c cells IH]; intros calls calls'; cbn [emitCells].
  - intros [= <-]. exists []. by rewrite app_nil_r.
  - destruct (get c (u "col_letter")) as [col| |]; cbn [mbind completion_bind bind]; [|done..].
    destruct (rowGetCellAccepts col); [|done].
    destruct (get c (u "value")) as [v| |]; cbn [mbind completion_bind bind]; [|done..].
    intros (ops & -> & Hops & Hh)%IH. exists (SetRowCell r col v :: ops).
    by rewrite <- app_assoc.
Qed.

(** A value that is the literal of one [case] is not that of another. *)
Lemma strict_eq_str_other (ty : jsval) (a b : jsstring) :
  strict_eq_str ty a = true → a ≠ b → strict_eq_str ty b = false.
Proof.
  destruct ty as [[| | |s| |]|]; try done. simpl.
  intros ->%str_eqb_eq Hne. by apply str_eqb_ne.
Qed.

Lemma get_normal (item : json) (k : jsstring) : item ≠ JNull → ∃ v, get item k = Normal v.
Proof.
  destruct item; try done; intros _; simpl; try (by eexists).
  - destruct (str_eqb _ _); by eexists.
  - destruct (str_eqb _ _); by eexists.
Qed.

Lemma get_not_null (item : json) (k : jsstring) (v : jsval) : get item k = Normal v → item ≠ JNull.
Proof. by destruct item. Qed.

(** What the body of the loop adds to the calls: calls that set no height
    and touch no image, then for a data row with an image the image, its
    anchor on column B and a height, then the height of the item. *)
Lemma emitItem_shape (images : gmap jsstring Buffer) calls r item calls' :
  emitItem images calls r item = Normal calls' →
  ∃ ops tail h,
    calls' = calls ++ ops ++ tail ++ [SetRowHeight r (HVal h)]
    ∧ forallb noImage ops = true ∧ heightCalls ops = []
    ∧ get item (u "height") = Normal h
    ∧ match dataRowImage images item with
      | Some b =>
        ∃ h', tail = [WbAddImage b (u "png"); WsAddImage (nextImageId calls) (cellB r);
                      SetRowHeight r h']
      | None => tail = []
      end.
Proof.
  unfold Emitters.emitItem, dataRowImage. intros H.
  destruct (get item (u "type")) as [ty| |] eqn:Ety;
    cbn [mbind completion_bind bind] in H; [|done..].
  destruct (get_normal item (u "data") (get_not_null _ _ _ Ety)) as [data Edata].
  rewrite Edata.
  destruct (strict_eq_str ty (u "title_row")) eqn:E1.
  { rewrite (strict_eq_str_other ty _ (u "main_table_data_row") E1) by (by vm_compute).
    unfold emitTitleRow in H.
    destruct (get item (u "merge_cells")) as [mc| |];
      cbn [mbind completion_bind bind] in H; [|done..].
    destruct (mergeCellsAccepts calls mc); [|done].
    destruct (secondOfRange mc) as [addr| |]; cbn [mbind completion_bind bind] in H; [|done..].
    destruct (getCellAccepts addr); [|done].
    destruct (get item (u "text")) as [text| |]; cbn [mbind completion_bind bind] in H; [|done..].
    destruct (get item (u "height")) as [h| |]; cbn [mbind completion_bind bind] in H; [|done..].
    injection H as <-. exists [MergeCells mc; SetCellValue addr text], [], h.
    by rewrite <- !app_assoc. }
  destruct (strict_eq_str ty (u "header_detail_row")) eqn:E2.
  { rewrite (strict_eq_str_other ty _ (u "main_table_data_row") E2) by (by vm_compute).
    unfold emitHeaderDetailRow in H.
    destruct (get item (u "cells")) as [[[| | | |cs|]|]| |];
      cbn [mbind completion_bind bind] in H; try done.
    destruct (emitCells _ _ _ _) as [calls1| |] eqn:Ecells;
      cbn [mbind completion_bind bind] in H; [|done..].
    apply emitCells_shape in Ecells as (ops & -> & Hops & Hh).
    destruct (get item (u "height")) as [h| |]; cbn [mbind completion_bind bind] in H; [|done..].
    injection H as <-. exists ops, [], h. by rewrite <- !app_assoc. }
  destruct (strict_eq_str ty (u "main_table_header_row") || strict_eq_str ty (u "main_table_data_row"))
    eqn:E3.
  2:{ apply orb_false_iff in E3 as [_ ->].
      destruct (get item (u "height")) as [h| |]; cbn [mbind completion_bind bind] in H; [|done..].
      injection H as <-. exists [], [], h. done. }
  unfold emitTableRow in H. rewrite Edata in H.
  destruct (get item (u "headers")) as [headers| |];
    cbn [mbind completion_bind bind] in H; [|done..].
  destruct (strict_eq_str ty (u "main_table_data_row")).
  2:{ destruct (get item (u "height")) as [h| |]; cbn [mbind completion_bind bind] in H; [|done..].
      injection H as <-. exists [SetRowValues r (or_else headers data)], [], h.
      by rewrite <- !app_assoc. }
  destruct (indexV data 1) as [key| |]; cbn [mbind completion_bind bind] in H; [|done..].
  destruct (truthy key).
  2:{ destruct (get item (u "height")) as [h| |]; cbn [mbind completion_bind bind] in H; [|done..].
      injection H as <-. exists [SetRowValues r (or_else headers data)], [], h.
      by rewrite <- !app_assoc. }
  unfold imageOf.
  destruct (readImage images key) as [[img|]| |]; cbn [mbind completion_bind bind] in H;
    [| |done..].
  2:{ destruct (get item (u "height")) as [h| |]; cbn [mbind completion_bind bind] in H; [|done..].
      injection H as <-. exists [SetRowValues r (or_else headers data)], [], h.
      by rewrite <- !app_assoc. }
  destruct (mathMax _ 80) as [h'| |]; cbn [mbind completion_bind bind] in H; [|done..].
  destruct (get item (u "height")) as [h| |]; cbn [mbind completion_bind bind] in H; [|done..].
  injection H as <-.
  exists [SetRowValues r (or_else headers data)],
         [WbAddImage img (u "png");
          WsAddImage (nextImageId (calls ++ [SetRowValues r (or_else headers data)])) (cellB r);
          SetRowHeight r h'], h.
  split; [by rewrite <- !app_assoc|]. split; [done|]. split; [done|]. split; [done|].
  exists h'. rewrite nextImageId_app. simpl. by rewrite Nat.add_0_r.
Qed.

(** The loop over the layout, from row [r] on. *)
Lemma emitItems_shape (images : gmap jsstring Buffer) (layout : list json) :
  ∀ calls r wb,
    emitItems images calls r layout = Normal wb →
    linked calls →
    linked wb
    ∧ anchored wb = anchored calls ++ imagesFrom (dataRowImage images) r layout
    ∧ media wb = media calls ++ (imagesFrom (dataRowImage images) r layout).*1
    ∧ (∃ ops, wb = calls ++ ops
              ∧ ∀ r', (r' < r ∨ r + length layout ≤ r')%nat → heightsOf r' ops = [])
    ∧ (∀ i item, layout !! i = Some item →
         ∃ h, get item (u "height") = Normal h
              ∧ finalHeight (r + i) wb = Some (HVal h)).
Proof.
  induction layout as [|item layout IH]; intros calls r wb; cbn [Emitters.emitItems].
  - intros [= <-] Hl. simpl. rewrite !app_nil_r. split; [done|]. split; [done|].
    split; [done|]. split; [exists []; by rewrite app_nil_r|]. done.
  - destruct (emitItem images calls r item) as [calls1| |] eqn:E;
      cbn [mbind completion_bind bind]; [|done..].
    intros Hrest Hl.
    apply emitItem_shape in E as (ops & tail & h & -> & Hops & Hh & Hheight & Htail).
    assert (linked (calls ++ ops ++ tail ++ [SetRowHeight r (HVal h)])
            ∧ anchored (calls ++ ops ++ tail ++ [SetRowHeight r (HVal h)])
              = anchored calls
                ++ match dataRowImage images item with
                   | Some b => [(b, cellB r)]
                   | None => []
                   end
            ∧ media (calls ++ ops ++ tail ++ [SetRowHeight r (HVal h)])
              = media calls
                ++ match dataRowImage images item with Some b => [b] | None => [] end
            ∧ ∀ r', r' ≠ r → heightsOf r' (ops ++ tail ++ [SetRowHeight r (HVal h)]) = [])
      as (Hl1 & Ha1 & Hm1 & Hh1).
    { destruct (linked_plain calls ops Hl Hops) as (Hl0 & Ha0 & Hm0).
      destruct (dataRowImage images item) as [b|].
      - destruct Htail as [h' ->].
        replace (nextImageId calls) with (nextImageId (calls ++ ops))
          by (by rewrite !nextImageId_media, Hm0).
        destruct (linked_image (calls ++ ops) b (u "png") (cellB r) Hl0) as (Hl' & Ha' & Hm').
        destruct (linked_plain _ [SetRowHeight r h'; SetRowHeight r (HVal h)] Hl' eq_refl)
          as (Hl'' & Ha'' & Hm'').
        rewrite <- !app_assoc in Hl'', Ha'', Hm''. cbn [app] in Hl'', Ha'', Hm'' |- *.
        rewrite !app_assoc in Hl'', Ha'', Hm'' |- *. rewrite <- !app_assoc in Hl'', Ha'', Hm'' |- *.
        cbn [app] in Hl'', Ha'', Hm'' |- *.
        split; [exact Hl''|]. split; [by rewrite Ha'', Ha', Ha0|].
        split; [by rewrite Hm'', Hm', Hm0|].
        intros r' Hr'. rewrite heightsOf_app, (heightsOf_none _ _ Hh). simpl.
        by rewrite !bool_decide_eq_false_2 by done.
      - subst tail. cbn [app].
        destruct (linked_plain _ [SetRowHeight r (HVal h)] Hl0 eq_refl) as (Hl'' & Ha'' & Hm'').
        rewrite <- !app_assoc in Hl'', Ha'', Hm''.
        split; [exact Hl''|]. split; [by rewrite Ha'', Ha0, app_nil_r|].
        split; [by rewrite Hm'', Hm0, app_nil_r|].
        intros r' Hr'. rewrite heightsOf_app, (heightsOf_none _ _ Hh). simpl.
        by rewrite bool_decide_eq_false_2 by done. }
    destruct (IH _ _ _ Hrest Hl1) as (Hl2 & Ha2 & Hm2 & (ops2 & -> & Hh2) & Hfinal).
    split; [exact Hl2|]. split; [|split; [|split]].
    + rewrite Ha2, Ha1, <- app_assoc. cbn [imagesFrom].
      by destruct (dataRowImage images item).
    + rewrite Hm2, Hm1, <- app_assoc. cbn [imagesFrom].
      by destruct (dataRowImage images item).
    + exists ((ops ++ tail ++ [SetRowHeight r (HVal h)]) ++ ops2).
      split; [by rewrite <- !app_assoc|].
      intros r' Hr'. cbn [length] in Hr'. rewrite heightsOf_app, Hh1, Hh2; [done|lia|lia].
    + intros [|i] item' Hitem'.
      * injection Hitem' as <-. exists h. split; [done|]. rewrite Nat.add_0_r.
        unfold finalHeight. rewrite !app_assoc, heightsOf_app, Hh2 by lia.
        rewrite app_nil_r, heightsOf_app. simpl. rewrite bool_decide_eq_true_2 by done.
        by rewrite last_snoc.
      * destruct (Hfinal i item' Hitem') as (h0 & Hh0 & Hf0). exists h0. split; [done|].
        by rewrite Nat.add_succ_r.
Qed.

Variable writeBuffer : workbook -> completion unit.

(** The production order that is built is the workbook of the loop. *)
Lemma buildProductionOrder_inv (layout : list json) (images : gmap jsstring Buffer) wb :
  buildProductionOrder mergeCellsAccepts getCellAccepts rowGetCellAccepts writeBuffer
    layout images = Normal wb →
  emitItems images productionSheet 1 layout = Normal wb.
Proof.
  unfold buildProductionOrder, written.
  destruct (emitItems images productionSheet 1 layout) as [calls| |];
    cbn [mbind completion_bind bind]; [|done..].
  destruct (writeBuffer calls); cbn [mbind completion_bind bind]; [|done..].
  by intros [= <-].
Qed.

End ProductionFacts.

(** ** The quotation, row by row *)

Section QuotationFacts.
Import Emitters.
Variable writeBuffer : workbook -> completion unit.

Local Abbreviation buildQuotation := (buildQuotation writeBuffer).

Lemma get_field (p : json) (k : string) : p ≠ JNull → get p (u k) = Normal (field p k).
Proof. unfold field. intros H. by destruct (get_normal p (u k) H) as [v ->]. Qed.

Lemma fresh_heightsOf (last : nat) (calls : workbook) (r : nat) :
  fresh last calls → (last < r)%nat → heightsOf r calls = [].
Proof. intros H. apply H. Qed.

(** A product line that is emitted, on a row that has no height yet. *)
Lemma emitProduct_inv (images : gmap jsstring Buffer) calls row p calls' n :
  emitProduct images calls row p = Normal (calls', n) →
  heightsOf (S row) calls = [] →
  p ≠ JNull
  ∧ calls' = calls ++ productCalls images (nextImageId calls) (S row) p
  ∧ S n = rowBehind images (S row) p.
Proof.
  intros H Hfresh.
  assert (p ≠ JNull) as Hp by (by intros ->).
  split; [done|]. revert H.
  unfold emitProduct, productCalls, rowBehind, productImage, productValues, imageOf.
  rewrite !(get_field p _ Hp). cbn [mbind completion_bind bind].
  destruct (readImage images _) as [[buf|]| |]; cbn [mbind completion_bind bind];
    [| |done..].
  - unfold rowHeight, finalHeight. rewrite !heightsOf_app, Hfresh.
    cbn [heightsOf omap list_omap app last default mathMax mbind completion_bind bind].
    rewrite nextImageId_app. cbn [nextImageId List.filter length]. rewrite Nat.add_0_r.
    intros [= <- <-]. by rewrite <- !app_assoc.
  - intros [= <- <-]. by rewrite <- !app_assoc.
Qed.

Lemma productCalls_heights (images : gmap jsstring Buffer) id n p r :
  r ≠ n → heightsOf r (productCalls images id n p) = [].
Proof.
  intros Hr. unfold productCalls. destruct (productImage images p); simpl;
    by rewrite bool_decide_eq_false_2 by done.
Qed.

Lemma productCalls_nextImageId (images : gmap jsstring Buffer) id n p :
  nextImageId (productCalls images id n p)
  = match productImage images p with Some _ => 1%nat | None => 0%nat end.
Proof. unfold productCalls. by destruct (productImage images p). Qed.

Lemma rowBehind_le (images : gmap jsstring Buffer) n p : (S n ≤ rowBehind images n p)%nat.
Proof. unfold rowBehind. destruct (productImage images p); lia. Qed.

(** The product lines that are emitted, from a row that is the last to
    have a height. *)
Lemma emitProducts_inv (images : gmap jsstring Buffer) (ps : list json) :
  ∀ calls last calls' n,
    emitProducts images calls last ps = Normal (calls', n) →
    fresh last calls →
    (JNull ∉ ps)
    ∧ calls' = calls ++ productsCalls images (nextImageId calls) (S last) ps
    ∧ S n = rowBehindAll images (S last) ps.
Proof.
  induction ps as [|p ps IH]; intros calls last calls' n;
    cbn [emitProducts productsCalls rowBehindAll].
  - intros [= <- <-] _. rewrite app_nil_r. split; [by intros ?%elem_of_nil|done].
  - destruct (emitProduct images calls last p) as [[calls1 n1]| |] eqn:E;
      cbn [mbind completion_bind bind]; [|done..].
    intros Hrest Hfresh.
    apply emitProduct_inv in E as (Hp & -> & Hn1); [|apply Hfresh; lia].
    pose proof (rowBehind_le images (S last) p) as Hle.
    apply IH in Hrest as (Hps & -> & Hn).
    + split; [by apply not_elem_of_cons|].
      rewrite nextImageId_app, productCalls_nextImageId, <- app_assoc, Hn1 in *.
      split; [|done]. do 2 f_equal.
      destruct (productImage images p); f_equal; lia.
    + intros r Hr. rewrite heightsOf_app, (Hfresh r) by lia.
      by rewrite productCalls_heights by lia.
Qed.

Lemma productRows_length (images : gmap jsstring Buffer) (ps : list json) : ∀ n,
  length (productRows images n ps) = length ps.
Proof. induction ps as [|p ps IH]; intros n; [done|]. simpl. by rewrite IH. Qed.

Lemma productsCalls_heightCalls (images : gmap jsstring Buffer) (ps : list json) : ∀ id n,
  heightCalls (productsCalls images id n ps)
  = zip (productRows images n ps) (productHeight images <$> ps).
Proof.
  induction ps as [|p ps IH]; intros id n; [done|]. cbn [productsCalls productRows].
  rewrite heightCalls_app, IH. cbn [fmap list_fmap zip zip_with].
  unfold productCalls, productHeight at 2.
  by destruct (productImage images p).
Qed.

Lemma productsCalls_addedRows (images : gmap jsstring Buffer) (ps : list json) : ∀ id n,
  addedRows (productsCalls images id n ps)
  = zip (productRows images n ps) (productValues <$> ps).
Proof.
  induction ps as [|p ps IH]; intros id n; [done|]. cbn [productsCalls productRows].
  rewrite addedRows_app, IH. cbn [fmap list_fmap zip zip_with].
  unfold productCalls. by destruct (productImage images p).
Qed.

(** The rows in closed form: an image before a line moves it one row
    down. *)
Lemma rowBehindAll_count (images : gmap jsstring Buffer) (ps : list json) : ∀ n,
  rowBehindAll images n ps = (n + length ps + length (withImage images ps))%nat.
Proof.
  induction ps as [|p ps IH]; intros n; cbn [rowBehindAll withImage List.filter length].
  - lia.
  - rewrite IH. unfold rowBehind, withImage.
    destruct (productImage images p); cbn [bool_decide decide_rel is_Some length]; simpl; lia.
Qed.

Lemma productRows_lookup (images : gmap jsstring Buffer) (ps : list json) : ∀ n i,
  (i < length ps)%nat →
  productRows images n ps !! i = Some (n + i + length (withImage images (take i ps)))%nat.
Proof.
  induction ps as [|p ps IH]; intros n i Hi; [simpl in Hi; lia|].
  destruct i as [|i]; cbn [productRows lookup list_lookup take withImage List.filter length].
  - f_equal. lia.
  - simpl in Hi. rewrite IH by lia. f_equal. unfold rowBehind, withImage.
    destruct (productImage images p); simpl; lia.
Qed.

Lemma productsCalls_linked (images : gmap jsstring Buffer) (ps : list json) : ∀ calls n,
  linked calls →
  linked (calls ++ productsCalls images (nextImageId calls) n ps)
  ∧ anchored (calls ++ productsCalls images (nextImageId calls) n ps)
    = anchored calls ++ productImages images n ps
  ∧ media (calls ++ productsCalls images (nextImageId calls) n ps)
    = media calls ++ (productImages images n ps).*1.
Proof.
  induction ps as [|p ps IH]; intros calls n Hl; cbn [productsCalls productImages].
  - by rewrite !app_nil_r.
  - unfold productCalls, rowBehind.
    destruct (linked_plain calls [AddRow n (productValues p)] Hl eq_refl) as (Hl0 & Ha0 & Hm0).
    assert (nextImageId (calls ++ [AddRow n (productValues p)]) = nextImageId calls) as Hid0.
    { rewrite nextImageId_app. cbn [nextImageId List.filter length]. lia. }
    destruct (productImage images p) as [b|].
    + destruct (linked_image _ b (u "png") (cellB n) Hl0) as (Hl1 & Ha1 & Hm1).
      rewrite Hid0 in Hl1, Ha1, Hm1.
      destruct (linked_plain _ [SetRowHeight n HNaN] Hl1 eq_refl) as (Hl2 & Ha2 & Hm2).
      rewrite <- !app_assoc in Hl2, Ha2, Hm2. cbn [app] in Hl2, Ha2, Hm2.
      destruct (IH _ (S (S n)) Hl2) as (Hl3 & Ha3 & Hm3).
      assert (nextImageId (calls ++ [AddRow n (productValues p); WbAddImage b (u "png");
                                     WsAddImage (nextImageId calls) (cellB n);
                                     SetRowHeight n HNaN])
              = S (nextImageId calls)) as Hid.
      { rewrite nextImageId_app. cbn [nextImageId List.filter length]. lia. }
      rewrite Hid in Hl3, Ha3, Hm3. rewrite <- !app_assoc in Hl3, Ha3, Hm3.
      cbn [app] in Hl3, Ha3, Hm3 |- *.
      split; [exact Hl3|]. split.
      * rewrite Ha3, Ha2, Ha1, Ha0. by rewrite <- app_assoc.
      * rewrite Hm3, Hm2, Hm1, Hm0. by rewrite <- app_assoc.
    + destruct (linked_plain _ [SetRowHeight n (hnum 18)] Hl0 eq_refl) as (Hl2 & Ha2 & Hm2).
      rewrite <- !app_assoc in Hl2, Ha2, Hm2. cbn [app] in Hl2, Ha2, Hm2.
      destruct (IH _ (S n) Hl2) as (Hl3 & Ha3 & Hm3).
      assert (nextImageId (calls ++ [AddRow n (productValues p); SetRowHeight n (hnum 18)])
              = nextImageId calls) as Hid.
      { rewrite nextImageId_app. cbn [nextImageId List.filter length]. lia. }
      rewrite Hid in Hl3, Ha3, Hm3. rewrite <- !app_assoc in Hl3, Ha3, Hm3.
      cbn [app] in Hl3, Ha3, Hm3 |- *.
      split; [exact Hl3|]. split.
      * by rewrite Ha3, Ha2, Ha0.
      * by rewrite Hm3, Hm2, Hm0.
Qed.

(** The workbook of a quotation that is built: the record is an object
    with a company block and an array of product lines none of which is
    [null], and the calls are those before the product lines, those of
    the product lines, and those behind them. *)
Lemma buildQuotation_inv (images : gmap jsstring Buffer) (q : json) (wb : workbook) :
  buildQuotation q images = Normal wb →
  ∃ ms ci ps pre post,
    q = JObj ms ∧ assoc (u "company_info") ms = Some ci ∧ ci ≠ JNull
    ∧ assoc (u "products") ms = Some (JArr ps) ∧ (JNull ∉ ps)
    ∧ wb = pre ++ productsCalls images 0 9 ps ++ post
    ∧ forallb noImage pre = true ∧ forallb noImage post = true
    ∧ heightCalls pre = zip (seq 1 8) (hnum 28 :: replicate 6 (hnum 18) ++ [hnum 22])
    ∧ (addedRows pre).*1 = seq 2 7
    ∧ heightCalls post
      = zip (seq (rowBehindAll images 9 ps) 8) (replicate 7 (hnum 18) ++ [hnum 20])
    ∧ (addedRows post).*1 = seq (rowBehindAll images 9 ps) 8.
Proof.
  unfold Emitters.buildQuotation. intros H.
  destruct q as [| |z|t|l|ms];
    [exfalso; revert H; cbn [get]; eval_str_eqb;
     cbn [toStringV mbind completion_bind bind getV]; done..|].
  cbn [get mbind completion_bind bind] in H.
  destruct (toStringV (assoc (u "quote_number") ms)) as [number| |];
    cbn [mbind completion_bind bind] in H; [|done..].
  destruct (assoc (u "company_info") ms) as [ci|] eqn:Hci; [|done].
  assert (ci ≠ JNull) as Hnull by (by intros ->).
  cbn [getV] in H. rewrite !(get_field ci _ Hnull) in H.
  cbn [mbind completion_bind bind] in H.
  repeat match type of H with
  | context [toStringV ?x] =>
    destruct (toStringV x); cbn [mbind completion_bind bind] in H; [|done..]
  end.
  cbn [addInfoRows] in H.
  destruct (assoc (u "products") ms) as [[| | | |ps|]|] eqn:Hps; try done.
  match type of H with
  | context [emitProducts images ?c 8 ps] => set (pre := c) in H
  end.
  assert (fresh 8 pre) as Hfresh.
  { intros r Hr. subst pre. unfold heightsOf. cbn [omap list_omap app].
    by rewrite !bool_decide_eq_false_2 by lia. }
  destruct (emitProducts images pre 8 ps) as [[calls n]| |] eqn:E;
    cbn [mbind completion_bind bind] in H; [|done..].
  apply emitProducts_inv in E as (Hno & -> & Hn); [|done].
  change (nextImageId pre) with 0%nat in H.
  repeat match type of H with
  | context [toStringV ?x] =>
    destruct (toStringV x); cbn [mbind completion_bind bind] in H; [|done..]
  end.
  cbn [addInfoLines] in H. unfold written in H.
  destruct (writeBuffer _); cbn [mbind completion_bind bind] in H; [|done..].
  injection H as <-.
  exists ms, ci, ps, pre. eexists.
  split; [done|]. split; [done|]. split; [done|]. split; [done|]. split; [done|].
  split; [rewrite <- !app_assoc; reflexivity|].
  rewrite <- Hn. subst pre. repeat split; reflexivity.
Qed.

End QuotationFacts.

Section RowFacts.

Lemma zip_app_seq {A} (rows rows' : list nat) (xs ys : list A) :
  length rows = length xs →
  zip rows xs ++ zip rows' ys = zip (rows ++ rows') (xs ++ ys).
Proof. intros H. by rewrite zip_with_app. Qed.

End RowFacts.

(** X6.  The reconciler writes the lower-cased name of an upload in the
    image slot, and [renderStpFiles] files the image under the name as it
    was uploaded.  When the lower-cased name of an upload is the name of no
    upload ("P100.STP" alone) and of no member of [Object.prototype], and
    no upload is named [__proto__], the image map gives nothing for it,
    and a data row or product line that has it in its image slot is
    emitted without an image, however the rendering went. *)
Theorem lower_cased_name_misses_image
    (toLowerCase : jsstring → jsstring)
    (mergeCellsAccepts : workbook → jsval → bool)
    (getCellAccepts rowGetCellAccepts : jsval → bool)
    (PYTHON_RENDERER_URL : option jsstring) (w : Renderer.world)
    (files : list stp_file) (f : stp_file) (imageMap : gmap jsstring Buffer) :
  f ∈ files →
  (∀ f', f' ∈ files → name f' ≠ toLowerCase (name f) ∧ name f' ≠ u "__proto__") →
  toLowerCase (name f) ∉ Emitters.prototypeNames →
  Renderer.renderStpFiles PYTHON_RENDERER_URL w files = Normal imageMap →
  toLowerCase (name f) ∈ Reconciler.stpNames toLowerCase files
  ∧ imageMap !! toLowerCase (name f) = None
  ∧ Emitters.readImage imageMap (Some (JStr (toLowerCase (name f)))) = Normal None
  ∧ (∀ calls r ms l,
       assoc (u "type") ms = Some (JStr (u "main_table_data_row")) →
       assoc (u "data") ms = Some (JArr l) →
       l !! 1%nat = Some (JStr (toLowerCase (name f))) →
       Emitters.emitItem mergeCellsAccepts getCellAccepts rowGetCellAccepts
         imageMap calls r (JObj ms)
       = Normal (calls ++ [SetRowValues r (or_else (assoc (u "headers") ms) (Some (JArr l)));
                           SetRowHeight r (HVal (assoc (u "height") ms))]))
  ∧ (∀ calls last ms,
       assoc (u "零件图片") ms = Some (JStr (toLowerCase (name f))) →
       toLowerCase (name f) ≠ [] →
       Emitters.emitProduct imageMap calls last (JObj ms)
       = Normal (calls ++ [AddRow (S last) (productValues (JObj ms));
                           SetRowHeight (S last) (hnum 18)],
                 S last)).
Proof.
  intros Hf Hnames Hproto Hm.
  assert (∀ k, (∀ f', f' ∈ files → name f' ≠ k) → imageMap !! k = None) as Hnone.
  { intros k Hk. destruct (imageMap !! k) as [b|] eqn:E; [|done]. exfalso.
    unfold Renderer.renderStpFiles in Hm. destruct PYTHON_RENDERER_URL.
    - destruct (renderFrom_total w files 0 ∅) as (m & Hm' & _ & Hdom).
      rewrite Hm' in Hm. injection Hm as ->.
      destruct (Hdom k) as [[? H]|(f' & Hf' & Hname)]; [by eexists| |].
      + by rewrite lookup_empty in H.
      + by apply (Hk f').
    - injection Hm as <-. by rewrite lookup_empty in E. }
  assert (Emitters.readImage imageMap (Some (JStr (toLowerCase (name f)))) = Normal None)
    as Hread.
  { unfold Emitters.readImage. cbn [toStringV toString mbind completion_bind bind].
    rewrite (Hnone (u "__proto__")) by (intros f' Hf'; by apply Hnames).
    rewrite (Hnone (toLowerCase (name f))) by (intros f' Hf'; by apply Hnames).
    by rewrite bool_decide_eq_false_2. }
  split; [|split; [|split; [done|split]]].
  - unfold Reconciler.stpNames. apply list_elem_of_In, in_map_iff. exists f.
    split; [done|]. by apply list_elem_of_In.
  - apply Hnone. intros f' Hf'. by apply Hnames.
  - intros calls r ms l Hty Hdata Hslot.
    apply emitItem_without_image; [done..|]. right. by rewrite Hslot.
  - intros calls last ms Himg Hne.
    rewrite emitProduct_without_image; [done|]. rewrite Himg. unfold or_else.
    destruct (toLowerCase (name f)); done.
Qed.

(** The theorem at the upload "P100.STP", which renders to an image. *)
Lemma lower_cased_name_misses_image_witness :
  Renderer.renderStpFiles (Some (u "http://localhost:5050/render"))
    (Samples.oneGoodFile (u "P100.STP") [137; 80; 78; 71]) [Samples.upload "P100.STP"]
  = Normal {[ u "P100.STP" := [137; 80; 78; 71] ]}
  ∧ Emitters.emitItem Samples.anyRange Samples.anyCell Samples.anyCell
      {[ u "P100.STP" := [137; 80; 78; 71] ]} [] 1 (Samples.partRow "p100.stp" "P100")
    = Normal [SetRowValues 1
                (Some (JArr [JNum 1; JStr (u "p100.stp"); JStr (u "P100"); JStr (u "bracket");
                             JStr (u ""); JStr (u "6061"); JStr (u "20"); JStr (u "");
                             JStr (u "anodise")]));
              SetRowHeight 1 (hnum 22)].
Proof.
  assert (Renderer.renderStpFiles (Some (u "http://localhost:5050/render"))
            (Samples.oneGoodFile (u "P100.STP") [137; 80; 78; 71]) [Samples.upload "P100.STP"]
          = Normal {[ u "P100.STP" := [137; 80; 78; 71] ]}) as Hm.
  { unfold Renderer.renderStpFiles. rewrite renderFrom_cons.
    assert (contribution (Samples.oneGoodFile (u "P100.STP") [137; 80; 78; 71]) 0
              (Samples.upload "P100.STP") = Some [137; 80; 78; 71]) as ->
      by (vm_compute; reflexivity).
    reflexivity. }
  split; [exact Hm|].
  destruct (lower_cased_name_misses_image asciiLowerCase Samples.anyRange Samples.anyCell
              Samples.anyCell (Some (u "http://localhost:5050/render"))
              (Samples.oneGoodFile (u "P100.STP") [137; 80; 78; 71])
              [Samples.upload "P100.STP"] (Samples.upload "P100.STP")
              {[ u "P100.STP" := [137; 80; 78; 71] ]})
    as (_ & _ & _ & Hrow & _).
  - apply list_elem_of_here.
  - intros f' ->%list_elem_of_singleton. split; vm_compute; discriminate.
  - apply (bool_decide_eq_false_1
             (asciiLowerCase (name (Samples.upload "P100.STP")) ∈ Emitters.prototypeNames)).
    vm_compute. reflexivity.
  - exact Hm.
  - unfold Samples.partRow, Samples.dataRow.
    match goal with
    | |- Emitters.emitItem _ _ _ _ _ _ (JObj ?ms) = _ =>
      rewrite (Hrow [] 1%nat ms _ eq_refl eq_refl)
    end; [reflexivity|]. vm_compute. reflexivity.
Defined.

(** X7.  Every row of the production order ends with the height its
    layout item declares ([row.height = item.height] is the last
    assignment to the row, with an image or without one), row [i + 1] for
    the item at index [i]; no other row has a height. *)
Theorem production_order_row_heights
    (mergeCellsAccepts : workbook → jsval → bool)
    (getCellAccepts rowGetCellAccepts : jsval → bool)
    (writeBuffer : workbook → completion unit)
    (layout : list json) (images : gmap jsstring Buffer) (wb : workbook) :
  Emitters.buildProductionOrder mergeCellsAccepts getCellAccepts rowGetCellAccepts
    writeBuffer layout images = Normal wb →
  (∀ i item, layout !! i = Some item →
     ∃ h, get item (u "height") = Normal h ∧ finalHeight (S i) wb = Some (HVal h))
  ∧ (∀ r, (r = 0 ∨ length layout < r)%nat → finalHeight r wb = None).
Proof.
  intros H. apply buildProductionOrder_inv in H.
  destruct (emitItems_shape _ _ _ images layout _ _ _ H
              (linked_noImage Emitters.productionSheet eq_refl))
    as (_ & _ & _ & (ops & -> & Hops) & Hfinal).
  split; [exact Hfinal|].
  intros r Hr. unfold finalHeight. rewrite heightsOf_app, Hops by lia. done.
Qed.

(** The theorem at a data row of height 22 whose image is in the map. *)
Lemma production_order_row_heights_witness :
  ∃ wb,
    Emitters.buildProductionOrder Samples.anyRange Samples.anyCell Samples.anyCell
      Samples.anyWorkbook
      [Samples.partRow "p100.stp" "P100"] {[ u "p100.stp" := [137; 80; 78; 71] ]}
    = Normal wb
    ∧ finalHeight 1 wb = Some (hnum 22).
Proof.
  destruct (Emitters.buildProductionOrder Samples.anyRange Samples.anyCell Samples.anyCell
              Samples.anyWorkbook
              [Samples.partRow "p100.stp" "P100"] {[ u "p100.stp" := [137; 80; 78; 71] ]})
    as [wb| |] eqn:E; [|vm_compute in E; discriminate..].
  exists wb. split; [reflexivity|].
  destruct (proj1 (production_order_row_heights _ _ _ _ _ _ _ E) 0%nat
              (Samples.partRow "p100.stp" "P100") eq_refl) as (h & Hh & Hfinal).
  vm_compute in Hh. injection Hh as <-. exact Hfinal.
Defined.

(** X8.  What the production order anchors on its sheet is, in the order
    of the rows, what [images[key]] gives for each data row whose image
    slot [key] is truthy: the bytes the map holds under the key, or the
    member of [Object.prototype] of that name; each is anchored on column
    B of the row of its item, the id [ws.addImage] is given is that of the
    image just added, and everything added is anchored. *)
Theorem production_order_images
    (mergeCellsAccepts : workbook → jsval → bool)
    (getCellAccepts rowGetCellAccepts : jsval → bool)
    (writeBuffer : workbook → completion unit)
    (layout : list json) (images : gmap jsstring Buffer) (wb : workbook) :
  Emitters.buildProductionOrder mergeCellsAccepts getCellAccepts rowGetCellAccepts
    writeBuffer layout images = Normal wb →
  anchored wb = imagesFrom (dataRowImage images) 1 layout
  ∧ media wb = (anchored wb).*1.
Proof.
  intros H. apply buildProductionOrder_inv in H.
  destruct (emitItems_shape _ _ _ images layout _ _ _ H
              (linked_noImage Emitters.productionSheet eq_refl))
    as (_ & Ha & Hm & _).
  split; [exact Ha|]. by rewrite Hm, Ha.
Qed.

(** The theorem at a header row, a data row whose slot names a member of
    [Object.prototype] and a data row with an image of the map. *)
Lemma production_order_images_witness :
  ∃ wb,
    Emitters.buildProductionOrder Samples.anyRange Samples.anyCell Samples.anyCell
      Samples.anyWorkbook
      [JObj [(u "type", JStr (u "main_table_header_row")); (u "headers", JArr [])];
       Samples.partRow "valueOf" "P200"; Samples.partRow "p100.stp" "P100"]
      {[ u "p100.stp" := [137; 80; 78; 71] ]}
    = Normal wb
    ∧ anchored wb = [(Inherited (u "valueOf"), u "B2:B2");
                     (Bytes [137; 80; 78; 71], u "B3:B3")].
Proof.
  destruct (Emitters.buildProductionOrder Samples.anyRange Samples.anyCell Samples.anyCell
              Samples.anyWorkbook
              [JObj [(u "type", JStr (u "main_table_header_row")); (u "headers", JArr [])];
               Samples.partRow "valueOf" "P200"; Samples.partRow "p100.stp" "P100"]
              {[ u "p100.stp" := [137; 80; 78; 71] ]})
    as [wb| |] eqn:E; [|vm_compute in E; discriminate..].
  exists wb. split; [reflexivity|].
  rewrite (proj1 (production_order_images _ _ _ _ _ _ _ E)). vm_compute. reflexivity.
Defined.

(** X9.  In the sheet of a quotation of [n] product lines [ws.addRow]
    appends the rows 2 to 8, then the product lines, then eight rows.
    [ws.addImage] makes the row below its anchor, so that a product line
    with an image takes two rows: the line at index [i] is on row 9 + i
    + the number of lines with an image before it, and the eight rows
    behind start on row 9 + n + the number of lines with an image.  Every
    row that was appended, and row 1, has its height assigned once: 28 for
    the title, 18 for the six rows of the company block, 22 for the table
    header, for a product line 18 without an image and
    [Math.max(row.height, 80)] with one, which on a row just added is NaN,
    then 18 seven times and 20 for the signature row. *)
Theorem quotation_rows_and_heights
    (writeBuffer : workbook → completion unit)
    (q : json) (images : gmap jsstring Buffer) (wb : workbook) :
  Emitters.buildQuotation writeBuffer q images = Normal wb →
  ∃ ps,
    get q (u "products") = Normal (Some (JArr ps))
    ∧ (addedRows wb).*1
      = seq 2 7 ++ productRows images 9 ps ++ seq (rowBehindAll images 9 ps) 8
    ∧ (∀ i p, ps !! i = Some p →
         addedRows wb !! (7 + i)%nat
         = Some ((9 + i + length (withImage images (take i ps)))%nat, productValues p))
    ∧ heightCalls wb
      = zip (seq 1 8 ++ productRows images 9 ps ++ seq (rowBehindAll images 9 ps) 8)
          (hnum 28 :: replicate 6 (hnum 18) ++ hnum 22 :: (productHeight images <$> ps)
           ++ replicate 7 (hnum 18) ++ [hnum 20])
    ∧ (∀ i, (i < length ps)%nat →
         productRows images 9 ps !! i
         = Some (9 + i + length (withImage images (take i ps)))%nat)
    ∧ rowBehindAll images 9 ps = (9 + length ps + length (withImage images ps))%nat.
Proof.
  intros H.
  apply buildQuotation_inv in H
    as (ms & ci & ps & pre & post & -> & Hci & Hnull & Hps & Hno & -> & _ & _
        & Hhpre & Hrpre & Hhpost & Hrpost).
  exists ps. split; [by rewrite <- Hps|].
  assert (length (addedRows pre) = 7%nat) as Hlen.
  { by rewrite <- (length_fmap fst), Hrpre. }
  split; [|split; [|split; [|split]]].
  - rewrite !addedRows_app, !fmap_app, Hrpre, Hrpost, productsCalls_addedRows.
    rewrite fst_zip; [done|]. by rewrite productRows_length, length_fmap.
  - intros i p Hp. rewrite !addedRows_app, productsCalls_addedRows.
    rewrite lookup_app_r by lia. rewrite Hlen.
    replace (7 + i - 7)%nat with i by lia.
    rewrite lookup_app_l.
    2:{ rewrite length_zip, productRows_length, length_fmap.
        apply lookup_lt_Some in Hp. lia. }
    apply lookup_zip_with_Some. eexists _, (productValues p).
    split; [done|]. split.
    + apply productRows_lookup. by apply lookup_lt_Some in Hp.
    + by rewrite list_lookup_fmap, Hp.
  - rewrite !heightCalls_app, Hhpre, Hhpost, productsCalls_heightCalls.
    change (hnum 28 :: replicate 6 (hnum 18) ++ hnum 22 :: (productHeight images <$> ps)
            ++ replicate 7 (hnum 18) ++ [hnum 20])
      with ((hnum 28 :: replicate 6 (hnum 18) ++ [hnum 22])
            ++ (productHeight images <$> ps) ++ (replicate 7 (hnum 18) ++ [hnum 20])).
    rewrite <- (zip_app_seq (seq 1 8)) by done.
    rewrite <- (zip_app_seq (productRows images 9 ps)); [done|].
    by rewrite productRows_length, length_fmap.
  - intros i Hi. by apply productRows_lookup.
  - apply rowBehindAll_count.
Qed.

(** The theorem at a quotation of two product lines, the first of them
    with an image: the second line is on row 11. *)
Lemma quotation_rows_and_heights_witness :
  ∃ wb,
    Emitters.buildQuotation Samples.anyWorkbook
      (JObj [(u "company_info", JObj []);
             (u "products", JArr [Samples.product "p100.stp" "P100";
                                  Samples.product "" "P200"])])
      {[ u "p100.stp" := [137; 80; 78; 71] ]}
    = Normal wb
    ∧ (addedRows wb).*1 = [2; 3; 4; 5; 6; 7; 8; 9; 11; 12; 13; 14; 15; 16; 17; 18; 19]%nat
    ∧ heightCalls wb !! 8%nat = Some (9%nat, HNaN)
    ∧ heightCalls wb !! 9%nat = Some (11%nat, hnum 18).
Proof.
  destruct (Emitters.buildQuotation Samples.anyWorkbook
              (JObj [(u "company_info", JObj []);
                     (u "products", JArr [Samples.product "p100.stp" "P100";
                                          Samples.product "" "P200"])])
              {[ u "p100.stp" := [137; 80; 78; 71] ]})
    as [wb| |] eqn:E; [|vm_compute in E; discriminate..].
  exists wb. split; [reflexivity|].
  destruct (quotation_rows_and_heights _ _ _ _ E) as (ps & Hps & Hrows & _ & Hheights & _).
  vm_compute in Hps. injection Hps as <-.
  rewrite Hrows, Hheights. split; [|split]; vm_compute; reflexivity.
Defined.

(** X11.  What the quotation anchors on its sheet is, in the order of the
    product lines, what [images[key]] gives for the key 零件图片 (or 零件名
    when 零件图片 is falsy) of each line: the bytes the map holds under
    the key, or the member of [Object.prototype] of that name; each is
    anchored on column B of the row of its line, and everything added is
    anchored. *)
Theorem quotation_images
    (writeBuffer : workbook → completion unit)
    (q : json) (images : gmap jsstring Buffer) (wb : workbook) :
  Emitters.buildQuotation writeBuffer q images = Normal wb →
  ∃ ps,
    get q (u "products") = Normal (Some (JArr ps))
    ∧ anchored wb = productImages images 9 ps
    ∧ media wb = (anchored wb).*1.
Proof.
  intros H.
  apply buildQuotation_inv in H
    as (ms & ci & ps & pre & post & -> & Hci & Hnull & Hps & Hno & -> & Hpre & Hpost & _).
  exists ps. split; [by rewrite <- Hps|].
  assert (nextImageId pre = 0%nat) as Hid.
  { by rewrite nextImageId_media, noImage_media. }
  destruct (productsCalls_linked images ps pre 9 (linked_noImage pre Hpre)) as (Hl & Ha & Hm).
  rewrite Hid in Hl, Ha, Hm.
  destruct (linked_plain _ post Hl Hpost) as (_ & Ha' & Hm').
  rewrite <- app_assoc in Ha', Hm'. rewrite Ha', Hm', Ha, Hm.
  rewrite (anchored_eq pre), noImage_anchoredIn, noImage_media by done. done.
Qed.

(** The theorem at a quotation of three product lines, the first and the
    third of which name an image under 零件名: the images are on the rows
    9 and 12. *)
Lemma quotation_images_witness :
  ∃ wb,
    Emitters.buildQuotation Samples.anyWorkbook
      (JObj [(u "company_info", JObj []);
             (u "products", JArr [Samples.product "" "p200.stp"; Samples.product "" "P100";
                                  Samples.product "" "p200.stp"])])
      {[ u "p200.stp" := [137; 80; 78; 71] ]}
    = Normal wb
    ∧ anchored wb = [(Bytes [137; 80; 78; 71], u "B9:B9");
                     (Bytes [137; 80; 78; 71], u "B12:B12")].
Proof.
  destruct (Emitters.buildQuotation Samples.anyWorkbook
              (JObj [(u "company_info", JObj []);
                     (u "products",
                      JArr [Samples.product "" "p200.stp"; Samples.product "" "P100";
                            Samples.product "" "p200.stp"])])
              {[ u "p200.stp" := [137; 80; 78; 71] ]})
    as [wb| |] eqn:E; [|vm_compute in E; discriminate..].
  exists wb. split; [reflexivity|].
  destruct (quotation_images _ _ _ _ E) as (ps & Hps & Ha & _).
  vm_compute in Hps. injection Hps as <-. rewrite Ha. vm_compute. reflexivity.
Defined.

(** ** The renderer, continued *)

Section RendererOrder.
Import Renderer.

Lemma renderFrom_app (w : world) (l1 l2 : list stp_file) : ∀ i (map : gmap jsstring Buffer),
  renderFrom w i (l1 ++ l2) map
  = (m1 ← renderFrom w i l1 map; renderFrom w (i + length l1) l2 m1).
Proof.
  induction l1 as [|f l1 IH]; intros i map.
  - simpl. by rewrite Nat.add_0_r.
  - cbn [app length]. rewrite !renderFrom_cons, IH. by rewrite Nat.add_succ_r.
Qed.

(** The files whose rendering leaves nothing under a name leave what the
    map holds under that name. *)
Lemma renderFrom_other (w : world) (k : jsstring) (files : list stp_file) :
  ∀ i (map m : gmap jsstring Buffer),
    renderFrom w i files map = Normal m →
    (∀ j f, files !! j = Some f → name f = k → contribution w (i + j) f = None) →
    m !! k = map !! k.
Proof.
  induction files as [|f files IH]; intros i map m.
  - simpl. by intros [= <-].
  - rewrite renderFrom_cons. intros Hm Hnone. rewrite (IH _ _ _ Hm).
    + specialize (Hnone 0%nat f eq_refl). rewrite Nat.add_0_r in Hnone.
      destruct (contribution w i f) as [img|] eqn:E; [|done].
      destruct (decide (name f = k)) as [Hk|Hk]; [by specialize (Hnone Hk)|].
      by rewrite lookup_insert_ne.
    + intros j f' Hj Hk. rewrite Nat.add_succ_l, <- Nat.add_succ_r. by apply Hnone.
Qed.

Lemma endsWith_spec (s suffix : jsstring) :
  endsWith s suffix = true ↔ ∃ stem, s = stem ++ suffix.
Proof.
  unfold endsWith. rewrite startsWith_spec. split.
  - intros [t Ht]. exists (rev t).
    by rewrite <- (rev_involutive s), Ht, rev_app_distr, rev_involutive.
  - intros [stem ->]. exists (rev stem). by rewrite rev_app_distr.
Qed.

Lemma asciiLowerCase_endsWith (n suffix : jsstring) :
  endsWith (asciiLowerCase n) suffix = true
  ↔ ∃ stem ext, n = stem ++ ext ∧ asciiLowerCase ext = suffix.
Proof.
  rewrite endsWith_spec. unfold asciiLowerCase. split.
  - intros [stem' (stem & ext & -> & _ & Hext)%map_eq_app]. by exists stem, ext.
  - intros (stem & ext & -> & <-). exists (List.map lower_unit stem). apply map_app.
Qed.

End RendererOrder.

(** X12.  When several uploads carry one name, the image map holds under
    that name the image of the last of them that rendered: an image stays
    in the map unless a later upload of the same name renders too, and a
    later upload that fails to render does not take it away.  A name none
    of whose uploads rendered is not in the map. *)
Theorem last_rendered_upload_wins
    (url : jsstring) (w : Renderer.world) (files : list stp_file)
    (m : gmap jsstring Buffer) :
  Renderer.renderStpFiles (Some url) w files = Normal m →
  (∀ before f after img,
     files = before ++ f :: after →
     contribution w (length before) f = Some img →
     (∀ j f', after !! j = Some f' → name f' = name f →
              contribution w (S (length before + j)) f' = None) →
     m !! name f = Some img)
  ∧ (∀ k,
       (∀ j f, files !! j = Some f → name f = k → contribution w j f = None) →
       m !! k = None).
Proof.
  unfold Renderer.renderStpFiles. intros Hm. split.
  - intros before f after img -> Himg Hafter.
    rewrite renderFrom_app in Hm.
    destruct (renderFrom_total w before 0 ∅) as (m1 & Hm1 & _). rewrite Hm1 in Hm.
    cbn [mbind completion_bind bind] in Hm.
    rewrite Nat.add_0_l, renderFrom_cons, Himg in Hm.
    rewrite (renderFrom_other w (name f) after _ _ _ Hm).
    + apply lookup_insert_eq.
    + intros j f' Hj Hname. rewrite Nat.add_succ_l. by apply Hafter.
  - intros k Hnone. rewrite (renderFrom_other w k files _ _ _ Hm); [apply lookup_empty|].
    intros j f Hj Hk. by apply Hnone.
Qed.

(** The theorem at three uploads named "a.stp" of which the renderer
    takes the second one only. *)
Lemma last_rendered_upload_wins_witness :
  ∃ m,
    Renderer.renderStpFiles (Some (u "http://localhost:5050/render"))
      (Renderer.World
         (fun i _ => Renderer.Resolved [N.of_nat i])
         (fun i buf _ => Renderer.Resolved
                           (Renderer.Response (bool_decide (i = 1%nat)) (Renderer.Resolved buf)))
         (fun _ buf => Renderer.Resolved
                         [Renderer.ZipEntry (u "iso.png") false (Renderer.Resolved buf)]))
      [Samples.upload "a.stp"; Samples.upload "a.stp"; Samples.upload "a.stp"]
    = Normal m
    ∧ m !! u "a.stp" = Some [1].
Proof.
  destruct (Renderer.renderStpFiles (Some (u "http://localhost:5050/render"))
      (Renderer.World
         (fun i _ => Renderer.Resolved [N.of_nat i])
         (fun i buf _ => Renderer.Resolved
                           (Renderer.Response (bool_decide (i = 1%nat)) (Renderer.Resolved buf)))
         (fun _ buf => Renderer.Resolved
                         [Renderer.ZipEntry (u "iso.png") false (Renderer.Resolved buf)]))
      [Samples.upload "a.stp"; Samples.upload "a.stp"; Samples.upload "a.stp"])
    as [m| |] eqn:E; [|vm_compute in E; discriminate..].
  exists m. split; [reflexivity|].
  apply (proj1 (last_rendered_upload_wins _ _ _ _ E)
           [Samples.upload "a.stp"] (Samples.upload "a.stp") [Samples.upload "a.stp"] [1]).
  - reflexivity.
  - vm_compute. reflexivity.
  - intros [|[|j]] f' Hj _; [|done..]. injection Hj as <-. vm_compute. reflexivity.
Defined.

(** X13.  The entry of an archive that [renderStpFiles] takes for the
    image is one whose name ends with .png, .jpg or .jpeg in any mix of
    upper and lower case: [/\.(png|jpe?g)$/i] holds of a name exactly when
    it splits into a stem and one of these three extensions. *)
Theorem isImageName_spec (n : jsstring) :
  Renderer.isImageName n = true
  ↔ ∃ stem ext,
      n = stem ++ ext
      ∧ (asciiLowerCase ext = u ".png" ∨ asciiLowerCase ext = u ".jpg"
         ∨ asciiLowerCase ext = u ".jpeg").
Proof.
  unfold Renderer.isImageName. rewrite !orb_true_iff, !asciiLowerCase_endsWith. split.
  - intros [[(stem & ext & Hn & He)|(stem & ext & Hn & He)]|(stem & ext & Hn & He)];
      exists stem, ext; auto.
  - intros (stem & ext & Hn & [He|[He|He]]);
      [left; left | left; right | right]; by exists stem, ext.
Qed.

(** ** The normalizer, continued *)

Section NormalizerOrder.
Import Normalizer.

(** Once data has been seen, [hasAnyData] stays. *)
Lemma scanRows_seen ws todo : ∀ rowNum, (scanRows ws todo rowNum true).2 = true.
Proof.
  induction todo as [|todo IH]; intros rowNum; [done|]. cbn [scanRows orb].
  specialize (IH (S rowNum)).
  destruct (scanRows ws todo (S rowNum) true) as [rest any'].
  by destruct (_ && _ && _).
Qed.

(** Rows without cells to write, before any data, are passed over. *)
Lemma scanRows_skip ws todo rowNum :
  rowCells ws rowNum = [] →
  scanRows ws (S todo) rowNum false = scanRows ws todo (S rowNum) false.
Proof.
  intros H. cbn [scanRows]. rewrite H. cbn [orb andb].
  by destruct (scanRows ws todo (S rowNum) false).
Qed.

(** [hasAnyData] is set exactly when a row of the range has a cell to
    write. *)
Lemma scanRows_flag ws todo : ∀ rowNum,
  (scanRows ws todo rowNum false).2 = true
  ↔ ∃ r, (rowNum ≤ r < rowNum + todo)%nat ∧ rowCells ws r ≠ [].
Proof.
  induction todo as [|todo IH]; intros rowNum.
  - split; [done|]. intros (r & Hr & _). lia.
  - destruct (rowCells ws rowNum) as [|cell cells] eqn:E.
    + rewrite scanRows_skip, IH by done. split.
      * intros (r & Hr & Hdata). exists r. split; [lia|done].
      * intros (r & Hr & Hdata). exists r. split; [|done].
        destruct (decide (r = rowNum)) as [->|]; [congruence|lia].
    + split.
      * intros _. exists rowNum. split; [lia|congruence].
      * intros _. cbn [scanRows]. rewrite E. cbn [orb andb negb].
        pose proof (scanRows_seen ws todo (S rowNum)) as Hseen.
        by destruct (scanRows ws todo (S rowNum) true).
Qed.

Lemma scanRows_nothing ws todo : ∀ rowNum,
  (∀ r, (rowNum ≤ r < rowNum + todo)%nat → rowCells ws r = []) →
  scanRows ws todo rowNum false = ([], false).
Proof.
  induction todo as [|todo IH]; intros rowNum Hrows; [done|].
  rewrite scanRows_skip by (apply Hrows; lia). apply IH. intros r Hr. apply Hrows. lia.
Qed.

(** The first row that has a cell to write is the first row written. *)
Lemma scanRows_first ws r todo : ∀ rowNum,
  (rowNum ≤ r < rowNum + todo)%nat →
  rowCells ws r ≠ [] →
  (∀ r', (rowNum ≤ r' < r)%nat → rowCells ws r' = []) →
  head (scanRows ws todo rowNum false).1 = Some (r, rowCells ws r).
Proof.
  induction todo as [|todo IH]; intros rowNum Hr Hdata Hbefore; [lia|].
  destruct (decide (rowNum = r)) as [->|Hne].
  - cbn [scanRows]. destruct (rowCells ws r) as [|cell cells]; [done|].
    cbn [orb andb negb]. by destruct (scanRows ws todo (S r) true).
  - rewrite scanRows_skip by (apply Hbefore; lia).
    apply IH; [lia|done|]. intros r' Hr'. apply Hbefore. lia.
Qed.

(** The rows written are in ascending order. *)
Lemma scanRows_sorted ws todo : ∀ rowNum any,
  StronglySorted lt (scanRows ws todo rowNum any).1.*1.
Proof.
  induction todo as [|todo IH]; intros rowNum any; cbn [scanRows]; [constructor|].
  pose proof (scanRows_lines ws todo (S rowNum)
                (any || match rowCells ws rowNum with [] => false | _ => true end)) as Hlines.
  specialize (IH (S rowNum) (any || match rowCells ws rowNum with [] => false | _ => true end)).
  destruct (scanRows ws todo (S rowNum) _) as [rest any'].
  destruct (rowCells ws rowNum) as [|cell cells];
    destruct (_ && _ && _); cbn [fst fmap list_fmap]; try done; try constructor;
    try constructor; try done.
  apply Forall_forall. intros x (line & -> & Hline)%list_elem_of_fmap.
  destruct (Hlines line Hline) as [? _]. simpl in *. lia.
Qed.

(** The cells of a row are in ascending order of their columns; each
    holds the trimmed text of a cell that has a value, and that text is
    not empty. *)
Lemma rowCells_sorted ws r : StronglySorted lt (rowCells ws r).*1.
Proof.
  unfold rowCells. generalize 1%nat. induction maxCol as [|n IH]; intros a; [constructor|].
  cbn [seq omap list_omap].
  assert (Forall (lt a) (omap (λ c : nat,
                                 if hasValue (cellValue ws r c)
                                 then match trim (shownText (cellValue ws r c)) with
                                      | [] => None
                                      | c0 :: l => Some (c, c0 :: l)
                                      end
                                 else None) (seq (S a) n)).*1) as Hgt.
  { apply Forall_forall. intros x (cell & -> & (c & Hc & Hcell)%list_elem_of_omap)%list_elem_of_fmap.
    apply elem_of_seq' in Hc. destruct (hasValue _); [|done].
    destruct (trim _); [done|]. injection Hcell as <-. simpl. lia. }
  destruct (hasValue _); [|apply IH]. destruct (trim _); [apply IH|].
  cbn [fmap list_fmap fst]. constructor; [apply IH|done].
Qed.

Lemma rowCells_text ws r cell :
  cell ∈ rowCells ws r →
  hasValue (cellValue ws r cell.1) = true
  ∧ cell.2 = trim (shownText (cellValue ws r cell.1))
  ∧ cell.2 ≠ [] ∧ trimmed cell.2.
Proof.
  unfold rowCells. intros (c & Hc & H)%list_elem_of_omap.
  destruct (hasValue _) eqn:Ev; [|done].
  destruct (trim _) as [|x t] eqn:Et; [done|]. injection H as <-. cbn [fst snd].
  split; [done|]. split; [done|]. split; [done|]. rewrite <- Et. apply trim_trimmed.
Qed.

End NormalizerOrder.

(** X14.  A sheet is reported as holding no data ([hasAnyData] stays
    false and the line "No data found in sheet" is written) exactly when
    no cell of the window of 200 rows by 50 columns has text to write;
    nothing is written for it then.  Otherwise the first row that has a
    cell to write is the first row written, however many empty rows come
    before it: the look-ahead for empty rows does not run before data was
    seen. *)
Theorem no_data_marker (ws : Normalizer.worksheet) :
  ((Normalizer.scanSheet ws).2 = false
   ↔ ∀ r, (1 ≤ r ≤ Normalizer.maxRow)%nat → Normalizer.rowCells ws r = [])
  ∧ ((Normalizer.scanSheet ws).2 = false → (Normalizer.scanSheet ws).1 = [])
  ∧ (∀ r, (1 ≤ r ≤ Normalizer.maxRow)%nat →
          Normalizer.rowCells ws r ≠ [] →
          (∀ r', (1 ≤ r' < r)%nat → Normalizer.rowCells ws r' = []) →
          head (Normalizer.scanSheet ws).1 = Some (r, Normalizer.rowCells ws r)).
Proof.
  rewrite !scanSheet_unfold.
  assert ((Normalizer.scanRows ws Normalizer.maxRow 1 false).2 = false
          → ∀ r, (1 ≤ r ≤ Normalizer.maxRow)%nat → Normalizer.rowCells ws r = []) as Hnone.
  { intros Hflag r [Hlo Hhi].
    destruct (Normalizer.rowCells ws r) as [|cell cells] eqn:E; [reflexivity|]. exfalso.
    assert ((Normalizer.scanRows ws Normalizer.maxRow 1 false).2 = true) as Htrue.
    { apply (scanRows_flag ws Normalizer.maxRow 1). exists r. split.
      - split; [exact Hlo|]. apply Nat.lt_succ_r. exact Hhi.
      - rewrite E. discriminate. }
    rewrite Htrue in Hflag. discriminate. }
  assert ((∀ r, (1 ≤ r ≤ Normalizer.maxRow)%nat → Normalizer.rowCells ws r = [])
          → Normalizer.scanRows ws Normalizer.maxRow 1 false = ([], false)) as Hall.
  { intros Hrows. apply (scanRows_nothing ws Normalizer.maxRow 1).
    intros r [Hlo Hhi]. apply Hrows. split; [exact Hlo|]. apply Nat.lt_succ_r. exact Hhi. }
  split; [split|split].
  - exact Hnone.
  - intros Hrows. rewrite (Hall Hrows). reflexivity.
  - intros Hflag. rewrite (Hall (Hnone Hflag)). reflexivity.
  - intros r [Hlo Hhi] Hdata Hbefore.
    apply (scanRows_first ws r Normalizer.maxRow 1).
    + split; [exact Hlo|]. apply Nat.lt_succ_r. exact Hhi.
    + exact Hdata.
    + exact Hbefore.
Qed.

(** The theorem at a sheet with nothing but a part number in A40. *)
Lemma no_data_marker_witness :
  head (Normalizer.scanSheet (Examples.oneCell 40 1 (u "BRK-01"))).1
  = Some (40%nat, [(1%nat, u "BRK-01")]).
Proof.
  rewrite (proj2 (proj2 (no_data_marker (Examples.oneCell 40 1 (u "BRK-01")))) 40%nat).
  - vm_compute. reflexivity.
  - split; apply Nat.leb_le; reflexivity.
  - vm_compute. discriminate.
  - intros r' Hr'. unfold Normalizer.rowCells, Examples.oneCell. cbn [Normalizer.cellValue].
    generalize (seq 1 Normalizer.maxCol). intros l.
    induction l as [|c l IH]; [reflexivity|]. cbn [omap list_omap].
    rewrite bool_decide_eq_false_2 by lia. exact IH.
Defined.

(** X15.  The rows of a sheet are written in ascending order of their
    numbers, each with the cells [rowCells] gives for it, which are not
    none; the cells of a row are written in ascending order of their
    columns, and each is a cell that has a value, written with its text
    trimmed, which is not empty. *)
Theorem transcript_lines_in_order (ws : Normalizer.worksheet) :
  StronglySorted lt (Normalizer.scanSheet ws).1.*1
  ∧ Forall (fun line =>
              line.2 = Normalizer.rowCells ws line.1
              ∧ line.2 ≠ []
              ∧ StronglySorted lt line.2.*1
              ∧ Forall (fun cell =>
                          Normalizer.hasValue (Normalizer.cellValue ws line.1 cell.1) = true
                          ∧ cell.2 = trim (Normalizer.shownText
                                             (Normalizer.cellValue ws line.1 cell.1))
                          ∧ cell.2 ≠ [] ∧ trimmed cell.2) line.2)
      (Normalizer.scanSheet ws).1.
Proof.
  rewrite !scanSheet_unfold. split.
  - apply (scanRows_sorted ws Normalizer.maxRow 1 false).
  - apply Forall_forall. intros line Hline.
    assert (line.2 = Normalizer.rowCells ws line.1 ∧ line.2 ≠ []) as [Hcells Hne].
    { revert Hline. generalize Normalizer.maxRow, 1%nat, false.
      intros todo. induction todo as [|todo IH]; intros rowNum any; cbn [Normalizer.scanRows].
      - intros H. by apply elem_of_nil in H.
      - specialize (IH (S rowNum)
                      (any || match Normalizer.rowCells ws rowNum with
                              | [] => false | _ => true end)).
        destruct (Normalizer.scanRows ws todo (S rowNum) _) as [rest any'].
        destruct (Normalizer.rowCells ws rowNum) as [|cell cells] eqn:E;
          destruct (_ && _ && _); cbn [fst];
          repeat (intros [->|H]%elem_of_cons || intros H);
          try (by apply elem_of_nil in H);
          try (simpl; by rewrite E);
          try (by apply IH). }
    split; [exact Hcells|]. split; [exact Hne|]. rewrite Hcells. split.
    + apply rowCells_sorted.
    + apply Forall_forall. intros cell Hcell. by apply rowCells_text.
Qed.

(** ** What the handler can throw *)

Ltac thrown :=
  repeat match goal with
  | H : Throw _ = Throw _ |- _ => injection H as <-
  | H : Normal _ = Throw _ |- _ => discriminate H
  | H : Unmodelled = Throw _ |- _ => discriminate H
  | H : _ ≫= _ = Throw _ |- _ => apply bind_throw in H as [H|(? & ? & H)]
  | H : (let '(_, _) := ?p in _) = Throw _ |- _ => destruct p
  | H : context [match ?x with _ => _ end] |- _ => destruct x eqn:?
  end; eauto.

Section HandlerThrows.
Variable toLowerCase : jsstring -> jsstring.
Variable mergeCellsAccepts : workbook -> jsval -> bool.
Variable getCellAccepts : jsval -> bool.
Variable rowGetCellAccepts : jsval -> bool.
Variable writeBuffer : workbook -> completion unit.

Lemma get_throws v k e : get v k = Throw e → e = JsTypeError.
Proof. destruct v; simpl; intros H; thrown. Qed.

Lemma getV_throws v k e : getV v k = Throw e → e = JsTypeError.
Proof. destruct v; simpl; [apply get_throws|]. by intros [= <-]. Qed.

Lemma index_throws v i e : index v i = Throw e → e = JsTypeError.
Proof. destruct v; simpl; intros H; thrown. Qed.

Lemma indexV_throws v i e : indexV v i = Throw e → e = JsTypeError.
Proof. destruct v; simpl; [apply index_throws|]. by intros [= <-]. Qed.

Lemma set_throws v k x e : set v k x = Throw e → e = JsTypeError.
Proof. destruct v; simpl; intros H; thrown. Qed.

Lemma set_index_throws v i x e : set_index v i x = Throw e → e = JsTypeError.
Proof. destruct v; simpl; intros H; thrown. Qed.

Lemma gt_num_throws v n e : gt_num v n = Throw e → e = JsTypeError.
Proof. destruct v as [[| | | | |]|]; simpl; intros H; thrown. Qed.

Lemma mathMax_throws h n e : mathMax h n = Throw e → e = JsTypeError.
Proof. destruct h as [[[| | | | |]|]|]; simpl; intros H; thrown. Qed.

Lemma toString_throws : ∀ v e, toString v = Throw e → e = JsTypeError.
Proof.
  fix IH 1. intros [|[|]|n|s|l|ms] e; cbn [toString]; try done.
  - by destruct (_ <=? _)%Z.
  - intros H. apply bind_throw in H as [H|(parts & _ & H)]; [|done].
    revert e H. induction l as [|x l IHl]; intros e H; [done|].
    apply bind_throw in H as [H|(s & _ & H)].
    + pose proof (IH x e) as IHx. destruct x; try done; by apply IHx.
    + apply bind_throw in H as [H|(r & _ & H)]; [by apply IHl|done].
  - destruct (assoc _ ms); [by intros [= <-]|done].
Qed.

Lemma toStringV_throws v e : toStringV v = Throw e → e = JsTypeError.
Proof. destruct v; simpl; [apply toString_throws|done]. Qed.

Lemma partKey_throws v e : Reconciler.partKey toLowerCase v = Throw e → e = JsTypeError.
Proof.
  unfold Reconciler.partKey. intros H.
  apply bind_throw in H as [H|(s & _ & H)]; [by apply toStringV_throws in H|done].
Qed.

Lemma readImage_throws images key e :
  Emitters.readImage images key = Throw e → e = JsTypeError.
Proof.
  unfold Emitters.readImage. intros H.
  apply bind_throw in H as [H|(s & _ & H)]; [by apply toStringV_throws in H|].
  destruct (images !! u "__proto__"); [done|].
  destruct (images !! s); [done|]. by destruct (bool_decide _).
Qed.

Lemma secondOfRange_throws v e : secondOfRange v = Throw e → e = JsTypeError.
Proof. destruct v as [[| | | | |]|]; simpl; intros H; thrown. Qed.

Lemma forEachM_throws {A} (body : A → completion A) (P : js_error → Prop) (xs : list A) e :
  (∀ x e, body x = Throw e → P e) → forEachM body xs = Throw e → P e.
Proof.
  intros Hbody. induction xs as [|x xs IH]; simpl; [done|].
  destruct (body x) as [x'| |] eqn:E; simpl; [|intros [= <-]; by eapply Hbody|done].
  destruct (forEachM body xs) as [r| |]; simpl; [done| |done].
  intros [= <-]. by apply IH.
Qed.

Lemma attachLayoutItem_throws names item e :
  Reconciler.attachLayoutItem toLowerCase names item = Throw e → e = JsTypeError.
Proof.
  pose proof get_throws. pose proof index_throws. pose proof set_throws.
  pose proof set_index_throws. pose proof gt_num_throws. pose proof partKey_throws.
  unfold Reconciler.attachLayoutItem. intros H'. thrown.
Qed.

Lemma attachProduct_throws names p e :
  Reconciler.attachProduct toLowerCase names p = Throw e → e = JsTypeError.
Proof.
  pose proof get_throws. pose proof set_throws. pose proof partKey_throws.
  unfold Reconciler.attachProduct. intros H'. thrown.
Qed.

Lemma attachLayout_throws names layout e :
  Reconciler.attachLayout toLowerCase names layout = Throw e → e = JsTypeError.
Proof.
  unfold Reconciler.attachLayout.
  apply (forEachM_throws _ (λ e, e = JsTypeError)), attachLayoutItem_throws.
Qed.

Lemma attachQuotation_throws names q e :
  Reconciler.attachQuotation toLowerCase names q = Throw e → e = JsTypeError.
Proof.
  pose proof get_throws. pose proof set_throws.
  pose proof (λ l e, forEachM_throws (Reconciler.attachProduct toLowerCase names)
                       (λ e, e = JsTypeError) l e (attachProduct_throws names)).
  unfold Reconciler.attachQuotation. intros H'. thrown.
Qed.

Lemma emitCells_throws r cells : ∀ calls e,
  Emitters.emitCells rowGetCellAccepts calls r cells = Throw e →
  e = JsTypeError ∨ e = JsLibraryError.
Proof.
  pose proof get_throws.
  induction cells as [|c cells IH]; intros calls e H'; cbn [Emitters.emitCells] in H'; thrown.
Qed.

Lemma emitItem_throws images calls r item e :
  Emitters.emitItem mergeCellsAccepts getCellAccepts rowGetCellAccepts images calls r item
  = Throw e →
  e = JsTypeError ∨ e = JsLibraryError.
Proof.
  pose proof get_throws. pose proof indexV_throws. pose proof secondOfRange_throws.
  pose proof mathMax_throws. pose proof emitCells_throws. pose proof readImage_throws.
  unfold Emitters.emitItem, Emitters.emitTitleRow, Emitters.emitHeaderDetailRow,
    Emitters.emitTableRow.
  intros H'. thrown.
Qed.

Lemma emitItems_throws images layout : ∀ calls r e,
  Emitters.emitItems mergeCellsAccepts getCellAccepts rowGetCellAccepts images calls r layout
  = Throw e →
  e = JsTypeError ∨ e = JsLibraryError.
Proof.
  pose proof emitItem_throws.
  induction layout as [|item layout IH]; intros calls r e H'; cbn [Emitters.emitItems] in H';
    thrown.
Qed.

Lemma emitProduct_throws images calls last p e :
  Emitters.emitProduct images calls last p = Throw e → e = JsTypeError.
Proof.
  pose proof get_throws. pose proof mathMax_throws. pose proof readImage_throws.
  unfold Emitters.emitProduct. intros H'. thrown.
Qed.

Lemma emitProducts_throws images ps : ∀ calls last e,
  Emitters.emitProducts images calls last ps = Throw e → e = JsTypeError.
Proof.
  pose proof emitProduct_throws.
  induction ps as [|p ps IH]; intros calls last e H'; cbn [Emitters.emitProducts] in H';
    thrown.
Qed.

Lemma written_throws calls e :
  Emitters.written writeBuffer calls = Throw e → writeBuffer calls = Throw e.
Proof.
  unfold Emitters.written.
  destruct (writeBuffer calls); cbn [mbind completion_bind bind]; [done| |done].
  by intros [= ->].
Qed.

Lemma bind_normal {A B} (c : completion A) (k : A → completion B) b :
  c ≫= k = Normal b → ∃ a, c = Normal a ∧ k a = Normal b.
Proof. destruct c as [a| |]; cbn [mbind completion_bind bind]; [by exists a|done..]. Qed.

(** The workbook [buildQuotation] returns is one [writeBuffer] resolved
    on. *)
Lemma buildQuotation_written q images wb :
  Emitters.buildQuotation writeBuffer q images = Normal wb → writeBuffer wb = Normal ().
Proof.
  unfold Emitters.buildQuotation. intros H.
  repeat match type of H with
  | _ ≫= _ = Normal _ => apply bind_normal in H as (? & _ & H)
  | (let '(_, _) := ?p in _) = Normal _ => destruct p
  | match ?x with _ => _ end = Normal _ => destruct x; try discriminate H
  end.
  unfold Emitters.written in H.
  destruct (writeBuffer _) as [[]| |] eqn:E; cbn [mbind completion_bind bind] in H; [|done..].
  by injection H as <-.
Qed.

(** [buildQuotation] throws a [TypeError], or what [writeBuffer] rejects
    with. *)
Lemma buildQuotation_throws q images e :
  Emitters.buildQuotation writeBuffer q images = Throw e →
  e = JsTypeError ∨ ∃ wb, writeBuffer wb = Throw e.
Proof.
  unfold Emitters.buildQuotation. intros H.
  repeat match type of H with
  | _ ≫= _ = Throw _ =>
    apply bind_throw in H as [H|(? & _ & H)];
      [left; first [by apply get_throws in H | by apply getV_throws in H
                   | by apply toStringV_throws in H | by apply emitProducts_throws in H]|]
  | (let '(_, _) := ?p in _) = Throw _ => destruct p
  | match ?x with _ => _ end = Throw _ => destruct x; try (left; by injection H as <-)
  end.
  right. eexists. by apply written_throws.
Qed.

Lemma iterate_throws v e : Handler.iterate v = Throw e → e = JsTypeError.
Proof. destruct v; simpl; intros H; thrown. Qed.

Lemma extractStructures_throws txt e :
  Extractor.extractStructures txt = Throw e → e = JsError Extractor.notFoundMessage.
Proof. unfold Extractor.extractStructures. intros H. thrown. Qed.

Lemma renderStpFiles_throws url w files e :
  Renderer.renderStpFiles url w files = Throw e → False.
Proof.
  unfold Renderer.renderStpFiles. destruct url; [|done].
  destruct (renderFrom_total w files 0 ∅) as (m & -> & _). done.
Qed.

(** The statements of the [try] block throw the [Error] of
    [extractStructures], a [SyntaxError], a [TypeError], an error of
    ExcelJS, or what [writeBuffer] rejects with. *)
Lemma process_throws url w rawOutput stpInfo e :
  Handler.process toLowerCase mergeCellsAccepts getCellAccepts rowGetCellAccepts writeBuffer
    url w rawOutput stpInfo = Throw e →
  e = JsError Extractor.notFoundMessage
  ∨ e = JsSyntaxError ∨ e = JsTypeError ∨ e = JsLibraryError
  ∨ ∃ wb, writeBuffer wb = Throw e.
Proof.
  unfold Handler.process, Emitters.buildProductionOrder. intros E.
  pose proof extractStructures_throws. pose proof parse_throws. pose proof iterate_throws.
  pose proof attachLayout_throws. pose proof attachQuotation_throws.
  pose proof renderStpFiles_throws. pose proof emitItems_throws.
  pose proof buildQuotation_throws.
  apply bind_throw in E as [E|([arrJS objJS] & _ & E)]; [left; eauto|].
  apply bind_throw in E as [E|(layout & _ & E)]; [right; left; eauto|].
  apply bind_throw in E as [E|(quotation & _ & E)]; [right; left; eauto|].
  apply bind_throw in E as [E|(items & _ & E)]; [right; right; left; eauto|].
  apply bind_throw in E as [E|(items' & _ & E)]; [right; right; left; eauto|].
  apply bind_throw in E as [E|(quotation' & _ & E)]; [right; right; left; eauto|].
  apply bind_throw in E as [E|(imageMap & _ & E)]; [exfalso; eauto|].
  apply bind_throw in E as [E|(prodBuf & _ & E)].
  { apply bind_throw in E as [E|(calls & _ & E)].
    - apply emitItems_throws in E as [->| ->]; eauto.
    - apply written_throws in E. eauto 10. }
  apply bind_throw in E as [E|(quoteBuf & _ & E)]; [|done].
  apply buildQuotation_throws in E as [->|E]; eauto 10.
Qed.

(** [POST] answers or leaves the embedding; an answer that is not the
    success answer has status 500. *)
Lemma POST_answers url w excelText gemini stpInfo :
  (∀ e, Handler.POST toLowerCase mergeCellsAccepts getCellAccepts rowGetCellAccepts
          writeBuffer url w excelText gemini stpInfo ≠ Throw e)
  ∧ (∀ status e,
       Handler.POST toLowerCase mergeCellsAccepts getCellAccepts rowGetCellAccepts
         writeBuffer url w excelText gemini stpInfo
       = Normal (Handler.Failure status e) →
       status = 500%Z
       ∧ (gemini = Renderer.Rejected e
          ∨ e = JsError Extractor.notFoundMessage
          ∨ e = JsSyntaxError ∨ e = JsTypeError ∨ e = JsLibraryError
          ∨ ∃ wb, writeBuffer wb = Throw e))
  ∧ (∀ prodBuf quoteBuf parsedExcelText rawOutput,
       Handler.POST toLowerCase mergeCellsAccepts getCellAccepts rowGetCellAccepts
         writeBuffer url w excelText gemini stpInfo
       = Normal (Handler.Success prodBuf quoteBuf parsedExcelText rawOutput) →
       parsedExcelText = excelText ∧ gemini = Renderer.Resolved rawOutput).
Proof.
  unfold Handler.POST. destruct gemini as [rawOutput|e0]; cbn [Renderer.await].
  2:{ cbn [mbind completion_bind bind]. split; [done|]. split; [|done].
      intros status e [= <- <-]. split; [done|]. by left. }
  cbn [mbind completion_bind bind].
  destruct (Handler.process _ _ _ _ _ _ _ rawOutput stpInfo) as [[prodBuf quoteBuf]|e0|] eqn:E;
    cbn [mbind completion_bind bind].
  - split; [done|]. split; [done|]. by intros ? ? ? ? [= _ _ <- <-].
  - split; [done|]. split; [|done]. intros status e [= <- <-]. split; [done|]. right.
    by apply process_throws in E.
  - done.
Qed.

End HandlerThrows.

(** X10.  When [buildQuotation] returns, the quotation is an object
    whose [company_info] is neither missing nor [null] and whose
    [products] is an array without a [null] element, and
    [workbook.xlsx.writeBuffer()] resolved on the workbook that is
    returned.  What [buildQuotation] throws is a [TypeError] (a field read
    on [undefined] or [null], [products] that is no array, a value with a
    [toString] of its own put into a text), or what [writeBuffer] rejected
    with. *)
Theorem buildQuotation_returns_or_throws
    (writeBuffer : workbook → completion unit)
    (q : json) (images : gmap jsstring Buffer) :
  (∀ wb, Emitters.buildQuotation writeBuffer q images = Normal wb →
     writeBuffer wb = Normal ()
     ∧ ∃ ms ci ps,
         q = JObj ms
         ∧ assoc (u "company_info") ms = Some ci ∧ ci ≠ JNull
         ∧ assoc (u "products") ms = Some (JArr ps) ∧ (JNull ∉ ps))
  ∧ (∀ e, Emitters.buildQuotation writeBuffer q images = Throw e →
       e = JsTypeError ∨ ∃ wb, writeBuffer wb = Throw e).
Proof.
  split.
  - intros wb H. split; [by apply buildQuotation_written in H|].
    apply buildQuotation_inv in H as (ms & ci & ps & _ & _ & -> & Hci & Hnull & Hps & Hno & _).
    by exists ms, ci, ps.
  - intros e. apply buildQuotation_throws.
Qed.

(** X16.  What the route answers.  An answer that is not the success
    answer is status 500 with "Missing server configuration." when no key
    is configured, status 400 with "Invalid file. Upload '.xlsx'.", or
    the answer of the [catch] block: status 500 with the error that
    [workbook.xlsx.readFile] or the model call rejected with, the [Error]
    of [extractStructures], the [SyntaxError] of [JSON.parse], a
    [TypeError] or an error of ExcelJS from the reconciliation and the two
    builders, or what [writeBuffer] rejected with; what goes wrong in
    [renderStpFiles] is never reported.  The success answer carries the
    transcript of the workbook that was uploaded and the output of the
    model for the prompt followed by that transcript. *)
Theorem route_answers
    (toLowerCase : jsstring → jsstring)
    (mergeCellsAccepts : workbook → jsval → bool)
    (getCellAccepts rowGetCellAccepts : jsval → bool)
    (writeBuffer : workbook → completion unit)
    (PYTHON_RENDERER_URL : option jsstring) (w : Renderer.world)
    (GEMINI_API_KEY : option jsstring) (UPLOAD_DIR : jsstring)
    (join : jsstring → jsstring → jsstring → jsstring) (dirname : jsstring → jsstring)
    (PROMPT : jsstring)
    (mkdir : jsstring → Renderer.settled unit)
    (formData : Renderer.settled (option Route.entry * list Route.entry))
    (writeFile : jsstring → Buffer → Renderer.settled unit)
    (readWorkbook : jsstring → Renderer.settled (list Normalizer.worksheet))
    (generateContentStream : jsstring → Renderer.settled Route.stream)
    (slug : jsstring) :
  (∀ status e,
     Route.POST toLowerCase mergeCellsAccepts getCellAccepts rowGetCellAccepts writeBuffer
       PYTHON_RENDERER_URL w GEMINI_API_KEY UPLOAD_DIR join dirname PROMPT
       mkdir formData writeFile readWorkbook generateContentStream slug
     = Normal (Handler.Failure status e) →
     (status = 500%Z ∧ GEMINI_API_KEY = None
      ∧ e = JsError (u "Missing server configuration."))
     ∨ (status = 400%Z ∧ e = JsError (u "Invalid file. Upload '.xlsx'."))
     ∨ (status = 500%Z
        ∧ ((∃ path, readWorkbook path = Renderer.Rejected e)
           ∨ (∃ text, Route.callGemini (generateContentStream text) = Renderer.Rejected e)
           ∨ e = JsError Extractor.notFoundMessage
           ∨ e = JsSyntaxError ∨ e = JsTypeError ∨ e = JsLibraryError
           ∨ ∃ wb, writeBuffer wb = Throw e)))
  ∧ (∀ prodBuf quoteBuf parsedExcelText rawOutput,
       Route.POST toLowerCase mergeCellsAccepts getCellAccepts rowGetCellAccepts writeBuffer
         PYTHON_RENDERER_URL w GEMINI_API_KEY UPLOAD_DIR join dirname PROMPT
         mkdir formData writeFile readWorkbook generateContentStream slug
       = Normal (Handler.Success prodBuf quoteBuf parsedExcelText rawOutput) →
       ∃ file stpUploads workbook,
         formData = Renderer.Resolved (Some (Route.FileEntry file), stpUploads)
         ∧ readWorkbook (join UPLOAD_DIR slug (Route.fileName file))
           = Renderer.Resolved workbook
         ∧ parsedExcelText = Normalizer.parseExcelToText workbook
         ∧ Route.callGemini (generateContentStream (PROMPT ++ parsedExcelText))
           = Renderer.Resolved rawOutput).
Proof.
  unfold Route.POST, Route.answer.
  destruct (mkdir UPLOAD_DIR) as [[]|e0]; cbn [Renderer.await mbind completion_bind bind];
    [|done].
  destruct GEMINI_API_KEY as [key|].
  2:{ split; [|done]. intros status e [= <- <-]. by left. }
  destruct formData as [[file stpUploads]|e0];
    cbn [Renderer.await mbind completion_bind bind fst snd]; [|done].
  destruct file as [[f|[|c s]]|];
    [|split; [intros status e [= <- <-]; right; by left|done]|done
     |split; [intros status e [= <- <-]; right; by left|done]].
  destruct (Renderer.endsWith (Route.fileName f) (u ".xlsx")); cbn [negb].
  2:{ split; [|done]. intros status e [= <- <-]. right. by left. }
  destruct (mkdir _) as [[]|?]; cbn [Renderer.await mbind completion_bind bind]; [|done].
  destruct (writeFile _ _) as [[]|?]; cbn [Renderer.await mbind completion_bind bind];
    [|done].
  destruct (Route.saveStp _ _ _ _ _ _) as [stpInfo| |];
    cbn [mbind completion_bind bind]; [|done..].
  destruct (readWorkbook _) as [workbook|e0] eqn:Eread.
  2:{ split; [|done]. intros status e [= <- <-]. right. right. split; [done|]. left.
      by eexists. }
  split.
  - intros status e H. right. right.
    apply POST_answers in H as [-> [H|H]]; (split; [done|]); right; [left; by eexists|].
    by right.
  - intros prodBuf quoteBuf parsedExcelText rawOutput H.
    apply POST_answers in H as [-> H]. by exists f, stpUploads, workbook.
Qed.

(** ** The route and the model call *)

Section RouteFacts.
Import Route.

Lemma collect_from (cs : list (option jsstring)) : ∀ out,
  fold_left (fun out c => match c with
                          | Some (x :: t) => out ++ x :: t
                          | _ => out
                          end) cs out
  = out ++ concat (default [] <$> cs).
Proof.
  induction cs as [|c cs IH]; intros out; cbn [fold_left fmap list_fmap concat].
  - by rewrite app_nil_r.
  - rewrite IH. destruct c as [[|x t]|]; cbn [default app]; by rewrite <- ?app_assoc.
Qed.

Lemma collect_concat (cs : list (option jsstring)) : collect cs = concat (default [] <$> cs).
Proof. unfold collect. by rewrite collect_from. Qed.

Variable UPLOAD_DIR : jsstring.
Variable join : jsstring -> jsstring -> jsstring -> jsstring.
Variable writeFile : jsstring -> Buffer -> Renderer.settled unit.

(** The CAD files that were stored keep the names and the order of the
    uploads. *)
Lemma saveStp_names (slug : jsstring) (files : list upload) : ∀ acc stpInfo,
  saveStp UPLOAD_DIR join writeFile slug (FileEntry <$> files) acc = Normal stpInfo →
  name <$> stpInfo = (name <$> acc) ++ (fileName <$> files).
Proof.
  induction files as [|f files IH]; intros acc stpInfo; cbn [fmap list_fmap saveStp].
  - intros [= <-]. by rewrite app_nil_r.
  - destruct (writeFile _ _) as [[]|e]; cbn [Renderer.await mbind completion_bind bind];
      [|done].
    intros H%IH. rewrite H, fmap_app, <- app_assoc. done.
Qed.

Lemma saveStp_throws (slug : jsstring) (entries : list entry) : ∀ acc e,
  saveStp UPLOAD_DIR join writeFile slug entries acc = Throw e →
  (e = JsTypeError ∧ ∃ s, TextEntry s ∈ entries)
  ∨ ∃ f, FileEntry f ∈ entries
         ∧ writeFile (join UPLOAD_DIR slug (fileName f)) (content f) = Renderer.Rejected e.
Proof.
  induction entries as [|[f|s] entries IH]; intros acc e; cbn [saveStp]; [done| |].
  - destruct (writeFile _ _) as [[]|e'] eqn:E; cbn [Renderer.await mbind completion_bind bind].
    + intros [[-> [s Hs]]|(f' & Hf' & Hw)]%IH.
      * left. split; [done|]. exists s. by apply list_elem_of_further.
      * right. exists f'. split; [by apply list_elem_of_further|done].
    + intros [= <-]. right. exists f. split; [apply list_elem_of_here|done].
  - intros [= <-]. left. split; [done|]. exists s. apply list_elem_of_here.
Qed.

End RouteFacts.

(** X17.  [callGemini] returns the texts of the chunks of the stream put
    together in their order; a chunk without text, or with the empty text,
    adds nothing, so that the output does not depend on where the stream
    is cut into chunks.  When the iteration of the stream throws, what was
    read before is dropped and [callGemini] rejects with that error. *)
Theorem callGemini_concatenates (cs : list (option jsstring)) :
  Route.callGemini (Renderer.Resolved (Route.Stream cs None))
  = Renderer.Resolved (concat (default [] <$> cs))
  ∧ (∀ cs', concat (default [] <$> cs') = concat (default [] <$> cs) →
            Route.callGemini (Renderer.Resolved (Route.Stream cs' None))
            = Route.callGemini (Renderer.Resolved (Route.Stream cs None)))
  ∧ (∀ e, Route.callGemini (Renderer.Resolved (Route.Stream cs (Some e)))
          = Renderer.Rejected e).
Proof.
  unfold Route.callGemini. cbn [Route.failure Route.chunks]. rewrite collect_concat.
  split; [done|]. split; [|done]. intros cs' H. by rewrite collect_concat, H.
Qed.

(** X18.  The route answers with status 400 exactly when the server is
    configured, the directory and the form data were obtained, and the
    field [file] is missing, is an empty text, or is a file whose name
    does not end with ".xlsx" as it is written (".XLSX" and ".xls" do
    not pass); the answer is [{ error: "Invalid file. Upload '.xlsx'." }]. *)
Theorem route_invalid_upload
    (toLowerCase : jsstring → jsstring)
    (mergeCellsAccepts : workbook → jsval → bool)
    (getCellAccepts rowGetCellAccepts : jsval → bool)
    (writeBuffer : workbook → completion unit)
    (PYTHON_RENDERER_URL : option jsstring) (w : Renderer.world)
    (GEMINI_API_KEY : option jsstring) (UPLOAD_DIR : jsstring)
    (join : jsstring → jsstring → jsstring → jsstring) (dirname : jsstring → jsstring)
    (PROMPT : jsstring)
    (mkdir : jsstring → Renderer.settled unit)
    (formData : Renderer.settled (option Route.entry * list Route.entry))
    (writeFile : jsstring → Buffer → Renderer.settled unit)
    (readWorkbook : jsstring → Renderer.settled (list Normalizer.worksheet))
    (generateContentStream : jsstring → Renderer.settled Route.stream)
    (slug : jsstring) (e : js_error) :
  Route.POST toLowerCase mergeCellsAccepts getCellAccepts rowGetCellAccepts writeBuffer
    PYTHON_RENDERER_URL w GEMINI_API_KEY UPLOAD_DIR join dirname PROMPT
    mkdir formData writeFile readWorkbook generateContentStream slug
  = Normal (Handler.Failure 400 e)
  ↔ mkdir UPLOAD_DIR = Renderer.Resolved ()
    ∧ is_Some GEMINI_API_KEY
    ∧ e = JsError (u "Invalid file. Upload '.xlsx'.")
    ∧ ∃ file stpUploads,
        formData = Renderer.Resolved (file, stpUploads)
        ∧ (file = None ∨ file = Some (Route.TextEntry [])
           ∨ ∃ f, file = Some (Route.FileEntry f)
                  ∧ ¬ ∃ stem, Route.fileName f = stem ++ u ".xlsx").
Proof.
  unfold Route.POST, Route.answer.
  destruct (mkdir UPLOAD_DIR) as [[]|e0]; cbn [Renderer.await mbind completion_bind bind].
  2:{ split; [done|]. by intros [? _]. }
  destruct GEMINI_API_KEY as [key|].
  2:{ split; [done|]. intros (_ & [? ?] & _). done. }
  destruct formData as [[file stpUploads]|e0];
    cbn [Renderer.await mbind completion_bind bind fst snd].
  2:{ split; [done|]. by intros (_ & _ & _ & ? & ? & ? & _). }
  destruct file as [[f|[|c s]]|].
  - destruct (Renderer.endsWith (Route.fileName f) (u ".xlsx")) eqn:Eends; cbn [negb].
    + split.
      * destruct (mkdir _) as [[]|?]; cbn [Renderer.await mbind completion_bind bind]; [|done].
        destruct (writeFile _ _) as [[]|?]; cbn [Renderer.await mbind completion_bind bind];
          [|done].
        destruct (Route.saveStp _ _ _ _ _ _) as [stpInfo| |];
          cbn [mbind completion_bind bind]; [|done..].
        destruct (readWorkbook _) as [workbook|?]; [|done].
        intros [H _]%POST_answers. done.
      * intros (_ & _ & _ & file & stp & [= <- <-] & [?|[?|(f' & [= <-] & Hno)]]); try done.
        exfalso. apply Hno. by apply endsWith_spec.
    + split.
      * intros [= <-]. split; [done|]. split; [by eexists|]. split; [done|].
        eexists _, _. split; [done|]. right. right. exists f. split; [done|].
        intros H%endsWith_spec. congruence.
      * by intros (_ & _ & -> & _).
  - split.
    + intros [= <-]. split; [done|]. split; [by eexists|]. split; [done|].
      eexists _, _. split; [done|]. right. by left.
    + by intros (_ & _ & -> & _).
  - split; [done|].
    intros (_ & _ & _ & file & stp & [= <- <-] & [?|[?|(f' & ? & _)]]); done.
  - split.
    + intros [= <-]. split; [done|]. split; [by eexists|]. split; [done|].
      eexists _, _. split; [done|]. by left.
    + by intros (_ & _ & -> & _).
Qed.

(** X19.  Storing the uploads stands before the [try] block: the route
    throws, and answers nothing, only where [initDirectories],
    [req.formData()], [fs.mkdir] or a [fs.writeFile] rejects, or where a
    text field is read as a file ([TypeError]).  Nothing that happens in
    the [try] block is thrown. *)
Theorem route_throws_before_try
    (toLowerCase : jsstring → jsstring)
    (mergeCellsAccepts : workbook → jsval → bool)
    (getCellAccepts rowGetCellAccepts : jsval → bool)
    (writeBuffer : workbook → completion unit)
    (PYTHON_RENDERER_URL : option jsstring) (w : Renderer.world)
    (GEMINI_API_KEY : option jsstring) (UPLOAD_DIR : jsstring)
    (join : jsstring → jsstring → jsstring → jsstring) (dirname : jsstring → jsstring)
    (PROMPT : jsstring)
    (mkdir : jsstring → Renderer.settled unit)
    (formData : Renderer.settled (option Route.entry * list Route.entry))
    (writeFile : jsstring → Buffer → Renderer.settled unit)
    (readWorkbook : jsstring → Renderer.settled (list Normalizer.worksheet))
    (generateContentStream : jsstring → Renderer.settled Route.stream)
    (slug : jsstring) (e : js_error) :
  Route.POST toLowerCase mergeCellsAccepts getCellAccepts rowGetCellAccepts writeBuffer
    PYTHON_RENDERER_URL w GEMINI_API_KEY UPLOAD_DIR join dirname PROMPT
    mkdir formData writeFile readWorkbook generateContentStream slug
  = Throw e →
  (∃ dir, mkdir dir = Renderer.Rejected e)
  ∨ formData = Renderer.Rejected e
  ∨ (∃ path content, writeFile path content = Renderer.Rejected e)
  ∨ (e = JsTypeError
     ∧ ∃ file stpUploads s,
         formData = Renderer.Resolved (file, stpUploads)
         ∧ (file = Some (Route.TextEntry s) ∨ Route.TextEntry s ∈ stpUploads)).
Proof.
  unfold Route.POST, Route.answer.
  destruct (mkdir UPLOAD_DIR) as [[]|e0] eqn:Emk;
    cbn [Renderer.await mbind completion_bind bind].
  2:{ intros [= <-]. left. by eexists. }
  destruct GEMINI_API_KEY as [key|]; [|done].
  destruct formData as [[file stpUploads]|e0];
    cbn [Renderer.await mbind completion_bind bind fst snd].
  2:{ intros [= <-]. right. by left. }
  destruct file as [[f|[|c s]]|]; [|done| |done].
  - destruct (Renderer.endsWith (Route.fileName f) (u ".xlsx")); cbn [negb]; [|done].
    destruct (mkdir (dirname _)) as [[]|?] eqn:Emk2;
      cbn [Renderer.await mbind completion_bind bind].
    2:{ intros [= <-]. left. by eexists. }
    destruct (writeFile _ _) as [[]|?] eqn:Ewr;
      cbn [Renderer.await mbind completion_bind bind].
    2:{ intros [= <-]. right. right. left. by eexists _, _. }
    destruct (Route.saveStp _ _ _ _ _ _) as [stpInfo|e0|] eqn:Esave;
      cbn [mbind completion_bind bind]; [| |done].
    + destruct (readWorkbook _) as [workbook|?]; [|done].
      intros H. by apply POST_answers in H.
    + intros [= <-].
      apply saveStp_throws in Esave as [[-> [s Hs]]|(f' & _ & Hw)].
      * right. right. right. split; [done|]. eexists _, _, s. split; [done|]. by right.
      * right. right. left. by eexists _, _.
  - intros [= <-]. right. right. right. split; [done|].
    eexists _, _, (c :: s). split; [done|]. by left.
Qed.

(** The theorem at a request whose second CAD file cannot be written. *)
Lemma route_throws_before_try_witness :
  ∃ path content,
    (fun p (_ : Buffer) => if bool_decide (p = u "b.stp")
                           then Renderer.Rejected (JsError (u "ENOSPC"))
                           else Renderer.Resolved ()) path content
    = Renderer.Rejected (JsError (u "ENOSPC")).
Proof.
  destruct (route_throws_before_try asciiLowerCase Samples.anyRange Samples.anyCell
              Samples.anyCell Samples.anyWorkbook None (Samples.oneGoodFile [] []) (Some (u "key")) (u "/tmp")
              (fun _ _ n => n) (fun p => p) (u "PROMPT")
              (fun _ => Renderer.Resolved ())
              (Renderer.Resolved
                 (Some (Route.FileEntry (Route.Upload (u "spec.xlsx") [80; 75])),
                  [Route.FileEntry (Route.Upload (u "a.stp") [1]);
                   Route.FileEntry (Route.Upload (u "b.stp") [2])]))
              (fun p (_ : Buffer) => if bool_decide (p = u "b.stp")
                                     then Renderer.Rejected (JsError (u "ENOSPC"))
                                     else Renderer.Resolved ())
              (fun _ => Renderer.Resolved [])
              (fun _ => Renderer.Resolved (Route.Stream [] None))
              (u "1-abc") (JsError (u "ENOSPC")))
    as [[dir H]|[H|[H|[H _]]]].
  - vm_compute. reflexivity.
  - discriminate H.
  - discriminate H.
  - exact H.
  - discriminate H.
Defined.

(** ** The download name *)

Section ProxyFacts.
Import Proxy.

(** Splitting at a separator: the text before the first separator is
    joined to what was read, and the parts put together with the separator
    give the text back. *)
Lemma split_plain (sep : N) (s : jsstring) : ∀ cur,
  sep ∉ s → split sep cur s = [rev cur ++ s].
Proof.
  induction s as [|c s IH]; intros cur Hs; cbn [split].
  - by rewrite app_nil_r.
  - apply not_elem_of_cons in Hs as [Hc Hs].
    rewrite (proj2 (N.eqb_neq c sep)) by done. rewrite IH by done.
    cbn [rev]. by rewrite <- app_assoc.
Qed.

Lemma split_first (sep : N) (s rest : jsstring) : ∀ cur,
  sep ∉ s → split sep cur (s ++ sep :: rest) = (rev cur ++ s) :: split sep [] rest.
Proof.
  induction s as [|c s IH]; intros cur Hs; cbn [app split].
  - by rewrite N.eqb_refl, app_nil_r.
  - apply not_elem_of_cons in Hs as [Hc Hs].
    rewrite (proj2 (N.eqb_neq c sep)) by done. rewrite IH by done.
    cbn [rev]. by rewrite <- app_assoc.
Qed.

Lemma split_last (sep : N) (s rest : jsstring) : ∀ cur,
  sep ∉ rest → split sep cur (s ++ sep :: rest) = split sep cur s ++ [rest].
Proof.
  induction s as [|c s IH]; intros cur Hs; cbn [app split].
  - rewrite N.eqb_refl. by rewrite split_plain.
  - destruct (c =? sep); [by rewrite IH|by apply IH].
Qed.

Lemma split_some (sep : N) (s : jsstring) : ∀ cur, ∃ l x, split sep cur s = l ++ [x].
Proof.
  induction s as [|c s IH]; intros cur; cbn [split].
  - by exists [], (rev cur).
  - destruct (c =? sep).
    + destruct (IH []) as (l & x & ->). by exists (rev cur :: l), x.
    + apply IH.
Qed.

Lemma join_split (sep : N) (s : jsstring) : ∀ cur,
  Js.join [sep] (split sep cur s) = rev cur ++ s.
Proof.
  induction s as [|c s IH]; intros cur; cbn [split].
  - by rewrite app_nil_r.
  - destruct (c =? sep) eqn:E.
    + apply N.eqb_eq in E as ->. specialize (IH []).
      destruct (split sep [] s) as [|y l] eqn:Es.
      { destruct (split_some sep s []) as (l' & x & Hl). rewrite Hl in Es.
        by destruct l'. }
      change (Js.join [sep] (rev cur :: y :: l))
        with (rev cur ++ [sep] ++ Js.join [sep] (y :: l)).
      by rewrite IH.
    + rewrite IH. cbn [rev]. by rewrite <- app_assoc.
Qed.

End ProxyFacts.

(** X20.  The name offered for the download is the name of the upload
    without its last extension, followed by "_previews.zip": for a name
    [stem.ext] with no dot in [ext] it is built from [stem], and for a name
    without any dot it is built from the empty string, so that "model"
    gives "_previews.zip". *)
Theorem download_name_drops_last_extension :
  (∀ stem ext, 46 ∉ ext → Proxy.originalFileNameNoExt (stem ++ [46] ++ ext) = stem)
  ∧ (∀ name, 46 ∉ name → Proxy.originalFileNameNoExt name = [])
  ∧ (∀ stem ext, 46 ∉ ext →
       Proxy.defaultDisposition (stem ++ [46] ++ ext)
       = u "attachment; filename=" ++ [34] ++ stem ++ u "_previews.zip" ++ [34]).
Proof.
  assert (∀ stem ext, 46 ∉ ext → Proxy.originalFileNameNoExt (stem ++ [46] ++ ext) = stem) as H.
  { intros stem ext Hext. unfold Proxy.originalFileNameNoExt. cbn [app].
    rewrite split_last by done.
    rewrite removelast_last. apply (join_split 46 stem []). }
  split; [exact H|]. split.
  - intros name Hname. unfold Proxy.originalFileNameNoExt. by rewrite split_plain.
  - intros stem ext Hext. unfold Proxy.defaultDisposition. by rewrite H.
Qed.

(** The theorem at the name "bracket.v2.stp". *)
Lemma download_name_drops_last_extension_witness :
  Proxy.originalFileNameNoExt (u "bracket.v2.stp") = u "bracket.v2".
Proof.
  apply (proj1 download_name_drops_last_extension (u "bracket.v2") (u "stp")).
  intros H. apply (bool_decide_eq_false_1 (46 ∈ u "stp")); [|exact H].
  vm_compute. reflexivity.
Defined.

(** ** The page *)



Section ViewerFacts.
Import Viewer.

Lemma stp_type_ends (toLowerCase : jsstring → jsstring) (n : jsstring) :
  getUploadedItemType toLowerCase n = stp →
  Renderer.endsWith (toLowerCase n) (u ".stp") = true
  ∨ Renderer.endsWith (toLowerCase n) (u ".step") = true.
Proof.
  unfold getUploadedItemType.
  destruct (_ || _); [done|]. destruct (_ || _); [done|].
  destruct (Renderer.endsWith _ (u ".stp")); [by left|].
  destruct (Renderer.endsWith _ (u ".step")); [by right|].
  cbn [orb]. by destruct (Renderer.endsWith _ _).
Qed.

Lemma stpFiles_names (toLowerCase : jsstring → jsstring) (files : list file) :
  stpFiles (processedItems toLowerCase files)
  = List.filter (fun f => bool_decide (getUploadedItemType toLowerCase (name f) = stp)) files.
Proof.
  unfold stpFiles, stpFileItems, processedItems.
  induction files as [|f files IH]; [done|].
  cbn [List.map List.filter type]. destruct (bool_decide _); cbn [fmap list_fmap itemFile];
    by rewrite <- IH.
Qed.

(** Among items of distinct files, the first item a test holds of is the
    only one that the comparison with the primary file leaves out. *)
Lemma primary_left_out (P : item → bool) (items : list item) :
  NoDup (ident ∘ itemFile <$> items) →
  (length (List.filter (fun i => P i && isNot (itemFile <$> List.find P items) (itemFile i))
                       items)
   + match List.find P items with Some _ => 1 | None => 0 end
   = length (List.filter P items))%nat.
Proof.
  induction items as [|a items IH]; [done|].
  intros [Ha Hnd]%NoDup_cons. cbn [List.find].
  destruct (P a) eqn:Pa.
  - cbn [List.filter fmap option_fmap option_map]. rewrite Pa.
    unfold isNot at 1. rewrite bool_decide_eq_true_2 by done. cbn [negb andb length].
    rewrite (filter_ext_in _ P).
    + lia.
    + intros i Hi. destruct (P i); [|done]. cbn [andb isNot].
      rewrite bool_decide_eq_false_2; [done|].
      intros Heq. apply Ha. apply list_elem_of_fmap. exists i.
      split; [symmetry; exact Heq|]. by apply list_elem_of_In.
  - cbn [List.filter]. rewrite Pa. cbn [andb]. by apply IH.
Qed.

Lemma distinct_files (items : list item) (i j : item) :
  NoDup (ident ∘ itemFile <$> items) →
  i ∈ items → j ∈ items → ident (itemFile i) = ident (itemFile j) → i = j.
Proof.
  induction items as [|a items IH]; [by intros _ ?%elem_of_nil|].
  intros [Ha Hnd]%NoDup_cons [->|Hi]%elem_of_cons [->|Hj]%elem_of_cons Heq.
  - done.
  - exfalso. apply Ha. apply list_elem_of_fmap. by exists j.
  - exfalso. apply Ha. apply list_elem_of_fmap. by exists i.
  - by apply IH.
Qed.

(** What the list of other files holds is no CAD file and is not the file
    of the two viewers. *)
Lemma generic_apart (items : list item) (i : item) :
  NoDup (ident ∘ itemFile <$> items) →
  i ∈ filesForGenericList items →
  i ∈ items ∧ (i ∉ stpFileItems items)
  ∧ primaryExcelFile items ≠ Some (itemFile i)
  ∧ primaryPowerPointFile items ≠ Some (itemFile i).
Proof.
  intros Hnd [Hi Hg]%list_elem_of_In%filter_In. apply list_elem_of_In in Hi.
  split; [done|]. split; [|split].
  - intros [_ Hs%bool_decide_eq_true_1]%list_elem_of_In%filter_In.
    by rewrite Hs in Hg.
  - unfold primaryExcelFile in *.
    destruct (List.find _ items) as [j|] eqn:Ej; [|done].
    apply find_some in Ej as [Hj%list_elem_of_In Tj%bool_decide_eq_true_1].
    cbn [fmap option_fmap option_map] in *. intros [= Heq].
    assert (i = j) as -> by (apply (distinct_files items); [done..|by rewrite Heq]).
    rewrite Tj in Hg. cbn [isNot] in Hg. by rewrite bool_decide_eq_true_2 in Hg.
  - unfold primaryPowerPointFile in *.
    destruct (List.find _ items) as [j|] eqn:Ej; [|done].
    apply find_some in Ej as [Hj%list_elem_of_In Tj%bool_decide_eq_true_1].
    cbn [fmap option_fmap option_map] in *. intros [= Heq].
    assert (i = j) as -> by (apply (distinct_files items); [done..|by rewrite Heq]).
    rewrite Tj in Hg. cbn [isNot] in Hg. by rewrite bool_decide_eq_true_2 in Hg.
Qed.

Lemma sections_count (items : list item) :
  (length items
   = length (List.filter (fun i => bool_decide (type i = excel)) items)
     + length (List.filter (fun i => bool_decide (type i = powerpoint)) items)
     + length (List.filter (fun i => bool_decide (type i = stp)) items)
     + length (List.filter (fun i => negb (bool_decide (type i = excel))
                                     && negb (bool_decide (type i = powerpoint))
                                     && negb (bool_decide (type i = stp))) items))%nat.
Proof.
  induction items as [|a items IH]; [done|].
  cbn [List.filter length]. destruct (type a); cbn [bool_decide decide_rel andb negb length];
    rewrite IH; simpl; lia.
Qed.

Lemma generic_count (pe pp : option file) (items : list item) :
  (length (List.filter (fun i => match type i with
                                 | excel => isNot pe (itemFile i)
                                 | powerpoint => isNot pp (itemFile i)
                                 | stp => false
                                 | dwg | other => true
                                 end) items)
   = length (List.filter (fun i => bool_decide (type i = excel) && isNot pe (itemFile i)) items)
     + length (List.filter (fun i => bool_decide (type i = powerpoint)
                                     && isNot pp (itemFile i)) items)
     + length (List.filter (fun i => negb (bool_decide (type i = excel))
                                     && negb (bool_decide (type i = powerpoint))
                                     && negb (bool_decide (type i = stp))) items))%nat.
Proof.
  induction items as [|a items IH]; [done|].
  cbn [List.filter]. destruct (type a) eqn:Ta; cbn [bool_decide decide_rel andb negb];
    try destruct (isNot _ _); cbn [length]; rewrite IH; simpl; lia.
Qed.

Lemma excel_suffix (stem ext : jsstring) :
  (asciiLowerCase ext = u ".xlsx" ∨ asciiLowerCase ext = u ".xls") →
  ext ≠ u ".xlsx" →
  Renderer.endsWith (stem ++ ext) (u ".xlsx") = false.
Proof.
  intros Hext Hne. apply not_true_is_false. intros [stem' H]%endsWith_spec.
  destruct Hext as [Hl|Hl].
  - apply app_inj_2 in H as [_ H]; [done|].
    apply (f_equal length) in Hl. unfold asciiLowerCase in Hl.
    by rewrite length_map in Hl.
  - assert (length ext = 4%nat) as Hlen.
    { apply (f_equal length) in Hl. unfold asciiLowerCase in Hl.
      by rewrite length_map in Hl. }
    change (u ".xlsx") with ([46] ++ u "xlsx") in H. rewrite app_assoc in H.
    apply app_inj_2 in H as [_ ->]; [|done]. vm_compute in Hl. discriminate Hl.
Qed.

End ViewerFacts.

(** X21.  The CAD files the page posts are the uploads whose lower-cased
    name ends with ".stp" or ".step", in the order of the selection.  Once
    the route has stored them, the names the reconciler searches are these
    lower-cased names: each ends with one of the two extensions and none
    of them is empty. *)
Theorem viewer_cad_names
    (toLowerCase : jsstring → jsstring) (UPLOAD_DIR : jsstring)
    (join : jsstring → jsstring → jsstring → jsstring)
    (writeFile : jsstring → Buffer → Renderer.settled unit)
    (slug : jsstring) (files : list Viewer.file) (stpInfo : list stp_file) :
  Route.saveStp UPLOAD_DIR join writeFile slug
    (Viewer.sent <$> Viewer.stpFiles (Viewer.processedItems toLowerCase files)) []
  = Normal stpInfo →
  Reconciler.stpNames toLowerCase stpInfo
  = toLowerCase <$>
      (Viewer.name <$>
         List.filter (fun f => bool_decide (Viewer.getUploadedItemType toLowerCase (Viewer.name f)
                                            = Viewer.stp)) files)
  ∧ Forall (fun n => Renderer.endsWith n (u ".stp") = true
                     ∨ Renderer.endsWith n (u ".step") = true)
           (Reconciler.stpNames toLowerCase stpInfo)
  ∧ [] ∉ Reconciler.stpNames toLowerCase stpInfo.
Proof.
  intros Hsave.
  assert (Reconciler.stpNames toLowerCase stpInfo
          = toLowerCase <$>
              (Viewer.name <$>
                 List.filter (fun f => bool_decide
                                         (Viewer.getUploadedItemType toLowerCase (Viewer.name f)
                                          = Viewer.stp)) files)) as Hnames.
  { unfold Viewer.sent in Hsave.
    rewrite (list_fmap_compose (fun f => Route.Upload (Viewer.name f) (Viewer.bytes f))
               Route.FileEntry) in Hsave.
    apply saveStp_names in Hsave. cbn [fmap list_fmap app] in Hsave.
    unfold Reconciler.stpNames.
    change (List.map (fun f => toLowerCase (name f)) stpInfo)
      with ((toLowerCase ∘ name) <$> stpInfo).
    rewrite list_fmap_compose, Hsave, <- !list_fmap_compose, stpFiles_names. done. }
  assert (Forall (fun n => Renderer.endsWith n (u ".stp") = true
                           ∨ Renderer.endsWith n (u ".step") = true)
                 (Reconciler.stpNames toLowerCase stpInfo)) as Hends.
  { rewrite Hnames. apply Forall_forall.
    intros n (n' & -> & (f & -> & Hf)%list_elem_of_fmap)%list_elem_of_fmap.
    apply list_elem_of_In, filter_In in Hf as [_ Hf%bool_decide_eq_true_1].
    by apply stp_type_ends. }
  split; [done|]. split; [done|].
  intros Hin. rewrite Forall_forall in Hends. by destruct (Hends _ Hin).
Qed.

(** The theorem at a selection of three files, two of them CAD files. *)
Lemma viewer_cad_names_witness :
  [] ∉ Reconciler.stpNames asciiLowerCase
         [StpFile (u "BRK-01.STP") (u "BRK-01.STP"); StpFile (u "cover.step") (u "cover.step")].
Proof.
  apply (viewer_cad_names asciiLowerCase (u "/tmp") (fun _ _ n => n)
           (fun _ _ => Renderer.Resolved ()) (u "1-abc")
           [Viewer.File 0 (u "BRK-01.STP") [] [1];
            Viewer.File 1 (u "spec.xlsx") [] [2];
            Viewer.File 2 (u "cover.step") [] [3]]).
  vm_compute. reflexivity.
Defined.

(** X22.  When the uploads are distinct files, each of them is shown in
    exactly one place of the page: the list of other files holds no CAD
    file and neither the file of the Excel viewer nor that of the
    PowerPoint viewer, and the two viewers, the CAD previews and the list
    together show as many files as were uploaded.  The notice "Multiple
    Excel files found" is never rendered, whatever was uploaded. *)
Theorem every_upload_shown_once (items : list Viewer.item) :
  NoDup (Viewer.ident ∘ Viewer.itemFile <$> items) →
  (length items
   = match Viewer.primaryExcelFile items with Some _ => 1 | None => 0 end
     + match Viewer.primaryPowerPointFile items with Some _ => 1 | None => 0 end
     + length (Viewer.stpFileItems items)
     + length (Viewer.filesForGenericList items))%nat
  ∧ (∀ i, i ∈ Viewer.filesForGenericList items →
          i ∈ items ∧ (i ∉ Viewer.stpFileItems items)
          ∧ Viewer.primaryExcelFile items ≠ Some (Viewer.itemFile i)
          ∧ Viewer.primaryPowerPointFile items ≠ Some (Viewer.itemFile i))
  ∧ Viewer.multipleExcelNotice items = false.
Proof.
  intros Hnd. split; [|split].
  - unfold Viewer.filesForGenericList, Viewer.stpFileItems.
    rewrite generic_count, (sections_count items) at 1.
    pose proof (primary_left_out (fun i => bool_decide (Viewer.type i = Viewer.excel))
                  items Hnd) as He.
    pose proof (primary_left_out (fun i => bool_decide (Viewer.type i = Viewer.powerpoint))
                  items Hnd) as Hp.
    unfold Viewer.primaryExcelFile, Viewer.primaryPowerPointFile.
    destruct (List.find (fun i => bool_decide (Viewer.type i = Viewer.excel)) items);
      destruct (List.find (fun i => bool_decide (Viewer.type i = Viewer.powerpoint)) items);
      cbn [fmap option_fmap option_map] in *; lia.
  - intros i. by apply generic_apart.
  - unfold Viewer.multipleExcelNotice, Viewer.primaryExcelFile, Viewer.allExcelFilesCount.
    induction items as [|a items IH]; [done|].
    apply NoDup_cons in Hnd as [_ Hnd]. specialize (IH Hnd).
    cbn [List.find List.filter]. destruct (bool_decide (Viewer.type a = Viewer.excel)); done.
Qed.

(** The theorem at two Excel files, two CAD files and a drawing. *)
Lemma every_upload_shown_once_witness :
  (length (Viewer.processedItems asciiLowerCase Examples.selection)
   = match Viewer.primaryExcelFile (Viewer.processedItems asciiLowerCase Examples.selection)
     with Some _ => 1 | None => 0 end
     + match Viewer.primaryPowerPointFile
               (Viewer.processedItems asciiLowerCase Examples.selection)
       with Some _ => 1 | None => 0 end
     + length (Viewer.stpFileItems (Viewer.processedItems asciiLowerCase Examples.selection))
     + length (Viewer.filesForGenericList
                 (Viewer.processedItems asciiLowerCase Examples.selection)))%nat
  ∧ (∀ i, i ∈ Viewer.filesForGenericList
                (Viewer.processedItems asciiLowerCase Examples.selection) →
          i ∈ Viewer.processedItems asciiLowerCase Examples.selection
          ∧ (i ∉ Viewer.stpFileItems
                 (Viewer.processedItems asciiLowerCase Examples.selection))
          ∧ Viewer.primaryExcelFile (Viewer.processedItems asciiLowerCase Examples.selection)
            ≠ Some (Viewer.itemFile i)
          ∧ Viewer.primaryPowerPointFile
              (Viewer.processedItems asciiLowerCase Examples.selection)
            ≠ Some (Viewer.itemFile i))
  ∧ Viewer.multipleExcelNotice (Viewer.processedItems asciiLowerCase Examples.selection)
    = false.
Proof.
  apply (every_upload_shown_once (Viewer.processedItems asciiLowerCase Examples.selection)).
  apply (bool_decide_unpack _). vm_compute. exact I.
Defined.

(** X23.  The page takes a file for the specification sheet when its
    lower-cased name ends with ".xlsx" or ".xls", but the route compares
    the name as it is written with ".xlsx" only: for a sheet named with
    ".xls", ".XLSX" or another spelling the page offers the processing and
    the route answers with status 400, whatever else was uploaded. *)
Theorem sheet_offered_and_refused
    (mergeCellsAccepts : workbook → jsval → bool)
    (getCellAccepts rowGetCellAccepts : jsval → bool)
    (writeBuffer : workbook → completion unit)
    (PYTHON_RENDERER_URL : option jsstring) (w : Renderer.world)
    (key UPLOAD_DIR : jsstring)
    (join : jsstring → jsstring → jsstring → jsstring) (dirname : jsstring → jsstring)
    (PROMPT : jsstring)
    (mkdir : jsstring → Renderer.settled unit)
    (writeFile : jsstring → Buffer → Renderer.settled unit)
    (readWorkbook : jsstring → Renderer.settled (list Normalizer.worksheet))
    (generateContentStream : jsstring → Renderer.settled Route.stream)
    (slug : jsstring) (f : Viewer.file) (stem ext : jsstring) (stpFiles : list Viewer.file) :
  Viewer.name f = stem ++ ext →
  (asciiLowerCase ext = u ".xlsx" ∨ asciiLowerCase ext = u ".xls") →
  ext ≠ u ".xlsx" →
  mkdir UPLOAD_DIR = Renderer.Resolved () →
  Viewer.getUploadedItemType asciiLowerCase (Viewer.name f) = Viewer.excel
  ∧ Route.POST asciiLowerCase mergeCellsAccepts getCellAccepts rowGetCellAccepts writeBuffer
      PYTHON_RENDERER_URL w (Some key) UPLOAD_DIR join dirname PROMPT
      mkdir (Renderer.Resolved (Viewer.runPipelineForm f stpFiles))
      writeFile readWorkbook generateContentStream slug
    = Normal (Handler.Failure 400 (JsError (u "Invalid file. Upload '.xlsx'."))).
Proof.
  intros Hname Hext Hne Hmk. split.
  - unfold Viewer.getUploadedItemType.
    assert (Renderer.endsWith (asciiLowerCase (Viewer.name f)) (u ".xlsx")
            || Renderer.endsWith (asciiLowerCase (Viewer.name f)) (u ".xls") = true) as ->;
      [|done].
    apply orb_true_iff. rewrite !asciiLowerCase_endsWith.
    destruct Hext; [left|right]; by exists stem, ext.
  - unfold Route.POST, Route.answer. rewrite Hmk.
    cbn [Renderer.await mbind completion_bind bind Viewer.runPipelineForm fst Viewer.sent
         Route.fileName].
    by rewrite Hname, excel_suffix.
Qed.

(** The theorem at a sheet named "spec.XLSX". *)
Lemma sheet_offered_and_refused_witness :
  Viewer.getUploadedItemType asciiLowerCase (u "spec.XLSX") = Viewer.excel
  ∧ Route.POST asciiLowerCase Samples.anyRange Samples.anyCell Samples.anyCell
      Samples.anyWorkbook None (Samples.oneGoodFile [] []) (Some (u "key")) (u "/tmp")
      (fun _ _ n => n) (fun p => p) (u "PROMPT")
      (fun _ => Renderer.Resolved ())
      (Renderer.Resolved
         (Viewer.runPipelineForm (Viewer.File 0 (u "spec.XLSX") [] [80; 75]) []))
      (fun _ _ => Renderer.Resolved ())
      (fun _ => Renderer.Resolved [])
      (fun _ => Renderer.Resolved (Route.Stream [] None))
      (u "1-abc")
    = Normal (Handler.Failure 400 (JsError (u "Invalid file. Upload '.xlsx'."))).
Proof.
  apply (sheet_offered_and_refused Samples.anyRange Samples.anyCell Samples.anyCell
           Samples.anyWorkbook None (Samples.oneGoodFile [] []) (u "key") (u "/tmp")
           (fun _ _ n => n) (fun p => p) (u "PROMPT")
           (fun _ => Renderer.Resolved ()) (fun _ _ => Renderer.Resolved ())
           (fun _ => Renderer.Resolved [])
           (fun _ => Renderer.Resolved (Route.Stream [] None))
           (u "1-abc") (Viewer.File 0 (u "spec.XLSX") [] [80; 75]) (u "spec") (u ".XLSX") []).
  - vm_compute. reflexivity.
  - left. vm_compute. reflexivity.
  - intros H. vm_compute in H. discriminate H.
  - reflexivity.
Defined.

(** X24.  For the upload of one folder, where every relative path is
    [root/...], [getUploadDisplayName] gives the name of the folder, unless
    the first file carries the very name of the folder: then the upload is
    shown as files of the root, by the name of the file when it is alone
    and by the count of the files otherwise. *)
Theorem folder_display_name (first : Viewer.item) (rest : list Viewer.item) (root : jsstring) :
  47 ∉ root →
  Forall (fun i => ∃ tail, Viewer.relativePath i = root ++ [47] ++ tail) (first :: rest) →
  Viewer.getUploadDisplayName (Some (first :: rest))
  = if bool_decide (root = Viewer.name (Viewer.itemFile first))
    then match rest with
         | [] => Viewer.name (Viewer.itemFile first)
         | _ => decimal (Z.of_nat (S (length rest))) ++ u " files (root)"
         end
    else root.
Proof.
  intros Hroot Hall. unfold Viewer.getUploadDisplayName.
  assert (forallb Viewer.hasPath (first :: rest) = true) as ->.
  { apply forallb_forall. intros i Hi%list_elem_of_In.
    rewrite Forall_forall in Hall. destruct (Hall i Hi) as [tail Ht].
    unfold Viewer.hasPath. apply bool_decide_eq_true_2. rewrite Ht.
    apply elem_of_app. right. apply list_elem_of_here. }
  pose proof Hall as [[tail Ht] _]%Forall_cons.
  rewrite Ht. cbn [app]. rewrite (split_first 47 root tail []) by done. cbn [rev app].
  destruct (bool_decide (root = _)); cbn [negb]; [done|].
  assert (forallb (fun i => startsWith (Viewer.relativePath i) (root ++ [47])) (first :: rest)
          = true) as Hshare.
  { apply forallb_forall. intros i Hi%list_elem_of_In.
    rewrite Forall_forall in Hall. destruct (Hall i Hi) as [tail' Ht'].
    apply startsWith_spec. exists tail'. by rewrite Ht', <- app_assoc. }
  by rewrite Hshare.
Qed.

(** The theorem at a folder "job" of two files. *)
Lemma folder_display_name_witness :
  Viewer.getUploadDisplayName
    (Some [Viewer.Item (Viewer.File 0 (u "spec.xlsx") (u "job/spec.xlsx") [])
             (u "job/spec.xlsx") Viewer.excel;
           Viewer.Item (Viewer.File 1 (u "a.stp") (u "job/cad/a.stp") [])
             (u "job/cad/a.stp") Viewer.stp])
  = u "job".
Proof.
  apply (folder_display_name
           (Viewer.Item (Viewer.File 0 (u "spec.xlsx") (u "job/spec.xlsx") [])
              (u "job/spec.xlsx") Viewer.excel)
           [Viewer.Item (Viewer.File 1 (u "a.stp") (u "job/cad/a.stp") [])
              (u "job/cad/a.stp") Viewer.stp]
           (u "job")).
  - intros H. apply (bool_decide_eq_false_1 (47 ∈ u "job")); [|exact H].
    vm_compute. reflexivity.
  - apply Forall_cons. split; [by exists (u "spec.xlsx")|].
    apply Forall_cons. split; [by exists (u "cad/a.stp")|]. by apply Forall_nil.
Defined.
